(** * Agent graph runtime: tool node, middlewares and run handler

    A shallow embedding of the parts of the agent runtime that decide how tool
    calls are reviewed, executed and reported:

    - [Hitl]          packages/plugins/agent-middlewares/src/lib/hitl.ts
    - [ToolNode]      packages/server-ai/src/xpert-agent/commands/handlers/tool_node.ts
    - [ClientTool]    the client tool middleware (unnamed/part_003:
                      createMiddleware, toToolMessage, wrapToolCall)
    - [ToolSelector]  the LLM tool selector middleware (unnamed/part_004:
                      prepareSelectionRequest, processSelectionResponse)
    - [Subgraph]      subgraph.handler.ts, the wrapModelCall chain of callModel
    - [Invoke]        invoke.handler.ts, the error and unsubscribe paths of execute
    - [Navigator], [NavigatorAfter]
                      subgraph.handler.ts, createAgentNavigator and
                      createAfterAgentNavigator
    - [Hooks]         subgraph.handler.ts, getModelHooks and the edges between
                      the hook nodes
    - [InvokeMore], [ToolCallUpdate]
                      invoke.handler.ts, the mute list and updateToolCalls
    - [Swarm]         packages/contracts/src/agent/graph.ts, getSwarmPartners
    - [Positions]     loadYamlFile, getPositionList and getPositionMap
                      (unnamed/part_003)
    - [AfterModelNode]
                      subgraph.handler.ts, createAfterModelNode and the reducer
                      of the agent's channel

    A promise that resolves is [Ok], one that rejects is [Throw]; awaited
    reads and user callbacks are fallible. The calls that [Promise.all] runs
    concurrently take the order in which they settle as a parameter. Plain
    objects used as maps are finite maps of their own keys: [Js.js_set] is the
    assignment [obj[key] = value] and [Js.prototype_names] lists the names
    that [in] also finds on the prototype. *)

From stdpp Require Import base option list strings gmap pretty.
From Stdlib Require Import ZArith Lia.

Open Scope string_scope.
Open Scope list_scope.

(** ** JavaScript values *)

Module Js.

(** JSON-like values: tool arguments, message contents, resume payloads. *)
#[local] Unset Elimination Schemes.
Inductive Json :=
| JNull
| JBool (b : bool)
| JNum (z : Z)
| JStr (s : string)
| JArr (items : list Json)
| JObj (fields : list (string * Json)).
#[local] Set Elimination Schemes.

(** [!!v] of JavaScript. *)
Definition truthy (v : Json) : bool :=
  match v with
  | JNull => false
  | JBool b => b
  | JNum z => negb (z =? 0)%Z
  | JStr s => negb (String.eqb s EmptyString)
  | JArr _ | JObj _ => true
  end.

(** Truthiness of an optional string ([undefined] and the empty string are falsy). *)
Definition truthy_str (o : option string) : bool :=
  match o with
  | Some s => negb (String.eqb s EmptyString)
  | None => false
  end.

(** [typeof v === "object"] on a value that is already known to be truthy. *)
Definition is_object (v : Json) : bool :=
  match v with
  | JArr _ | JObj _ => true
  | _ => false
  end.

(** [typeof v]. *)
Definition typeof (v : Json) : string :=
  match v with
  | JNull | JArr _ | JObj _ => "object"
  | JBool _ => "boolean"
  | JNum _ => "number"
  | JStr _ => "string"
  end.

(** [xs.includes(x)] on strings. *)
Definition includes (x : string) (xs : list string) : bool :=
  existsb (String.eqb x) xs.

(** How a template literal renders an optional string. *)
Definition render (o : option string) : string := default "undefined" o.

(** [JSON.stringify(v)] and [JSON.stringify(v, null, 2)] are taken as given. *)
Class Stringify := {
  JSON_stringify : Json -> string;
  JSON_stringify_indent : Json -> string
}.

Definition newline : string := String (Ascii.ascii_of_nat 10) EmptyString.
Definition dquote : string := String (Ascii.ascii_of_nat 34) EmptyString.

(** [xs.join(sep)] on strings. *)
Fixpoint join (sep : string) (xs : list string) : string :=
  match xs with
  | [] => EmptyString
  | [x] => x
  | x :: rest => x +:+ sep +:+ join sep rest
  end.

(** The names of the properties that every plain object inherits from
    [Object.prototype]. *)
Definition prototype_names : list string :=
  ["constructor"; "__defineGetter__"; "__defineSetter__"; "hasOwnProperty";
   "__lookupGetter__"; "__lookupSetter__"; "isPrototypeOf"; "propertyIsEnumerable";
   "toString"; "valueOf"; "__proto__"; "toLocaleString"].

(** [obj[key] = value] on a plain object, seen through its own properties:
    the key [__proto__] reaches the setter that [Object.prototype] holds for
    it, which changes the prototype of the object, or nothing, and adds no
    own property. *)
Definition js_set {A} (key : string) (value : A) (obj : gmap string A) : gmap string A :=
  if String.eqb key "__proto__" then obj else <[key := value]> obj.

(** [s.toLowerCase()] on ASCII letters. *)
Definition lower_ascii (c : Ascii.ascii) : Ascii.ascii :=
  let n := Ascii.nat_of_ascii c in
  if (65 <=? n)%nat && (n <=? 90)%nat then Ascii.ascii_of_nat (n + 32) else c.

Fixpoint toLowerCase (s : string) : string :=
  match s with
  | EmptyString => EmptyString
  | String c rest => String (lower_ascii c) (toLowerCase rest)
  end.

End Js.
Export Js.

(** ** Messages, tool calls and thrown values *)

Module Messages.

(** [ToolCall] of @langchain/core: the id is optional. *)
Record ToolCall := mkToolCall {
  tc_id : option string;
  tc_name : string;
  tc_args : Json;
  tc_type : option string
}.

Record ToolMessage := mkToolMessage {
  tm_content : Json;
  tm_name : option string;
  tm_tool_call_id : option string;
  tm_status : option string;
  tm_artifact : option Json
}.

Record AIMessage := mkAIMessage {
  ai_id : option string;
  ai_content : Json;
  ai_tool_calls : option (list ToolCall)
}.

Inductive BaseMessage :=
| MsgAI (m : AIMessage)
| MsgHuman (content : Json)
| MsgSystem (content : Json)
| MsgTool (m : ToolMessage).

Definition isAIMessage (m : BaseMessage) : bool :=
  match m with MsgAI _ => true | _ => false end.

Definition isHumanMessage (m : BaseMessage) : bool :=
  match m with MsgHuman _ => true | _ => false end.

(** Request for human review (hitl.ts). *)
Record ActionRequest := mkActionRequest {
  ar_name : string;
  ar_args : Json;
  ar_description : option string
}.

(** [allowedDecisions] is [None] when the config that the request is built
    from has no such property. *)
Record ReviewConfig := mkReviewConfig {
  rc_actionName : string;
  rc_allowedDecisions : option (list string);
  rc_argsSchema : option Json
}.

Record HITLRequest := mkHITLRequest {
  actionRequests : list ActionRequest;
  reviewConfigs : list ReviewConfig
}.

Record ClientToolRequest := mkClientToolRequest {
  clientToolCalls : list ToolCall
}.

(** The value handed to langgraph's [interrupt]. *)
Inductive InterruptValue :=
| InterruptHITL (r : HITLRequest)
| InterruptClientTool (r : ClientToolRequest)
| InterruptOther (v : Json).

(** What a JavaScript [throw] can carry here. *)
Inductive Thrown :=
| Error (message : string)
| TypeError (message : string)
| GraphInterrupt (value : InterruptValue).

Definition isGraphInterrupt (e : Thrown) : bool :=
  match e with GraphInterrupt _ => true | _ => false end.

Definition thrown_message (e : Thrown) : option string :=
  match e with
  | Error m | TypeError m => Some m
  | GraphInterrupt _ => None
  end.

(** A settled promise: resolved with a value or rejected with a thrown one. *)
Inductive Res (A : Type) :=
| Ok (a : A)
| Throw (e : Thrown).
Arguments Ok {A} a.
Arguments Throw {A} e.

Definition bind {A B} (r : Res A) (k : A -> Res B) : Res B :=
  match r with
  | Ok a => k a
  | Throw e => Throw e
  end.

(** [interrupt(value)]: without a resume value the node stops with a graph
    interrupt; when the run is resumed the call returns the resume value. *)
Definition interrupt {R} (value : InterruptValue) (resume : option R) : Res R :=
  match resume with
  | Some r => Ok r
  | None => Throw (GraphInterrupt value)
  end.

End Messages.
Export Messages.

Notation "x <- r ;; k" := (bind r (fun x => k))
(at level 100, r at next level, right associativity, only parsing).

(** ** Human-in-the-loop middleware (hitl.ts) *)

Module Hitl.

Definition ALLOWED_DECISIONS : list string := ["approve"; "edit"; "reject"].

(** An error that user code throws: an [Error] or a [TypeError]. *)
Inductive UserError :=
| UserError_Error (message : string)
| UserError_TypeError (message : string).

Definition thrown (e : UserError) : Thrown :=
  match e with
  | UserError_Error message => Error message
  | UserError_TypeError message => TypeError message
  end.

(** [description] of an interrupt config: a text or a factory. The factory
    is user code that the hook awaits: it answers with a text, or it throws
    (or rejects with) an error of its own. *)
Inductive Description :=
| DescriptionText (s : string)
| DescriptionFactory (f : ToolCall -> list BaseMessage -> UserError + string).

Record InterruptOnConfig := mkInterruptOnConfig {
  allowedDecisions : list string;
  description : option Description;
  argsSchema : option Json
}.

(** An entry of [interruptOn]: a boolean or a config. *)
Inductive InterruptOn :=
| OnBool (b : bool)
| OnConfig (c : InterruptOnConfig).

(** The middleware options, and the [runtime.context] that overrides them:
    the own properties of [interruptOn], and the prefix. *)
Record Config := mkConfig {
  interruptOn : option (gmap string InterruptOn);
  descriptionPrefix : option string
}.

(** [interopParse(contextSchema, input)] is outside the sources at hand: it
    is a parameter. It may throw, and the hook provides for a falsy answer
    ([None]). The schema declares [interruptOn] as a record; the parser
    builds the record that it answers key by key and leaves out the key
    [__proto__], so that [interruptOn] never has an own property of that
    name. *)
Class Parser := {
  interopParse : Config -> Res (option Config);
  interopParse_own_keys :
    forall input config on,
      interopParse input = Ok (Some config) ->
      interruptOn config = Some on ->
      on !! "__proto__" = None
}.

Record EditedAction := mkEditedAction {
  ea_name : option Json;
  ea_args : option Json
}.

(** A decision as it arrives in the resume payload: [editedAction] is [None]
    when it is falsy, [message] is [None] when it is undefined. *)
Record Decision := mkDecision {
  d_type : string;
  d_editedAction : option EditedAction;
  d_message : option Json
}.

(** The [decisions] field of the resume payload: an array, or anything else
    ([None] is undefined). *)
Inductive DecisionsField :=
| DecisionsArray (ds : list Decision)
| DecisionsOther (v : option Json).

Record HITLResponse := mkHITLResponse {
  decisions : DecisionsField
}.

Record AgentState := mkAgentState {
  messages : list BaseMessage
}.

Record HookResult := mkHookResult {
  hr_messages : list BaseMessage;
  hr_jumpTo : option string
}.

(** What [resolvedConfigs[name]] evaluates to: the config stored under the
    name, or a member that the object inherits from [Object.prototype] (a
    function, or the prototype itself for [__proto__]), which has none of
    the properties of a config. *)
Inductive Resolved :=
| OwnConfig (c : InterruptOnConfig)
| Inherited.

Definition resolved_description (config : Resolved) : option Description :=
  match config with
  | OwnConfig c => description c
  | Inherited => None
  end.

Definition resolved_allowedDecisions (config : Resolved) : option (list string) :=
  match config with
  | OwnConfig c => Some (allowedDecisions c)
  | Inherited => None
  end.

Definition resolved_argsSchema (config : Resolved) : option Json :=
  match config with
  | OwnConfig c => argsSchema c
  | Inherited => None
  end.

Section WithStringify.
Context `{Stringify}.

Definition opt_field (k : string) (v : option Json) : list (string * Json) :=
  match v with
  | Some j => [(k, j)]
  | None => []
  end.

Definition editedAction_json (ea : EditedAction) : Json :=
  JObj (opt_field "name" (ea_name ea) ++ opt_field "args" (ea_args ea)).

Definition decision_json (d : Decision) : Json :=
  JObj ([("type", JStr (d_type d))]
        ++ opt_field "editedAction" (editedAction_json <$> d_editedAction d)
        ++ opt_field "message" (d_message d)).

(** [createActionAndConfig]. It throws what the description factory
    throws. *)
Definition createActionAndConfig
    (options : Config) (toolCall : ToolCall) (config : Resolved)
    (state : AgentState) : Res (ActionRequest * ReviewConfig) :=
  let toolName := tc_name toolCall in
  let toolArgs := tc_args toolCall in
  description <-
    match resolved_description config with
    | Some (DescriptionFactory f) =>
        match f toolCall (messages state) with
        | inr text => Ok text
        | inl e => Throw (thrown e)
        end
    | Some (DescriptionText s) => Ok s
    | None =>
        Ok (default "Tool execution requires approval" (descriptionPrefix options)
            +:+ newline +:+ newline +:+ "Tool: " +:+ toolName +:+ newline
            +:+ "Args: " +:+ JSON_stringify_indent toolArgs)
    end ;;
  Ok (mkActionRequest toolName toolArgs (Some description),
      mkReviewConfig toolName (resolved_allowedDecisions config)
        (match resolved_argsSchema config with
         | Some schema => if truthy schema then Some schema else None
         | None => None
         end)).

Definition invalid_edit (toolCall : ToolCall) (what : string) : Thrown :=
  Error ("Invalid edited action for tool " +:+ dquote +:+ tc_name toolCall +:+ dquote
         +:+ ": " +:+ what).

Definition undefined_includes : Thrown :=
  TypeError "Cannot read properties of undefined (reading 'includes')".

(** [decision.type === type && allowedDecisions.includes(type)]: the array is
    read only when the type matches, and reading [includes] of undefined
    throws. *)
Definition decides (decision : Decision) (allowed : option (list string)) (type : string)
    : Res bool :=
  if String.eqb (d_type decision) type then
    match allowed with
    | Some allowedDecisions => Ok (includes type allowedDecisions)
    | None => Throw undefined_includes
    end
  else Ok false.

Definition processDecision
    (decision : Decision) (toolCall : ToolCall) (config : Resolved)
    : Res (option ToolCall * option ToolMessage) :=
  let allowed := resolved_allowedDecisions config in
  approve <- decides decision allowed "approve" ;;
  if approve then Ok (Some toolCall, None)
  else
  edit <- decides decision allowed "edit" ;;
  if edit then
    match d_editedAction decision with
    | Some {| ea_name := Some (JStr name); ea_args := args |} =>
        match args with
        | Some a =>
            if truthy a && is_object a then
              Ok (Some {| tc_type := Some "tool_call"; tc_name := name;
                          tc_args := a; tc_id := tc_id toolCall |}, None)
            else Throw (invalid_edit toolCall "args must be an object")
        | None => Throw (invalid_edit toolCall "args must be an object")
        end
    | _ => Throw (invalid_edit toolCall "name must be a string")
    end
  else
  reject <- decides decision allowed "reject" ;;
  if reject then
    match d_message decision with
    | Some (JStr message) =>
        Ok (Some toolCall,
            Some {| tm_content := JStr message; tm_name := Some (tc_name toolCall);
                    tm_tool_call_id := tc_id toolCall; tm_status := Some "error";
                    tm_artifact := None |})
    | Some other =>
        Throw (Error ("Tool call response for " +:+ dquote +:+ tc_name toolCall +:+ dquote
                      +:+ " must be a string, got " +:+ typeof other))
    | None =>
        let content :=
          "User rejected the tool call for `" +:+ tc_name toolCall
          +:+ "` with id " +:+ render (tc_id toolCall) in
        Ok (Some toolCall,
            Some {| tm_content := JStr content; tm_name := Some (tc_name toolCall);
                    tm_tool_call_id := tc_id toolCall; tm_status := Some "error";
                    tm_artifact := None |})
    end
  else
    Throw (Error ("Unexpected human decision: " +:+ JSON_stringify (decision_json decision)
                  +:+ ". Decision type '" +:+ d_type decision
                  +:+ "' is not allowed for tool '" +:+ tc_name toolCall
                  +:+ "'. Expected one of "
                  +:+ render ((fun a => JSON_stringify (JArr (JStr <$> a))) <$> allowed)
                  +:+ " based on the tool's configuration.")).

(** Boolean [true] allows every decision, [false] auto-approves, and a config
    object is kept (its [allowedDecisions] array is always truthy). *)
Definition resolveConfig (toolConfig : InterruptOn) : option InterruptOnConfig :=
  match toolConfig with
  | OnBool true => Some (mkInterruptOnConfig ALLOWED_DECISIONS None None)
  | OnBool false => None
  | OnConfig c => Some c
  end.

(** The own properties of [resolvedConfigs] after the loop over the entries
    of [interruptOn] (none of which is named [__proto__]). *)
Definition resolveConfigs (on : gmap string InterruptOn) : gmap string InterruptOnConfig :=
  omap resolveConfig on.

(** [resolvedConfigs[name]] on the plain object: an own property, else a
    member of [Object.prototype], else undefined. *)
Definition lookupConfig (resolved : gmap string InterruptOnConfig) (name : string)
    : option Resolved :=
  match resolved !! name with
  | Some c => Some (OwnConfig c)
  | None => if includes name prototype_names then Some Inherited else None
  end.

(** [toolCall.name in resolvedConfigs]: the [in] operator finds own and
    inherited properties. *)
Definition needsReview (resolved : gmap string InterruptOnConfig) (toolCall : ToolCall) : bool :=
  bool_decide (is_Some (resolved !! tc_name toolCall))
  || includes (tc_name toolCall) prototype_names.

(** [[...messages].reverse().find(isAIMessage)]. *)
Definition lastAIMessage (msgs : list BaseMessage) : option AIMessage :=
  match List.find isAIMessage (rev msgs) with
  | Some (MsgAI m) => Some m
  | _ => None
  end.

Definition undefined_config : Thrown :=
  TypeError "Cannot read properties of undefined".

(** The loop that builds the action requests and review configs. *)
Fixpoint createRequests
    (options : Config) (resolved : gmap string InterruptOnConfig) (state : AgentState)
    (calls : list ToolCall) : Res (list ActionRequest * list ReviewConfig) :=
  match calls with
  | [] => Ok ([], [])
  | toolCall :: rest =>
      match lookupConfig resolved (tc_name toolCall) with
      | None => Throw undefined_config
      | Some interruptConfig =>
          created <- createActionAndConfig options toolCall interruptConfig state ;;
          r <- createRequests options resolved state rest ;;
          Ok (created.1 :: r.1, created.2 :: r.2)
      end
  end.

(** The loop over [decisions[i]] and [interruptToolCalls[i]], with the two
    arrays it pushes to. *)
Fixpoint processDecisions
    (hasRejectedToolCalls : bool) (resolved : gmap string InterruptOnConfig)
    (pairs : list (Decision * ToolCall))
    (revisedToolCalls : list ToolCall) (artificialToolMessages : list ToolMessage)
    : Res (list ToolCall * list ToolMessage) :=
  match pairs with
  | [] => Ok (revisedToolCalls, artificialToolMessages)
  | (decision, toolCall) :: rest =>
      match lookupConfig resolved (tc_name toolCall) with
      | None => Throw undefined_config
      | Some interruptConfig =>
          r <- processDecision decision toolCall interruptConfig ;;
          let revised :=
            match r.1 with
            | Some revisedToolCall =>
                if negb hasRejectedToolCalls || String.eqb (d_type decision) "reject"
                then revisedToolCalls ++ [revisedToolCall]
                else revisedToolCalls
            | None => revisedToolCalls
            end in
          let artificial :=
            match r.2 with
            | Some toolMessage => artificialToolMessages ++ [toolMessage]
            | None => artificialToolMessages
            end in
          processDecisions hasRejectedToolCalls resolved rest revised artificial
      end
  end.

(** [{...options, ...(runtime.context || {})}]. *)
Definition mergeConfig (options : Config) (context : option Config) : Config :=
  match context with
  | None => options
  | Some c =>
      {| interruptOn := match interruptOn c with
                        | Some on => Some on
                        | None => interruptOn options
                        end;
         descriptionPrefix := match descriptionPrefix c with
                              | Some p => Some p
                              | None => descriptionPrefix options
                              end |}
  end.

Definition count_mismatch (nd nc : nat) : Thrown :=
  Error ("Number of human decisions (" +:+ pretty nd
         +:+ ") does not match number of hanging tool calls (" +:+ pretty nc +:+ ").").

Context {parser : Parser}.

(** The [afterModel] hook. [resume] is what [interrupt] returns when the run
    is resumed: the node then runs again from its start. The hook assigns
    [lastMessage.tool_calls] in place; the updated message is the first one
    of the returned [messages]. *)
Definition afterModel
    (options : Config) (context : option Config) (state : AgentState)
    (resume : option HITLResponse) : Res (option HookResult) :=
  config <- interopParse (mergeConfig options context) ;;
  match config with
  | None => Ok None
  | Some config =>
  match messages state with
  | [] => Ok None
  | _ =>
  match lastAIMessage (messages state) with
  | None => Ok None
  | Some lastMessage =>
  match ai_tool_calls lastMessage with
  | None | Some [] => Ok None
  | Some tool_calls =>
  match interruptOn config with
  | None => Ok None
  | Some on =>
      let resolvedConfigs := resolveConfigs on in
      let interruptToolCalls := List.filter (needsReview resolvedConfigs) tool_calls in
      let autoApprovedToolCalls :=
        List.filter (fun c => negb (needsReview resolvedConfigs c)) tool_calls in
      match interruptToolCalls with
      | [] => Ok None
      | _ =>
          reqs <- createRequests options resolvedConfigs state interruptToolCalls ;;
          let hitlRequest := mkHITLRequest reqs.1 reqs.2 in
          hitlResponse <- interrupt (InterruptHITL hitlRequest) resume ;;
          match decisions hitlResponse with
          | DecisionsOther _ =>
              Throw (Error "Invalid HITLResponse: decisions must be a non-empty array")
          | DecisionsArray ds =>
              if negb (length ds =? length interruptToolCalls)%nat then
                Throw (count_mismatch (length ds) (length interruptToolCalls))
              else
                let hasRejectedToolCalls :=
                  existsb (fun d => String.eqb (d_type d) "reject") ds in
                r <- processDecisions hasRejectedToolCalls resolvedConfigs
                       (zip ds interruptToolCalls) autoApprovedToolCalls [] ;;
                let lastMessage' :=
                  {| ai_id := ai_id lastMessage; ai_content := ai_content lastMessage;
                     ai_tool_calls := Some r.1 |} in
                Ok (Some {| hr_messages := MsgAI lastMessage' :: (MsgTool <$> r.2);
                            hr_jumpTo := if hasRejectedToolCalls
                                         then Some "model" else None |})
          end
      end
  end end end end end.

End WithStringify.
End Hitl.

(** ** Tool node (tool_node.ts) *)

Module ToolNode.

(** Modelled from the spec: the event names of [ChatMessageEventTypeEnum],
    whose declaration is not part of the sources at hand (section 4.I lists
    the events the core emits). *)
Inductive ChatMessageEventTypeEnum :=
| ON_TOOL_START
| ON_TOOL_END
| ON_TOOL_ERROR
| ON_INTERRUPT
| ON_CLIENT_EFFECT.

(** [channelName] of contracts/src/agent/graph.ts. *)
Definition channelName (name : string) : string := toLowerCase name +:+ "_channel".

(** Values written to state channels by a node. *)
Inductive StateValue :=
| SVUndefined
| SVJson (v : Json)
| SVMessages (ms : list BaseMessage)
| SVAgentChannel (messages : StateValue).

(** [Command.update]: an object, or an array of [key, value] entries (a
    [None] key is [null]). *)
Inductive CommandUpdate :=
| UpdateObject (fields : gmap string StateValue)
| UpdateEntries (entries : list (option string * StateValue)).

Record Command := mkCommand {
  update : option CommandUpdate;
  goto : option string
}.

(** What a tool, or a [wrapToolCall] hook, can hand back. *)
Inductive ToolOutput :=
| OutToolMessage (m : ToolMessage)
| OutCommand (c : Command)
| OutRaw (v : Json).

(** The part of the runnable config that the node fills in for the tool. *)
Record InvokeConfig := mkInvokeConfig {
  metadata_toolName : option string;
  configurable_tool_call_id : option string
}.

Record Tool := mkTool {
  name : string;
  invoke : ToolCall -> InvokeConfig -> Res ToolOutput
}.

Record ChannelValue := mkChannelValue {
  ch_messages : option (list BaseMessage)
}.

(** The input of [run]: an array of messages, or a state object. *)
Record GraphState := mkGraphState {
  st_channels : gmap string ChannelValue;
  st_messages : option (list BaseMessage);
  st_toolCall : option ToolCall
}.

Inductive Input :=
| InputArray (msgs : list BaseMessage)
| InputState (s : GraphState).

Record ToolCallRequest := mkToolCallRequest {
  toolCall : ToolCall;
  tool : Tool;
  state : GraphState
}.

Definition ToolCallHandler := ToolCallRequest -> Res ToolOutput.
Definition WrapToolCallHook := ToolCallRequest -> ToolCallHandler -> Res ToolOutput.

Record TVariableAssigner := mkVariableAssigner {
  inputType : string;
  value : Json;
  variableSelector : string
}.

Record Node := mkNode {
  tools : list Tool;
  handleToolErrors : bool;
  channel : option string;
  variables : option (list TVariableAssigner);
  toolName : option string;
  wrapToolCall : option WrapToolCallHook
}.

(** The constructor: [handleToolErrors] defaults to true and the channel is
    derived from the caller. *)
Definition new_Node (tools : list Tool) (handleToolErrors : option bool)
    (caller : option string) (variables : option (list TVariableAssigner))
    (toolName : option string) (wrapToolCall : option WrapToolCallHook) : Node :=
  {| tools := tools;
     handleToolErrors := default true handleToolErrors;
     channel := if truthy_str caller then channelName <$> caller else None;
     variables := variables;
     toolName := toolName;
     wrapToolCall := wrapToolCall |}.

Record Event := mkEvent {
  ev_name : ChatMessageEventTypeEnum;
  ev_toolCall : ToolCall;
  ev_error : option string
}.

(** [getErrorMessage] on the thrown values of this model. *)
Definition getErrorMessage (e : Thrown) : option string := thrown_message e.

(** A computed key [[this.channel]] of an object literal. *)
Definition channel_key (channel : option string) : string := default "null" channel.

Inductive NodeOutput :=
| NodeMessage (m : ToolMessage)
| NodeCommand (c : Command).

Definition isCommand (o : NodeOutput) : bool :=
  match o with NodeCommand _ => true | NodeMessage _ => false end.

Inductive RunItem :=
| ItemCommand (c : Command)
| ItemArray (ms : list ToolMessage)
| ItemState (fields : gmap string StateValue).

Inductive RunResult :=
| ResultArray (outputs : list ToolMessage)
| ResultState (fields : gmap string StateValue)
| ResultCombined (items : list RunItem).

Section WithStringify.
Context `{Stringify}.

(** [typeof output === "string" ? output : JSON.stringify(output)]. *)
Definition stringified (output : Json) : Json :=
  match output with
  | JStr s => JStr s
  | other => JStr (JSON_stringify other)
  end.

(** The messages the node reads: the input array, the caller's channel, or
    [input.messages]. *)
Definition input_messages (node : Node) (input : Input) : option (list BaseMessage) :=
  match input with
  | InputArray msgs => Some msgs
  | InputState s =>
      match channel node with
      | Some ch => if truthy_str (Some ch)
                   then st_channels s !! ch ≫= ch_messages
                   else st_messages s
      | None => st_messages s
      end
  end.

Definition input_toolCall (input : Input) : option ToolCall :=
  match input with
  | InputArray _ => None
  | InputState s => st_toolCall s
  end.

Definition request_state (input : Input) (messages : list BaseMessage) : GraphState :=
  match input with
  | InputArray _ => mkGraphState ∅ (Some messages) None
  | InputState s => s
  end.

Definition defaultHandler (node : Node) (t : Tool) : ToolCallHandler :=
  fun request =>
    output <- invoke t
                {| tc_id := tc_id (toolCall request); tc_name := tc_name (toolCall request);
                   tc_args := tc_args (toolCall request); tc_type := Some "tool_call" |}
                {| metadata_toolName := toolName node;
                   configurable_tool_call_id := tc_id (toolCall request) |} ;;
    match output with
    | OutToolMessage m => Ok (OutToolMessage m)
    | OutCommand c => Ok (OutCommand c)
    | OutRaw v =>
        Ok (OutToolMessage
              {| tm_name := Some (name t); tm_content := stringified v;
                 tm_tool_call_id := tc_id (toolCall request);
                 tm_status := None; tm_artifact := None |})
    end.

(** The reducer over [this.variables]: the own properties of the object it
    builds, which are what the spread of the update copies. *)
Definition assignVariables (vars : list TVariableAssigner) (output : ToolMessage)
    : gmap string StateValue :=
  fold_left
    (fun acc curr =>
       if String.eqb (inputType curr) "variable" then
         match value curr with
         | JStr "artifact" =>
             js_set (variableSelector curr)
                    (from_option SVJson SVUndefined (tm_artifact output)) acc
         | _ => js_set (variableSelector curr) (SVJson (tm_content output)) acc
         end
       else if String.eqb (inputType curr) "constant" then
         js_set (variableSelector curr) (SVJson (value curr)) acc
       else acc)
    vars ∅.

(** Messages of a command are moved into the agent channel. *)
Definition migrate (node : Node) (c : Command) : Res Command :=
  match update c with
  | Some (UpdateEntries entries) =>
      Ok {| update :=
              Some (UpdateEntries
                ((fun e : option string * StateValue =>
                    match e.1 with
                    | Some "messages" => (channel node, SVAgentChannel e.2)
                    | _ => e
                    end) <$> entries));
            goto := goto c |}
  | Some (UpdateObject fields) =>
      Ok {| update :=
              Some (UpdateObject
                (<[channel_key (channel node) :=
                     SVAgentChannel (default SVUndefined (fields !! "messages"))]> fields));
            goto := goto c |}
  | None => Throw (TypeError "Cannot read properties of undefined (reading 'messages')")
  end.

(** The body of the [try] block for one tool call. *)
Definition tryCall (node : Node) (input : Input) (messages : list BaseMessage)
    (call : ToolCall) : Res NodeOutput :=
  match List.find (fun t => String.eqb (name t) (tc_name call)) (tools node) with
  | None =>
      Throw (Error ("Tool " +:+ dquote +:+ tc_name call +:+ dquote +:+ " not found."))
  | Some t =>
      let toolRequest :=
        {| toolCall := call; tool := t; state := request_state input messages |} in
      output <- match wrapToolCall node with
                | Some wrap => wrap toolRequest (defaultHandler node t)
                | None => defaultHandler node t toolRequest
                end ;;
      match output with
      | OutToolMessage m =>
          let m' :=
            if truthy (tm_content m) && negb (String.eqb (typeof (tm_content m)) "string")
            then {| tm_content := JStr (JSON_stringify (tm_content m)); tm_name := tm_name m;
                    tm_tool_call_id := tm_tool_call_id m; tm_status := tm_status m;
                    tm_artifact := tm_artifact m |}
            else m in
          match variables node with
          | Some vars =>
              Ok (NodeCommand
                    {| update :=
                         Some (UpdateObject
                           (<["messages" := SVMessages [MsgTool m']]>
                              (<[channel_key (channel node) :=
                                   SVAgentChannel (SVMessages [MsgTool m'])]>
                                 (assignVariables vars m'))));
                       goto := None |})
          | None => Ok (NodeMessage m')
          end
      | OutCommand c => c' <- migrate node c ;; Ok (NodeCommand c')
      | OutRaw v =>
          Ok (NodeMessage
                {| tm_name := Some (name t); tm_content := stringified v;
                   tm_tool_call_id := tc_id call; tm_status := None;
                   tm_artifact := None |})
      end
  end.

(** The tool message of the error path. *)
Definition errorToolMessage (call : ToolCall) (e : Thrown) : ToolMessage :=
  {| tm_content := JStr ("Error: " +:+ render (thrown_message e) +:+ newline
                         +:+ " Please fix your mistakes.");
     tm_name := Some (tc_name call);
     tm_tool_call_id := Some (default EmptyString (tc_id call));
     tm_status := None;
     tm_artifact := None |}.

(** One tool call with its [catch] block: the events it dispatches and how
    its promise settles. *)
Definition runCall (node : Node) (input : Input) (messages : list BaseMessage)
    (call : ToolCall) : list Event * Res NodeOutput :=
  match tryCall node input messages call with
  | Ok o => ([], Ok o)
  | Throw e =>
      if negb (handleToolErrors node) then ([], Throw e)
      else if isGraphInterrupt e then ([], Throw e)
      else
        let toolMessage := errorToolMessage call e in
        ([mkEvent ON_TOOL_ERROR call (getErrorMessage e)],
         Ok (NodeCommand
               {| update :=
                    Some (UpdateObject
                      (<[channel_key (channel node) :=
                           SVAgentChannel (SVMessages [MsgTool toolMessage])]>
                         {["messages" := SVMessages [MsgTool toolMessage]]}));
                  goto := None |}))
  end.

(** The items of [xs] at the positions that [order] lists, in that order. *)
Definition inOrder {A} (order : list nat) (xs : list A) : list A :=
  omap (fun i => xs !! i) order.

(** The values of promises that all resolve, or the first rejection of the
    list. *)
Fixpoint collect {A} (settled : list (Res A)) : Res (list A) :=
  match settled with
  | [] => Ok []
  | Throw e :: _ => Throw e
  | Ok a :: rest => rest' <- collect rest ;; Ok (a :: rest')
  end.

(** [Promise.all] over the calls. The calls run concurrently: [order] lists
    their positions in the order in which they settle (a permutation of the
    positions 0 .. n-1). Every call runs to its end and dispatches its
    events, whatever becomes of the others, so the events come in the order
    of settling. The whole rejects with the first rejection to happen; when
    no call rejects it resolves with the outputs in the order of the calls. *)
Definition runAll (node : Node) (input : Input) (messages : list BaseMessage)
    (order : list nat) (calls : list ToolCall) : list Event * Res (list NodeOutput) :=
  let settled := runCall node input messages <$> calls in
  (concat (fst <$> inOrder order settled),
   match collect (snd <$> inOrder order settled) with
   | Throw e => Throw e
   | Ok _ => collect (snd <$> settled)
   end).

Definition stateUpdate (node : Node) (outputs : list ToolMessage) : gmap string StateValue :=
  <[channel_key (channel node) := SVAgentChannel (SVMessages (MsgTool <$> outputs))]>
    {["messages" := SVMessages (MsgTool <$> outputs)]}.

Definition messagesOf (outputs : list NodeOutput) : list ToolMessage :=
  omap (fun o => match o with NodeMessage m => Some m | NodeCommand _ => None end) outputs.

Definition isArrayInput (input : Input) : bool :=
  match input with InputArray _ => true | InputState _ => false end.

Definition not_ai_message : Thrown := Error "ToolNode only accepts AIMessages as input.".

(** [ToolNode.run]; [order] is the order in which the calls settle. *)
Definition run (node : Node) (input : Input) (order : list nat)
    : list Event * Res RunResult :=
  let messages := input_messages node input in
  let message := messages ≫= last in
  match message with
  | Some (MsgAI ai) =>
      let tool_calls :=
        match input_toolCall input with
        | Some c => Some [c]
        | None => ai_tool_calls ai
        end in
      let '(events, outputs) :=
        runAll node input (default [] messages) order (default [] tool_calls) in
      (events,
       outputs <- outputs ;;
       if negb (existsb isCommand outputs) then
         Ok (if isArrayInput input then ResultArray (messagesOf outputs)
             else ResultState (stateUpdate node (messagesOf outputs)))
       else
         Ok (ResultCombined
               ((fun o => match o with
                          | NodeCommand c => ItemCommand c
                          | NodeMessage m =>
                              if isArrayInput input then ItemArray [m]
                              else ItemState (stateUpdate node [m])
                          end) <$> outputs)))
  | _ => ([], Throw not_ai_message)
  end.

End WithStringify.
End ToolNode.

(** ** Client tool middleware *)

Module ClientTool.
Import ToolNode.

Record ClientToolDef := mkClientToolDef {
  ct_name : string;
  ct_description : option string;
  ct_schema : option string
}.

(** The middleware options; the context schema defaults [clientTools] to []. *)
Record Options := mkOptions {
  clientTools : option (list ClientToolDef)
}.

(** [ClientToolMessageInput]: a message as the client sends it. [None] is
    undefined or null. *)
Record ClientToolMessageInput := mkClientToolMessageInput {
  tool_call_id : option string;
  msg_name : option string;
  content : option Json;
  status : option string;
  artifact : option Json
}.

(** An item of [toolMessages]: a plain object or a [ToolMessage] instance. *)
Inductive ClientMessage :=
| PlainMessage (m : ClientToolMessageInput)
| InstanceMessage (m : ToolMessage).

(** The [toolMessages] field of the resume payload: an array (whose items
    may be null), or anything else. *)
Inductive ToolMessagesField :=
| MessagesArray (items : list (option ClientMessage))
| MessagesOther (v : option Json).

Record ClientToolResponse := mkClientToolResponse {
  toolMessages : ToolMessagesField
}.

Definition message_tool_call_id (m : ClientMessage) : option string :=
  match m with
  | PlainMessage p => tool_call_id p
  | InstanceMessage t => tm_tool_call_id t
  end.

Section WithStringify.
Context `{Stringify}.

Definition missing_id (toolCall : ToolCall) : Thrown :=
  Error ("Missing tool_call_id for client tool " +:+ dquote +:+ tc_name toolCall +:+ dquote
         +:+ ". Provide tool_call_id in the response or ensure the tool call has an id.").

Definition toToolMessage (message : ClientMessage) (toolCall : ToolCall) : Res ToolMessage :=
  match message with
  | InstanceMessage m => Ok m
  | PlainMessage message =>
      let toolCallId :=
        match tool_call_id message with
        | Some i => Some i
        | None => tc_id toolCall
        end in
      if negb (truthy_str toolCallId) then Throw (missing_id toolCall)
      else
        let content :=
          match content message with
          | Some (JStr s) => s
          | None | Some JNull => EmptyString
          | Some other => JSON_stringify other
          end in
        Ok {| tm_content := JStr content;
              tm_name := Some (default (tc_name toolCall) (msg_name message));
              tm_tool_call_id := toolCallId;
              tm_status := status message;
              tm_artifact := artifact message |}
  end.

Definition invalid_response : Thrown :=
  Error "Invalid ClientToolResponse: toolMessages must be an array with exactly one item".

Definition id_mismatch (got expected : string) : Thrown :=
  Error ("Invalid ClientToolResponse: tool_call_id " +:+ dquote +:+ got +:+ dquote
         +:+ " does not match " +:+ dquote +:+ expected +:+ dquote +:+ ".").

Definition null_message : Thrown :=
  TypeError "Cannot read properties of undefined (reading 'tool_call_id')".

(** [wrapToolCall]. [resume] is what [interrupt] returns when the run is
    resumed. *)
Definition wrapToolCall (options : Options) (resume : option ClientToolResponse)
    : WrapToolCallHook :=
  fun request handler =>
    let config_clientTools := default [] (clientTools options) in
    match config_clientTools with
    | [] => handler request
    | _ =>
        let isClientTool :=
          existsb (fun clientTool => String.eqb (ct_name clientTool)
                                       (tc_name (toolCall request)))
                  config_clientTools in
        if negb isClientTool then handler request
        else
          let clientRequest := {| clientToolCalls := [toolCall request] |} in
          response <- interrupt (InterruptClientTool clientRequest) resume ;;
          match toolMessages response with
          | MessagesArray [message] =>
              let got := message ≫= message_tool_call_id in
              let expected := tc_id (toolCall request) in
              if truthy_str got && truthy_str expected
                 && negb (bool_decide (got = expected))
              then Throw (id_mismatch (render got) (render expected))
              else
                match message with
                | Some m => m' <- toToolMessage m (toolCall request) ;;
                            Ok (OutToolMessage m')
                | None => Throw null_message
                end
          | _ => Throw invalid_response
          end
    end.

End WithStringify.
End ClientTool.

(** ** LLM tool selector middleware *)

Module ToolSelector.

(** An entry of [request.tools]: a structured tool or a provider-specific
    dict. A field is [None] when the key is absent. *)
Record ToolEntry := mkToolEntry {
  t_name : option Json;
  t_description : option Json;
  t_body : Json
}.

(** The middleware options; [runtime.context] has the same shape. *)
Record Options := mkOptions {
  maxTools : option Z;
  alwaysInclude : option (list string);
  systemPrompt : option string
}.

Record ModelRequest := mkModelRequest {
  tools : option (list ToolEntry);
  messages : list BaseMessage;
  systemMessage : option string;
  runtime_context : option Options
}.

Record SelectionResponse := mkSelectionResponse {
  response_tools : list string
}.

Record SelectionRequest := mkSelectionRequest {
  availableTools : list ToolEntry;
  sr_systemMessage : string;
  lastUserMessage : BaseMessage;
  validToolNames : list string
}.

Definition DEFAULT_SYSTEM_PROMPT : string :=
  "Your goal is to select the most relevant tools for answering the user's query.".

(** [tool.name] in a template or a list of names. *)
Definition name_of (tool : ToolEntry) : string :=
  match t_name tool with
  | Some (JStr s) => s
  | _ => "undefined"
  end.

(** [typeof tool.name === "string"] together with [names.includes(tool.name)]. *)
Definition name_in (names : list string) (tool : ToolEntry) : bool :=
  match t_name tool with
  | Some (JStr s) => includes s names
  | _ => false
  end.

Definition has_string_name (tool : ToolEntry) : bool :=
  match t_name tool with
  | Some (JStr _) => true
  | _ => false
  end.

(** The test for a [StructuredToolInterface] instance: "name" and
    "description" are keys of the tool and the name is a string. *)
Definition isStructuredTool (tool : ToolEntry) : bool :=
  has_string_name tool && bool_decide (is_Some (t_description tool)).

(** The names of a [Set], in insertion order. *)
Fixpoint distinct (names : list string) : list string :=
  match names with
  | [] => []
  | n :: rest => n :: List.filter (fun m => negb (String.eqb n m)) (distinct rest)
  end.

Fixpoint insert_sorted (n : string) (sorted : list string) : list string :=
  match sorted with
  | [] => [n]
  | m :: rest => if String.leb n m then n :: m :: rest else m :: insert_sorted n rest
  end.

(** [names.sort()]. *)
Definition sort (names : list string) : list string :=
  fold_right insert_sorted [] names.

Definition missing_always_include (missing available : list string) : Thrown :=
  Error ("Tools in alwaysInclude not found in request: " +:+ join ", " missing +:+ ". "
         +:+ "Available tools: " +:+ join ", " (sort (distinct available))).

Definition no_user_message : Thrown := Error "No user message found in request messages".

Definition first_some {A} (a b : option A) : option A :=
  match a with
  | Some x => Some x
  | None => b
  end.

Definition prepareSelectionRequest (request : ModelRequest) (options : Options)
    (context : option Options) : Res (option SelectionRequest) :=
  let maxTools := first_some (context ≫= maxTools) (maxTools options) in
  let alwaysInclude :=
    default [] (first_some (context ≫= alwaysInclude) (alwaysInclude options)) in
  let systemPrompt :=
    default DEFAULT_SYSTEM_PROMPT
            (first_some (context ≫= systemPrompt) (systemPrompt options)) in
  match tools request with
  | None | Some [] => Ok None
  | Some request_tools =>
      let baseTools := List.filter isStructuredTool request_tools in
      let availableToolNames := name_of <$> baseTools in
      let missingTools :=
        List.filter (fun n => negb (includes n availableToolNames)) alwaysInclude in
      match missingTools with
      | _ :: _ => Throw (missing_always_include missingTools availableToolNames)
      | [] =>
          let availableTools :=
            List.filter (fun tool => negb (name_in alwaysInclude tool)) baseTools in
          match availableTools with
          | [] => Ok None
          | _ =>
              let systemMessage :=
                match maxTools with
                | Some m =>
                    systemPrompt +:+ newline
                    +:+ "IMPORTANT: List the tool names in order of relevance, "
                    +:+ "with the most relevant first. "
                    +:+ "If you exceed the maximum number of tools, "
                    +:+ "only the first " +:+ pretty m +:+ " will be used."
                | None => systemPrompt
                end in
              match List.find isHumanMessage (rev (messages request)) with
              | None => Throw no_user_message
              | Some lastUserMessage =>
                  Ok (Some {| availableTools := availableTools;
                              sr_systemMessage := systemMessage;
                              lastUserMessage := lastUserMessage;
                              validToolNames := name_of <$> availableTools |})
              end
          end
      end
  end.

(** [selectedToolNames.length < maxTools], when there is a limit. *)
Definition within_limit (maxTools : option Z) (selected : list string) : bool :=
  match maxTools with
  | None => true
  | Some m => (Z.of_nat (length selected) <? m)%Z
  end.

(** The loop over [response.tools], with the two arrays it pushes to. *)
Fixpoint selectionLoop (validToolNames : list string) (maxTools : option Z)
    (names : list string) (selectedToolNames invalidToolSelections : list string)
    : list string * list string :=
  match names with
  | [] => (selectedToolNames, invalidToolSelections)
  | toolName :: rest =>
      if negb (includes toolName validToolNames) then
        selectionLoop validToolNames maxTools rest
          selectedToolNames (invalidToolSelections ++ [toolName])
      else if negb (includes toolName selectedToolNames)
              && within_limit maxTools selectedToolNames then
        selectionLoop validToolNames maxTools rest
          (selectedToolNames ++ [toolName]) invalidToolSelections
      else
        selectionLoop validToolNames maxTools rest
          selectedToolNames invalidToolSelections
  end.

Definition invalid_selection (invalid : list string) : Thrown :=
  Error ("Model selected invalid tools: " +:+ join ", " invalid).

Definition processSelectionResponse
    (response : SelectionResponse) (availableTools : list ToolEntry)
    (validToolNames : list string) (request : ModelRequest) (options : Options)
    : Res ModelRequest :=
  let maxTools := maxTools options in
  let alwaysInclude := default [] (alwaysInclude options) in
  let '(selectedToolNames, invalidToolSelections) :=
    selectionLoop validToolNames maxTools (response_tools response) [] [] in
  match invalidToolSelections with
  | _ :: _ => Throw (invalid_selection invalidToolSelections)
  | [] =>
      let selectedTools := List.filter (name_in selectedToolNames) availableTools in
      let alwaysIncludedTools :=
        List.filter (name_in alwaysInclude) (default [] (tools request)) in
      let providerTools :=
        List.filter (fun tool => negb (isStructuredTool tool))
                    (default [] (tools request)) in
      Ok {| tools := Some ((selectedTools ++ alwaysIncludedTools) ++ providerTools);
            messages := messages request;
            systemMessage := systemMessage request;
            runtime_context := runtime_context request |}
  end.

(** [wrapModelCall]. [selectionModel] stands for the structured-output call
    to the selection model, run through the command bus; it resolves with the
    response object or rejects. *)
Definition wrapModelCall {A}
    (options : Options) (selectionModel : SelectionRequest -> Res SelectionResponse)
    (request : ModelRequest) (handler : ModelRequest -> Res A) : Res A :=
  selectionRequest <- prepareSelectionRequest request options (runtime_context request) ;;
  match selectionRequest with
  | None => handler request
  | Some selectionRequest =>
      response <- selectionModel selectionRequest ;;
      request' <- processSelectionResponse response (availableTools selectionRequest)
                    (validToolNames selectionRequest) request options ;;
      handler request'
  end.

End ToolSelector.

(** ** The wrapModelCall chain of callModel (subgraph.handler.ts) *)

Module Subgraph.
Section Chain.
Context {Request Response : Type}.

Definition WrapModelCallHandler := Request -> Res Response.
Definition WrapModelCallHook := Request -> WrapModelCallHandler -> Res Response.

Record AgentMiddleware := mkAgentMiddleware {
  mw_name : string;
  wrapModelCall : option WrapModelCallHook
}.

(** [agentMiddlewares.reduceRight((next, middleware) => ..., defaultModelHandler)]:
    the array is walked from its last element to its first, and each step
    wraps the handler built so far. An entry may be undefined. *)
Definition wrappedModelHandler (agentMiddlewares : list (option AgentMiddleware))
    (defaultModelHandler : WrapModelCallHandler) : WrapModelCallHandler :=
  fold_right
    (fun middleware next =>
       match middleware ≫= wrapModelCall with
       | None => next
       | Some wrap => fun request => wrap request next
       end)
    defaultModelHandler agentMiddlewares.

(** The composition in the words of the specification: middleware N wraps
    middleware N-1, down to the core handler, so each later middleware wraps
    what the earlier ones built. *)
Definition spec_wrappedModelHandler (agentMiddlewares : list (option AgentMiddleware))
    (defaultModelHandler : WrapModelCallHandler) : WrapModelCallHandler :=
  fold_left
    (fun inner middleware =>
       match middleware ≫= wrapModelCall with
       | None => inner
       | Some wrap => fun request => wrap request inner
       end)
    agentMiddlewares defaultModelHandler.

End Chain.
Arguments AgentMiddleware : clear implicits.
Arguments WrapModelCallHook : clear implicits.
Arguments WrapModelCallHandler : clear implicits.
End Subgraph.

(** ** The run handler (invoke.handler.ts) *)

Module Invoke.

(** Modelled from the spec: the members of [XpertAgentExecutionStatusEnum],
    whose declaration is not part of the sources at hand (section 3 gives
    the status of a run as one of RUNNING, SUCCESS, ERROR, INTERRUPTED,
    ABORTED). *)
Inductive XpertAgentExecutionStatusEnum :=
| RUNNING
| SUCCESS
| ERROR
| INTERRUPTED
| ABORTED.

(** What the graph, a read or the handler rejects with: langgraph's two
    errors, an [Error] and a [TypeError]. *)
Inductive RunError :=
| GraphRecursionError (message : string)
| NodeInterrupt (message : string)
| PlainError (message : string)
| JsTypeError (message : string).

(** An awaited promise of the handler, once it has settled. *)
Inductive Settled (A : Type) :=
| Resolved (a : A)
| Rejected (err : RunError).
Arguments Resolved {A} a.
Arguments Rejected {A} err.

Inductive StreamEnd :=
| Completed
| Failed (err : RunError).

(** An observable that has run its course: what it emitted and how it ended. *)
Record Stream (A : Type) := mkStream {
  emitted : list A;
  ending : StreamEnd
}.
Arguments mkStream {A}.
Arguments emitted {A}.
Arguments ending {A}.

Record Configurable := mkConfigurable {
  thread_id : option string;
  checkpoint_ns : option string;
  checkpoint_id : option string
}.

(** [graph.getState(...)]. *)
Record StateSnapshot := mkStateSnapshot {
  config : option Configurable;
  parentConfig : option Configurable;
  values_title : option string;
  tasks : list string
}.

Record CheckpointRef := mkCheckpointRef {
  ref_checkpoint_ns : option string;
  ref_checkpoint_id : option string
}.

(** [checkpointSaver.getCopilotCheckpoint(...)]. *)
Record CheckpointTuple := mkCheckpointTuple {
  checkpoint : option CheckpointRef;
  pendingWrites : option (list CheckpointRef)
}.

(** The execution object that the handler updates in place. *)
Record Execution := mkExecution {
  id : string;
  checkpointNs : option string;
  checkpointId : option string;
  title : option string
}.

(** The payload of [XpertAgentExecutionUpsertCommand]. *)
Record ExecutionUpsert := mkExecutionUpsert {
  up_id : string;
  up_checkpointId : option string;
  up_status : XpertAgentExecutionStatusEnum;
  up_error : option string
}.

Record AgentConfig := mkAgentConfig {
  recursionLimit : option Z;
  maxConcurrency : option Z
}.

Definition first_some {A} (a b : option A) : option A :=
  match a with
  | Some x => Some x
  | None => b
  end.

(** The assignments of [recordLastState] once both reads have answered. *)
Definition recorded (state : StateSnapshot) (saved : CheckpointTuple)
    (execution : Execution) : Execution :=
  let ns := first_some (config state ≫= checkpoint_ns)
                       (checkpoint saved ≫= ref_checkpoint_ns) in
  let cid := first_some (config state ≫= checkpoint_id)
                        (checkpoint saved ≫= ref_checkpoint_id) in
  let '(ns, cid) :=
    match pendingWrites saved with
    | Some (w :: _) => (ref_checkpoint_ns w, ref_checkpoint_id w)
    | _ => (ns, cid)
    end in
  {| id := id execution;
     checkpointNs := ns;
     checkpointId := cid;
     title := if truthy_str (values_title state) then values_title state
              else title execution |}.

(** Destructuring an answer of the checkpoint saver that is undefined. *)
Definition undefined_checkpoint : RunError :=
  JsTypeError "Cannot destructure property 'checkpoint' of undefined.".

(** [recordLastState]: [getState] is how [graph.getState] settles, and
    [getCopilotCheckpoint] how the checkpoint saver settles for the config it
    is asked about ([None] is an undefined answer). A read that rejects
    rejects [recordLastState], and the execution is left as it was. *)
Definition recordLastState (getState : Settled StateSnapshot)
    (getCopilotCheckpoint : option Configurable -> Settled (option CheckpointTuple))
    (execution : Execution) : Execution * Settled StateSnapshot :=
  match getState with
  | Rejected err => (execution, Rejected err)
  | Resolved state =>
      match getCopilotCheckpoint (first_some (config state) (parentConfig state)) with
      | Rejected err => (execution, Rejected err)
      | Resolved None => (execution, Rejected undefined_checkpoint)
      | Resolved (Some saved) => (recorded state saved execution, Resolved state)
      end
  end.

Section Handler.
(** [AgentRecursionLimit] of @metad/copilot, [mapTranslationLanguage] of the
    contracts and the translation service are outside the sources at hand;
    the translation is awaited and may reject. *)
Variable AgentRecursionLimit : Z.
Variable mapTranslationLanguage : string -> string.
Variable i18n_t : string -> string -> Z -> Settled string.

Context {GraphEvent Content Operation : Type}.
(** [createMapStreamEvents(...)]: an event is mapped to a content, or to
    null, which the final [filter] drops. *)
Variable mapStreamEvents : GraphEvent -> option Content.

(** [team.agentConfig?.recursionLimit ?? AgentRecursionLimit]. *)
Definition effectiveRecursionLimit (agentConfig : option AgentConfig) : Z :=
  default AgentRecursionLimit (agentConfig ≫= recursionLimit).

(** [options.language || user.preferredLanguage || 'en-US']. *)
Definition languageCode (language preferredLanguage : option string) : string :=
  if truthy_str language then render language
  else if truthy_str preferredLanguage then render preferredLanguage
  else "en-US".

(** The handler given to [catchError]: the last state is recorded first;
    when that fails the stream ends with the error of the read. Otherwise a
    recursion error is replaced by its translation and any other error is
    thrown again. *)
Definition onStreamError (lang : string) (limit : Z)
    (getState : Settled StateSnapshot)
    (getCopilotCheckpoint : option Configurable -> Settled (option CheckpointTuple))
    (execution : Execution) (err : RunError) : Execution * RunError :=
  let '(execution', read) := recordLastState getState getCopilotCheckpoint execution in
  match read with
  | Rejected readError => (execution', readError)
  | Resolved _ =>
      match err with
      | GraphRecursionError _ =>
          match i18n_t "xpert.Error.RecursionLimitReached"
                       (mapTranslationLanguage lang) limit with
          | Resolved recursionLimitReached => (execution', PlainError recursionLimitReached)
          | Rejected translationError => (execution', translationError)
          end
      | other => (execution', other)
      end
  end.

(** [from(graph.streamEvents(...)).pipe(map(...), catchError(...))]. The
    graph is given the recursion limit and answers with its event stream. *)
Definition contentStream (lang : string) (limit : Z)
    (graph : Z -> Stream GraphEvent)
    (getState : Settled StateSnapshot)
    (getCopilotCheckpoint : option Configurable -> Settled (option CheckpointTuple))
    (execution : Execution)
    : Execution * Stream (option Content) :=
  let events := graph limit in
  match ending events with
  | Completed => (execution, mkStream (mapStreamEvents <$> emitted events) Completed)
  | Failed err =>
      let '(execution', err') :=
        onStreamError lang limit getState getCopilotCheckpoint execution err in
      (execution', mkStream (mapStreamEvents <$> emitted events) (Failed err'))
  end.

(** [filter((content) => !isNil(content))]. *)
Definition dropNil {A} (items : list (option A)) : list A := omap (fun x => x) items.

(** What a run leaves behind: the execution as updated, the operation sent
    to the subscriber with the ON_INTERRUPT event, if any, and the stream. *)
Record Outcome := mkOutcome {
  out_execution : Execution;
  out_interrupt : option Operation;
  out_stream : Stream Content
}.

(** The observable that [execute] returns, run to its end: the content
    stream, then the final step that records the last state and, when tasks
    are pending, asks for the operation to confirm ([completeToolCalls], the
    CompleteToolCallsQuery), sends it to the subscriber and raises a node
    interrupt; null contents are dropped. The reads are made once: in the
    error handler when the content stream fails, in the final step
    otherwise. *)
Definition execute (agentConfig : option AgentConfig)
    (language preferredLanguage : option string)
    (graph : Z -> Stream GraphEvent)
    (getState : Settled StateSnapshot)
    (getCopilotCheckpoint : option Configurable -> Settled (option CheckpointTuple))
    (completeToolCalls : StateSnapshot -> Settled Operation)
    (execution : Execution) : Outcome :=
  let lang := languageCode language preferredLanguage in
  let limit := effectiveRecursionLimit agentConfig in
  let '(execution', content) :=
    contentStream lang limit graph getState getCopilotCheckpoint execution in
  let contents := dropNil (emitted content) in
  match ending content with
  | Failed err => mkOutcome execution' None (mkStream contents (Failed err))
  | Completed =>
      let '(execution'', read) :=
        recordLastState getState getCopilotCheckpoint execution' in
      match read with
      | Rejected readError => mkOutcome execution'' None (mkStream contents (Failed readError))
      | Resolved state =>
          match tasks state with
          | _ :: _ =>
              match completeToolCalls state with
              | Rejected queryError =>
                  mkOutcome execution'' None (mkStream contents (Failed queryError))
              | Resolved operation =>
                  mkOutcome execution'' (Some operation)
                    (mkStream contents (Failed (NodeInterrupt "Confirm tool calls")))
              end
          | [] => mkOutcome execution'' None (mkStream contents Completed)
          end
      end
  end.

End Handler.

(** What the [unsubscribe] callback can see and change: the abort signal and
    the upsert commands sent so far. *)
Record Runner := mkRunner {
  aborted : bool;
  upserts : list ExecutionUpsert
}.

(** The [unsubscribe] callback of [tap]. Reading the state or the
    checkpoints may fail; the [catch] swallows the failure. *)
Definition unsubscribe (execution : Execution)
    (getState : Res StateSnapshot) (checkpoints : Res (list CheckpointRef))
    (runner : Runner) : Runner :=
  let aborted' := if negb (aborted runner) then true else aborted runner in
  match getState, checkpoints with
  | Ok state, Ok checkpoints =>
      {| aborted := aborted';
         upserts := upserts runner ++
           [{| up_id := id execution;
               up_checkpointId :=
                 first_some (config state ≫= checkpoint_id)
                            (head checkpoints ≫= ref_checkpoint_id);
               up_status := ERROR;
               up_error := Some "Aborted!" |}] |}
  | _, _ => {| aborted := aborted'; upserts := upserts runner |}
  end.

End Invoke.

(** ** The agent's navigator (subgraph.handler.ts, createAgentNavigator) *)

Module Navigator.
Import ToolNode.

(** [END] of @langchain/langgraph and the two graph nodes of contracts'
    agent/graph.ts. *)
Definition END : string := "__end__".
Definition GRAPH_NODE_SUMMARIZE_CONVERSATION : string := "summarize_conversation".
Definition GRAPH_NODE_TITLE_CONVERSATION : string := "title_conversation".

Record TSummarize := mkSummarize {
  enabled : option bool;
  maxMessages : option Z
}.

(** The state of the graph: what the tool nodes read of it, and the title. *)
Record State := mkState {
  graph : GraphState;
  title : option string
}.

(** What the navigator reads of an agent's channel. *)
Record SubState := mkSubState {
  sub_messages : option (list BaseMessage);
  sub_error : option Json
}.

Record Send := mkSend {
  send_node : string;
  send_state : State
}.

(** [nextNodes]: an array of node names, some of which can be empty, or a
    function of the state. *)
Inductive NextNodes :=
| NextArray (names : list string)
| NextFun (f : State -> string).

(** What a conditional edge returns: a node name, one [Send] or an array. *)
Inductive Route :=
| RouteNode (name : string)
| RouteSend (s : Send)
| RouteSends (sends : list Send).

(** [{ ...state, toolCall }]. *)
Definition withToolCall (state : State) (toolCall : ToolCall) : State :=
  {| graph := {| st_channels := st_channels (graph state);
                 st_messages := st_messages (graph state);
                 st_toolCall := Some toolCall |};
     title := title state |}.

Definition empty_name (agentChannel : string) : Thrown :=
  Error ("tool_call's name is empty in '" +:+ agentChannel +:+ "'.").

(** [tool_calls.map(...)] with its [throw]. *)
Fixpoint toolSends (agentChannel : string) (state : State) (calls : list ToolCall)
    : Res (list Send) :=
  match calls with
  | [] => Ok []
  | toolCall :: rest =>
      if negb (truthy_str (Some (tc_name toolCall))) then Throw (empty_name agentChannel)
      else
        sends <- toolSends agentChannel state rest ;;
        Ok (mkSend (tc_name toolCall) (withToolCall state toolCall) :: sends)
  end.

Definition truthy_opt (o : option Json) : bool := from_option truthy false o.

Section WithChannelState.
(** [getChannelState] is imported from the agent module, which is not among
    the sources: it is a parameter here. *)
Variable getChannelState : State -> string -> option SubState.

(** The [Send]s to the summarize or title node. *)
Definition summarySends (summarize : option TSummarize) (summarizeTitle : bool)
    (messages : list BaseMessage) (state : State) : list Send :=
  if from_option (fun s => from_option (fun b : bool => b) false (enabled s)
                           && from_option (fun m => (m <? Z.of_nat (length messages))%Z)
                                          false (maxMessages s))
                 false summarize
  then [mkSend GRAPH_NODE_SUMMARIZE_CONVERSATION state]
  else if negb (truthy_str (title state)) && summarizeTitle
       then [mkSend GRAPH_NODE_TITLE_CONVERSATION state]
       else [].

Definition createAgentNavigator (agentChannel : string) (summarize : option TSummarize)
    (summarizeTitle : bool) (nextNodes : option NextNodes) (fail exitNode : option string)
    (state : State) : Res Route :=
  let subState := getChannelState state agentChannel in
  let messages := default [] (subState ≫= sub_messages) in
  let error := truthy_opt (subState ≫= sub_error) in
  match last messages with
  | Some (MsgAI lastMessage) =>
      if match ai_tool_calls lastMessage with
         | None => true
         | Some calls => (length calls =? 0)%nat
         end
      then
        if truthy_str exitNode then Ok (RouteNode (default EmptyString exitNode))
        else
          let nexts := summarySends summarize summarizeTitle messages state in
          let nexts :=
            match nextNodes with
            | Some next =>
                if negb error then
                  match next with
                  | NextArray names =>
                      nexts ++ ((fun name => mkSend name state)
                                  <$> filter (fun name => truthy_str (Some name) = true)
                                             names)
                  | NextFun f => nexts ++ [mkSend (f state) state]
                  end
                else nexts
            | None => nexts
            end in
          if negb (length nexts =? 0)%nat then
            Ok (RouteSends
                  (if error && truthy_str fail
                   then nexts ++ [mkSend (default EmptyString fail) state]
                   else nexts))
          else if error && truthy_str fail then Ok (RouteNode (default EmptyString fail))
          else Ok (RouteNode END)
      else
        sends <- toolSends agentChannel state (default [] (ai_tool_calls lastMessage)) ;;
        Ok (RouteSends sends)
  | _ =>
      if truthy_str exitNode then Ok (RouteNode (default EmptyString exitNode))
      else
        match nextNodes with
        | Some (NextArray names) =>
            if negb (length names =? 0)%nat
            then Ok (RouteSends ((fun name => mkSend name state) <$> names))
            else Ok (RouteNode END)
        | Some (NextFun f) => Ok (RouteSend (mkSend (f state) state))
        | None => Ok (RouteNode END)
        end
  end.

End WithChannelState.
End Navigator.

(** ** The hooks of the middlewares and their nodes (subgraph.handler.ts) *)

Module Hooks.
Import ToolNode.

Section WithHook.
(** The hook functions themselves play no part in the wiring. *)
Context {Hook : Type}.

(** A hook field of a middleware: a function, or an object with a [hook]. *)
Inductive HookField :=
| HookFunction (h : Hook)
| HookObject (hook : option Hook).

Record Middleware := mkMiddleware {
  beforeAgent : option HookField;
  beforeModel : option HookField;
  afterModel : option HookField;
  afterAgent : option HookField;
  wrapToolCall : option WrapToolCallHook
}.

Definition hookOf (field : option HookField) : option Hook :=
  match field with
  | Some (HookFunction h) => Some h
  | Some (HookObject h) => h
  | None => None
  end.

(** The [reduce] over the middleware nodes: the node at [index] is paired
    with [agentMiddlewares[index]] when there is one. *)
Fixpoint middlewareWithKeys (index : nat) (middlewareNodes : list string)
    (agentMiddlewares : list (option Middleware)) : list (string * Middleware) :=
  match middlewareNodes with
  | [] => []
  | key :: rest =>
      match agentMiddlewares !! index with
      | Some (Some middleware) =>
          (key, middleware) :: middlewareWithKeys (S index) rest agentMiddlewares
      | _ => middlewareWithKeys (S index) rest agentMiddlewares
      end
  end.

(** [.map(...).filter(Boolean)] for one kind of hook. *)
Definition hooksOf (field : Middleware -> option HookField) (suffix : string)
    (withKeys : list (string * Middleware)) : list (string * Hook) :=
  omap (fun km : string * Middleware =>
          (fun hook => (km.1 +:+ suffix, hook)) <$> hookOf (field km.2))
       withKeys.

(** The base of the [reduceRight] of [wrapToolCall] hooks. *)
Definition baseToolCall : WrapToolCallHook := fun request handler => handler request.

Record ModelHooks := mkModelHooks {
  beforeAgentHooks : list (string * Hook);
  beforeModelHooks : list (string * Hook);
  afterModelHooks : list (string * Hook);
  afterModelExecutionOrder : list (string * Hook);
  afterAgentHooks : list (string * Hook);
  afterAgentExecutionOrder : list (string * Hook);
  hooks_wrapToolCall : option WrapToolCallHook
}.

(** [getModelHooks], given the middleware nodes in their configured order. *)
Definition getModelHooks (middlewareNodes : list string)
    (agentMiddlewares : list (option Middleware)) : ModelHooks :=
  let withKeys := middlewareWithKeys 0 middlewareNodes agentMiddlewares in
  let afterModelHooks := hooksOf afterModel "_after_model" withKeys in
  let afterAgentHooks := hooksOf afterAgent "_after_agent" withKeys in
  {| beforeAgentHooks := hooksOf beforeAgent "_before_agent" withKeys;
     beforeModelHooks := hooksOf beforeModel "_before_model" withKeys;
     afterModelHooks := afterModelHooks;
     afterModelExecutionOrder := rev afterModelHooks;
     afterAgentHooks := afterAgentHooks;
     afterAgentExecutionOrder := rev afterAgentHooks;
     hooks_wrapToolCall :=
       if existsb (fun middleware => bool_decide (is_Some (middleware ≫= wrapToolCall)))
                  agentMiddlewares
       then Some (fold_right
                    (fun middleware next =>
                       match middleware ≫= wrapToolCall with
                       | None => next
                       | Some wrap =>
                           fun request handler =>
                             wrap request (fun nextRequest => next nextRequest handler)
                       end)
                    baseToolCall agentMiddlewares)
       else None |}.

(** The entry and decision nodes of the agent. *)
Definition agentLoopEntryNode (agentKey : string) (hooks : ModelHooks) : string :=
  default agentKey (fst <$> beforeModelHooks hooks !! 0).

Definition agentStartNode (agentKey : string) (hooks : ModelHooks) : string :=
  default (agentLoopEntryNode agentKey hooks) (fst <$> beforeAgentHooks hooks !! 0).

Definition agentDecisionNode (agentKey : string) (hooks : ModelHooks) : string :=
  default agentKey
          (fst <$> afterModelExecutionOrder hooks
                     !! (length (afterModelExecutionOrder hooks) - 1)).

(** [for (let i = 0; i < hooks.length - 1; i++) addEdge(hooks[i].key, hooks[i + 1].key)]. *)
Definition chainEdges (hooks : list (string * Hook)) : list (string * string) :=
  omap (fun i => a ← hooks !! i; b ← hooks !! (i + 1); Some (a.1, b.1))
       (seq 0 (length hooks - 1)).

(** The edge from the last hook of a list to [target]. *)
Definition lastEdge (hooks : list (string * Hook)) (target : string)
    : list (string * string) :=
  from_option (fun a => [(a.1, target)]) [] (hooks !! (length hooks - 1)).

(** The edges added between the hook nodes and the agent node, in the order
    of the [addEdge] calls. *)
Definition hookEdges (agentKey : string) (hooks : ModelHooks) : list (string * string) :=
  (if negb (length (beforeAgentHooks hooks) =? 0)%nat
   then chainEdges (beforeAgentHooks hooks)
        ++ lastEdge (beforeAgentHooks hooks) (agentLoopEntryNode agentKey hooks)
   else [])
  ++ (if negb (length (beforeModelHooks hooks) =? 0)%nat
      then chainEdges (beforeModelHooks hooks) ++ lastEdge (beforeModelHooks hooks) agentKey
      else [])
  ++ (if negb (length (afterModelExecutionOrder hooks) =? 0)%nat
      then from_option (fun a => [(agentKey, a.1)]) [] (afterModelExecutionOrder hooks !! 0)
           ++ chainEdges (afterModelExecutionOrder hooks)
      else []).

(** The entry and exit nodes of the afterAgent hooks, and the edges between
    these hooks. *)
Definition afterAgentEntryNode (hooks : ModelHooks) : option string :=
  fst <$> afterAgentExecutionOrder hooks !! 0.

Definition agentFinalExitNode (agentKey : string) (hooks : ModelHooks) : string :=
  default (agentDecisionNode agentKey hooks)
          (fst <$> afterAgentExecutionOrder hooks
                     !! (length (afterAgentExecutionOrder hooks) - 1)).

Definition afterAgentEdges (hooks : ModelHooks) : list (string * string) :=
  if negb (length (afterAgentExecutionOrder hooks) =? 0)%nat
  then chainEdges (afterAgentExecutionOrder hooks)
  else [].

End WithHook.
Arguments HookField : clear implicits.
Arguments Middleware : clear implicits.
Arguments ModelHooks : clear implicits.
End Hooks.

(** ** The mute list of the run handler (invoke.handler.ts) *)

Module InvokeMore.

Record GraphNode := mkGraphNode {
  node_type : string;
  node_key : string
}.

Record Team := mkTeam {
  team_id : string;
  agentConfig_mute : option (list (list string))
}.

(** [m.every((value) => um.includes(value))]. *)
Definition covers (m um : list string) : bool :=
  forallb (fun value => includes value um) m.

(** The [mute] and [unmutes] arrays of the handler, as they stand once the
    [forEach] loops are over. The [mute] array is shared with the compilation
    of the graph, which pushes the entries of the collaborators to it before
    the team's own are added: [collected] stands for these. *)
Definition muteList (collected : list (list string)) (team : Team) : list (list string) :=
  collected
  ++ match agentConfig_mute team with
     | Some mute => if negb (length mute =? 0)%nat then mute else []
     | None => []
     end.

Definition initialUnmutes (nodes : list GraphNode) (team : Team) : list (list string) :=
  (fun node => [node_key node; team_id team])
    <$> List.filter (fun n => String.eqb (node_type n) "agent") nodes.

Definition unmutes (collected : list (list string)) (nodes : list GraphNode) (team : Team)
    : list (list string) :=
  fold_left
    (fun unmutes m => List.filter (fun um => if covers m um then false else true) unmutes)
    (muteList collected team) (initialUnmutes nodes team).

End InvokeMore.

(** ** [updateToolCalls] of the invoke handler *)

Module ToolCallUpdate.

(** [TToolCall]: the arguments are a record. A field is [None] when it is
    undefined. *)
Record TToolCall := mkTToolCall {
  id : option string;
  name : string;
  type : option string;
  args : option (gmap string Json)
}.

(** What the handler reads of the last message of the channel. *)
Record Message := mkMessage {
  m_id : option string;
  m_content : Json;
  m_tool_calls : option (list TToolCall)
}.

Record NewMessage := mkNewMessage {
  role : string;
  content : Json;
  tool_calls : list TToolCall;
  new_id : option string
}.

(** [{ ...a, ...b }] on records: the keys of [b] win. *)
Definition spread (a b : option (gmap string Json)) : gmap string Json :=
  default ∅ b ∪ default ∅ a.

Definition undefined_read (what : string) : Thrown :=
  TypeError ("Cannot read properties of undefined (reading '" +:+ what +:+ "')").

(** [updateToolCalls]: the message written to the agent's channel, if any.
    [messages] is [state.values[channel].messages] and [toolCalls] is
    [command.toolCalls]. *)
Definition updateToolCalls (messages : option (list Message))
    (toolCalls : option (list TToolCall)) : Res (option NewMessage) :=
  match messages with
  | None => Throw (undefined_read "length")
  | Some messages =>
      match last messages with
      | None => Throw (undefined_read "id")
      | Some lastMessage =>
          if truthy_str (m_id lastMessage) then
            match m_tool_calls lastMessage with
            | None => Throw (undefined_read "map")
            | Some calls =>
                match calls, toolCalls with
                | _ :: _, None => Throw (undefined_read "find")
                | _, _ =>
                    Ok (Some
                          {| role := "assistant";
                             content := m_content lastMessage;
                             tool_calls :=
                               (fun toolCall =>
                                  let newToolCall :=
                                    List.find (fun call => bool_decide (id call = id toolCall))
                                              (default [] toolCalls) in
                                  {| id := id toolCall; name := name toolCall;
                                     type := type toolCall;
                                     args := Some (spread (args toolCall)
                                                          (newToolCall ≫= args)) |})
                                 <$> calls;
                             new_id := m_id lastMessage |})
                end
            end
          else Ok None
      end
  end.

End ToolCallUpdate.

(** ** Swarm partners (contracts/src/agent/graph.ts, getSwarmPartners) *)

Module Swarm.

Record Connection := mkConnection {
  c_type : string;
  c_from : string;
  c_to : string
}.

(** A connection of type "agent" from [source] to [target]. *)
Definition agentConnection (source target : string) (conn : Connection) : bool :=
  String.eqb (c_type conn) "agent" && String.eqb (c_to conn) target
  && String.eqb (c_from conn) source.

(** The filter on [graph.connections]: the agent connections that arrive at
    [agentKey], not from the leader, and that are answered by a connection in
    the other direction. *)
Definition partnerConnection (connections : list Connection) (agentKey : string)
    (leaderKey : option string) (conn : Connection) : bool :=
  String.eqb (c_type conn) "agent" && String.eqb (c_to conn) agentKey
  && (if truthy_str leaderKey then negb (bool_decide (Some (c_from conn) = leaderKey))
      else true)
  && existsb (agentConnection agentKey (c_from conn)) connections.

(** [getSwarmPartners]. The array [partners] is shared by all the recursive
    calls, which push to it: it is threaded through them. [fuel] bounds the
    depth of the recursion; [None] stands for a call that needs more. *)
Fixpoint getSwarmPartners (fuel : nat) (connections : list Connection) (agentKey : string)
    (partners : list string) (leaderKey : option string) : option (list string) :=
  match fuel with
  | 0 => None
  | S fuel =>
      fold_left
        (fun acc conn =>
           partners ← acc;
           let key := c_from conn in
           if negb (includes key partners)
           then getSwarmPartners fuel connections key (partners ++ [key]) None
           else Some partners)
        (List.filter (partnerConnection connections agentKey leaderKey) connections)
        (Some partners)
  end.

End Swarm.

(** ** The navigator after the afterAgent hooks (createAfterAgentNavigator) *)

Module NavigatorAfter.
Import ToolNode Navigator.

Section WithChannelState.
Variable getChannelState : State -> string -> option SubState.

Definition createAfterAgentNavigator (agentChannel : string) (summarize : option TSummarize)
    (summarizeTitle : bool) (nextNodes : option NextNodes) (fail : option string)
    (state : State) : Res Route :=
  let subState := getChannelState state agentChannel in
  let messages := default [] (subState ≫= sub_messages) in
  let error := truthy_opt (subState ≫= sub_error) in
  match last messages with
  | Some (MsgAI lastMessage) =>
      let nexts := summarySends summarize summarizeTitle messages state in
      let nexts :=
        match nextNodes with
        | Some next =>
            if negb error then
              match next with
              | NextArray names =>
                  nexts ++ ((fun name => mkSend name state)
                              <$> filter (fun name => truthy_str (Some name) = true)
                                         names)
              | NextFun f => nexts ++ [mkSend (f state) state]
              end
            else nexts
        | None => nexts
        end in
      if negb (length nexts =? 0)%nat then
        Ok (RouteSends
              (if error && truthy_str fail
               then nexts ++ [mkSend (default EmptyString fail) state]
               else nexts))
      else if error && truthy_str fail then Ok (RouteNode (default EmptyString fail))
      else Ok (RouteNode END)
  | _ =>
      match
        match nextNodes with
        | Some (NextArray names) =>
            if negb (length names =? 0)%nat
            then Some (RouteSends ((fun name => mkSend name state) <$> names))
            else None
        | Some (NextFun f) => Some (RouteSend (mkSend (f state) state))
        | None => None
        end
      with
      | Some route => Ok route
      | None =>
          if error && truthy_str fail then Ok (RouteNode (default EmptyString fail))
          else Ok (RouteNode END)
      end
  end.

End WithChannelState.
End NavigatorAfter.

(** ** Position files (getPositionList, getPositionMap) *)

Module Positions.

(** [array.reduce((acc, item, index) => ..., init)], from [index] on. *)
Fixpoint reduce_from {A B} (f : A -> B -> nat -> A) (index : nat) (items : list B) (acc : A)
    : A :=
  match items with
  | [] => acc
  | item :: rest => reduce_from f (S index) rest (f acc item index)
  end.

(** What [fs.readFileSync] and [yaml.parse] make of the file: the read
    throws, the parser throws (with the text that the template literal gives
    for its error), or the file holds a value. *)
Inductive FileContent :=
| Unreadable (e : Thrown)
| Unparsable (e : string)
| Parsed (yamlContent : Json).

(** [loadYamlFile]. *)
Definition loadYamlFile (filePath : string) (file : FileContent) (ignoreError : bool)
    (defaultValue : Json) : Res Json :=
  match file with
  | Parsed yamlContent => Ok (if truthy yamlContent then yamlContent else defaultValue)
  | Unparsable e =>
      if ignoreError then Ok defaultValue
      else Throw (Error ("Failed to load YAML file " +:+ filePath +:+ ": " +:+ e))
  | Unreadable e => if ignoreError then Ok defaultValue else Throw e
  end.

Definition not_a_function : Thrown := TypeError "yamlContent?.filter is not a function".

Section WithTrim.
(** [String.prototype.trim] is taken as given. *)
Variable trim : string -> string.

(** [getPositionList], for the file at [positionFilePath]. The optional call
    [yamlContent?.filter] gives undefined ([None]) on null and throws on any
    other value that is not an array. *)
Definition getPositionList (positionFilePath : string) (file : FileContent)
    : Res (option (list string)) :=
  yamlContent <- loadYamlFile positionFilePath file true (JArr []) ;;
  match yamlContent with
  | JArr items =>
      Ok (Some (omap (fun item => match item with
                                  | JStr s => if truthy item && truthy (JStr (trim s))
                                              then Some (trim s) else None
                                  | _ => None
                                  end) items))
  | JNull => Ok None
  | _ => Throw not_a_function
  end.

(** [getPositionMap]: the own properties of the object that [reduce] fills;
    reading [reduce] of undefined throws. *)
Definition getPositionMap (positionFilePath : string) (file : FileContent)
    : Res (gmap string nat) :=
  positions <- getPositionList positionFilePath file ;;
  match positions with
  | None => Throw (TypeError "Cannot read properties of undefined (reading 'reduce')")
  | Some positions =>
      Ok (reduce_from (fun acc name index => js_set name index acc) 0 positions ∅)
  end.

End WithTrim.
End Positions.

(** ** The node of an afterModel hook and the agent's channel (subgraph.handler.ts) *)

Module AfterModelNode.
Import Navigator.

(** What an afterModel hook returns: the update of the channel, of which
    the messages are kept here ([None] when the update has none), and the
    jumpTo directive. *)
Record HookUpdate := mkHookUpdate {
  upd_messages : option (list BaseMessage);
  upd_jumpTo : option string
}.

(** A hook, given the state of the agent's channel ([None] is undefined). *)
Definition AfterModelHandler := option SubState -> Res (option HookUpdate).

(** What the node returns under the key of the agent's channel, and what it
    leaves in [config.jumpTo]. *)
Record NodeResult := mkNodeResult {
  written : option SubState;
  config_jumpTo : option string
}.

(** [createAfterModelNode], for an agent without memories (the state is then
    returned as [writeAgentMemories] receives it). [channelState] is what
    [getChannelState] reads, [jumpTo] what [config.jumpTo] holds when the
    node starts. The directive of the hook is taken out of its update and
    assigned to [config.jumpTo]; it is no part of what the node returns. *)
Definition createAfterModelNode (hook : option AfterModelHandler) (failBranch : bool)
    (channelState : option SubState) (jumpTo : option string) : Res NodeResult :=
  if failBranch && truthy_opt (channelState ≫= sub_error) then
    Ok {| written := channelState; config_jumpTo := jumpTo |}
  else
    let nextState := default {| sub_messages := None; sub_error := None |} channelState in
    match hook with
    | None => Ok {| written := Some nextState; config_jumpTo := jumpTo |}
    | Some hook =>
        result <- hook channelState ;;
        match result with
        | None => Ok {| written := Some nextState; config_jumpTo := jumpTo |}
        | Some result =>
            Ok {| written :=
                    Some {| sub_messages := match upd_messages result with
                                            | Some messages => Some messages
                                            | None => sub_messages nextState
                                            end;
                            sub_error := sub_error nextState |};
                  config_jumpTo := if truthy_str (upd_jumpTo result)
                                   then upd_jumpTo result else jumpTo |}
        end
    end.

Section WithReducer.
(** [messagesStateReducer] of @langchain/langgraph is a parameter. *)
Variable messagesStateReducer : option (list BaseMessage) -> list BaseMessage
                                -> list BaseMessage.

(** The reducer of an agent's channel: [a] is the value of the channel,
    [b] what a node returns for it. *)
Definition channelReducer (a : SubState) (b : option SubState) : SubState :=
  match b with
  | None => a
  | Some b =>
      {| sub_messages := match sub_messages b with
                         | Some messages => Some (messagesStateReducer (sub_messages a) messages)
                         | None => sub_messages a
                         end;
         sub_error := match sub_error b with
                      | Some e => Some e
                      | None => sub_error a
                      end |}
  end.

End WithReducer.

(** The afterModel hook of the HITL middleware as a handler: it reads
    [messages] of the state after the options have been parsed. *)
Definition hitlHandler `{Stringify} `{Hitl.Parser} (options : Hitl.Config)
    (context : option Hitl.Config) (resume : option Hitl.HITLResponse)
    : AfterModelHandler :=
  fun channelState =>
    match channelState ≫= sub_messages with
    | Some messages =>
        result <- Hitl.afterModel options context (Hitl.mkAgentState messages) resume ;;
        Ok ((fun r => mkHookUpdate (Some (Hitl.hr_messages r)) (Hitl.hr_jumpTo r))
              <$> result)
    | None =>
        config <- Hitl.interopParse (Hitl.mergeConfig options context) ;;
        match config with
        | None => Ok None
        | Some _ => Throw (TypeError "Cannot read properties of undefined (reading 'length')")
        end
    end.

End AfterModelNode.

(** ** Notions used to state the properties of the HITL hook *)

Module HitlSpec.
Import Hitl.

Definition isReject (d : Decision) : bool := String.eqb (d_type d) "reject".

(** [interruptOn] matches a tool call when it holds an entry for the name of
    the call that is not [false]. *)
Definition reviewed (on : gmap string InterruptOn) (toolCall : ToolCall) : bool :=
  match on !! tc_name toolCall with
  | Some (OnBool false) | None => false
  | Some _ => true
  end.

(** The description factory of the call, when there is one, answers. *)
Definition describes (state : AgentState) (resolved : gmap string InterruptOnConfig)
    (toolCall : ToolCall) : bool :=
  match lookupConfig resolved (tc_name toolCall) ≫= resolved_description with
  | Some (DescriptionFactory f) =>
      match f toolCall (messages state) with
      | inr _ => true
      | inl _ => false
      end
  | _ => true
  end.

(** A decision that [processDecision] does not refuse: its type is one of
    the tool's allowed decisions, an edit carries a name that is a string and
    args that are an object, a rejection's message is a string when given. *)
Definition accepts (config : InterruptOnConfig) (d : Decision) : bool :=
  let allowed := allowedDecisions config in
  if String.eqb (d_type d) "approve" && includes "approve" allowed then true
  else if String.eqb (d_type d) "edit" && includes "edit" allowed then
    match d_editedAction d with
    | Some {| ea_name := Some (JStr _); ea_args := Some a |} => truthy a && is_object a
    | _ => false
    end
  else if String.eqb (d_type d) "reject" && includes "reject" allowed then
    match d_message d with
    | None | Some (JStr _) => true
    | Some _ => false
    end
  else false.

Definition accepted (resolved : gmap string InterruptOnConfig)
    (d : Decision) (toolCall : ToolCall) : Prop :=
  exists config, resolved !! tc_name toolCall = Some config /\ accepts config d = true.

(** The text sent back to the model for a rejected call. *)
Definition rejectionContent (d : Decision) (toolCall : ToolCall) : string :=
  match d_message d with
  | Some (JStr message) => message
  | _ => "User rejected the tool call for `" +:+ tc_name toolCall
         +:+ "` with id " +:+ render (tc_id toolCall)
  end.

Definition rejectionMessage (d : Decision) (toolCall : ToolCall) : ToolMessage :=
  {| tm_content := JStr (rejectionContent d toolCall);
     tm_name := Some (tc_name toolCall);
     tm_tool_call_id := tc_id toolCall;
     tm_status := Some "error";
     tm_artifact := None |}.

(** The call that an accepted decision leaves: the edited one for an edit,
    the original one otherwise. *)
Definition revisedCall (config : InterruptOnConfig) (d : Decision) (toolCall : ToolCall)
    : ToolCall :=
  if String.eqb (d_type d) "approve" && includes "approve" (allowedDecisions config)
  then toolCall
  else if String.eqb (d_type d) "edit" then
    match d_editedAction d with
    | Some {| ea_name := Some (JStr name); ea_args := Some a |} =>
        {| tc_type := Some "tool_call"; tc_name := name; tc_args := a;
           tc_id := tc_id toolCall |}
    | _ => toolCall
    end
  else toolCall.

(** The rejected pairs of decisions and calls, in order. *)
Definition rejectedPairs (ds : list Decision) (calls : list ToolCall)
    : list (Decision * ToolCall) :=
  List.filter (fun p => isReject p.1) (zip ds calls).

Definition rejectedToolCalls (ds : list Decision) (calls : list ToolCall) : list ToolCall :=
  snd <$> rejectedPairs ds calls.

Definition rejectionMessages (ds : list Decision) (calls : list ToolCall)
    : list ToolMessage :=
  (fun p => rejectionMessage p.1 p.2) <$> rejectedPairs ds calls.

Definition with_tool_calls (m : AIMessage) (calls : list ToolCall) : AIMessage :=
  {| ai_id := ai_id m; ai_content := ai_content m; ai_tool_calls := Some calls |}.

End HitlSpec.

(** ** Example data *)

Module Examples.

(** A printer that stands for [JSON.stringify] in the examples. *)
Definition example_stringify : Stringify :=
  {| JSON_stringify := fun _ => "<json>"; JSON_stringify_indent := fun _ => "<json>" |}.

(** A parser that stands for [interopParse] in the examples: it accepts
    every input, drops the key [__proto__] of [interruptOn] and fills in the
    default prefix. *)
Definition example_interopParse (input : Hitl.Config) : Res (option Hitl.Config) :=
  Ok (Some {| Hitl.interruptOn := delete "__proto__" <$> Hitl.interruptOn input;
              Hitl.descriptionPrefix :=
                Some (default "Tool execution requires approval"
                              (Hitl.descriptionPrefix input)) |}).

Definition example_parser : Hitl.Parser :=
  {| Hitl.interopParse := example_interopParse;
     Hitl.interopParse_own_keys :=
       fun input config on (Hparse : example_interopParse input = Ok (Some config))
           (Hon : Hitl.interruptOn config = Some on) =>
         ltac:(injection Hparse as <-; cbn in Hon;
               destruct (Hitl.interruptOn input) as [on0|]; [|discriminate];
               injection Hon as <-; apply lookup_delete_eq) |}.

Definition dangerous : ToolCall :=
  mkToolCall (Some "t9") "dangerous" (JObj [("x", JNum 1)]) (Some "tool_call").

(** A call to a tool named like a member of [Object.prototype]. *)
Definition constructor_call : ToolCall :=
  mkToolCall (Some "t3") "constructor" (JObj []) (Some "tool_call").

Definition safe : ToolCall :=
  mkToolCall (Some "t1") "safe" (JObj []) (Some "tool_call").

Definition ai_dangerous : AIMessage :=
  mkAIMessage (Some "m1") (JStr EmptyString) (Some [dangerous]).

Definition state_dangerous : Hitl.AgentState :=
  Hitl.mkAgentState [MsgHuman (JStr "go"); MsgAI ai_dangerous].

Definition on_approve_reject : gmap string Hitl.InterruptOn :=
  {[ "dangerous" := Hitl.OnConfig (Hitl.mkInterruptOnConfig ["approve"; "reject"] None None) ]}.

Definition on_approve_only : gmap string Hitl.InterruptOn :=
  {[ "dangerous" := Hitl.OnConfig (Hitl.mkInterruptOnConfig ["approve"] None None) ]}.

Definition options_approve_reject : Hitl.Config :=
  Hitl.mkConfig (Some on_approve_reject) None.

Definition options_approve_only : Hitl.Config :=
  Hitl.mkConfig (Some on_approve_only) None.

(** "dangerous" is set to true; the last AI message calls it and
    "constructor", which has no entry. *)
Definition on_dangerous : gmap string Hitl.InterruptOn :=
  {[ "dangerous" := Hitl.OnBool true ]}.

Definition options_dangerous : Hitl.Config := Hitl.mkConfig (Some on_dangerous) None.

Definition ai_inherited : AIMessage :=
  mkAIMessage (Some "m3") (JStr EmptyString) (Some [dangerous; constructor_call]).

Definition state_inherited : Hitl.AgentState :=
  Hitl.mkAgentState [MsgHuman (JStr "go"); MsgAI ai_inherited].

Definition reject_nope : Hitl.Decision :=
  Hitl.mkDecision "reject" None (Some (JStr "nope")).

Definition approve : Hitl.Decision := Hitl.mkDecision "approve" None None.

Definition ai_mixed : AIMessage :=
  mkAIMessage (Some "m2") (JStr EmptyString) (Some [safe; dangerous]).

Definition state_mixed : Hitl.AgentState :=
  Hitl.mkAgentState [MsgHuman (JStr "go"); MsgAI ai_mixed].

(** A reducer that stands for [messagesStateReducer] in the examples: a
    message of the update replaces the message that has its id, and is
    appended when no message has it or when it has no id. *)
Definition message_id (m : BaseMessage) : option string :=
  match m with
  | MsgAI a => ai_id a
  | _ => None
  end.

Definition example_messagesStateReducer (left : option (list BaseMessage))
    (right : list BaseMessage) : list BaseMessage :=
  fold_left
    (fun acc m =>
       match message_id m with
       | Some i =>
           if existsb (fun x => bool_decide (message_id x = Some i)) acc
           then (fun x => if bool_decide (message_id x = Some i) then m else x) <$> acc
           else acc ++ [m]
       | None => acc ++ [m]
       end)
    right (default [] left).

(** A tool node for the tool "add", called by the agent "Agent_1". *)
Definition add_call : ToolCall :=
  mkToolCall (Some "t1") "add" (JObj [("a", JNum 2); ("b", JNum 3)]) None.

Definition add_call_no_id : ToolCall :=
  mkToolCall None "add" (JObj [("a", JNum 2); ("b", JNum 3)]) None.

Definition add_tool : ToolNode.Tool :=
  ToolNode.mkTool "add" (fun _ _ => Ok (ToolNode.OutRaw (JStr "5"))).

Definition failing_tool : ToolNode.Tool :=
  ToolNode.mkTool "add" (fun _ _ => Throw (Error "boom")).

Definition interrupting_tool : ToolNode.Tool :=
  ToolNode.mkTool "add" (fun _ _ => Throw (GraphInterrupt (InterruptOther JNull))).

Definition node_of (t : ToolNode.Tool) (handleToolErrors : option bool) : ToolNode.Node :=
  ToolNode.new_Node [t] handleToolErrors (Some "Agent_1") None (Some "add") None.

Definition ai_add (call : ToolCall) : BaseMessage :=
  MsgAI (mkAIMessage (Some "m1") (JStr EmptyString) (Some [call])).

Definition input_add (call : ToolCall) : ToolNode.Input :=
  ToolNode.InputState
    (ToolNode.mkGraphState
       {[ "agent_1_channel" := ToolNode.mkChannelValue (Some [ai_add call]) ]}
       (Some [ai_add call]) None).

(** A state whose agent channel is missing, and one whose last message is
    the human's. *)
Definition input_no_channel : ToolNode.Input :=
  ToolNode.InputState (ToolNode.mkGraphState ∅ (Some [ai_add add_call]) None).

Definition input_human_last : ToolNode.Input :=
  ToolNode.InputArray [ai_add add_call; MsgHuman (JStr "hello")].

(** The client tool "browser.open" and a call "c1" to it. *)
Definition browser_call : ToolCall :=
  mkToolCall (Some "c1") "browser.open" (JObj [("url", JStr "https://example.org")]) None.

Definition browser_call_no_id : ToolCall :=
  mkToolCall None "browser.open" (JObj [("url", JStr "https://example.org")]) None.

Definition client_options : ClientTool.Options :=
  ClientTool.mkOptions (Some [ClientTool.mkClientToolDef "browser.open" None None]).

Definition browser_request (call : ToolCall) : ToolNode.ToolCallRequest :=
  ToolNode.mkToolCallRequest call
    (ToolNode.mkTool "browser.open" (fun _ _ => Ok (ToolNode.OutRaw (JStr EmptyString))))
    (ToolNode.mkGraphState ∅ None None).

Definition client_message (id : option string) : ClientTool.ClientMessage :=
  ClientTool.PlainMessage
    (ClientTool.mkClientToolMessageInput id None (Some (JStr "ok")) None None).

(** Ten tools, "search" among them, and a provider-specific dict. *)
Definition structured (n : string) : ToolSelector.ToolEntry :=
  ToolSelector.mkToolEntry (Some (JStr n)) (Some (JStr ("The tool " +:+ n))) (JObj []).

Definition provider_dict : ToolSelector.ToolEntry :=
  ToolSelector.mkToolEntry None None (JObj [("type", JStr "web_search_preview")]).

Definition ten_tools : list ToolSelector.ToolEntry :=
  (structured <$> ["a"; "b"; "c"; "d"; "e"; "f"; "g"; "h"; "i"; "search"])
  ++ [provider_dict].

Definition selector_options : ToolSelector.Options :=
  ToolSelector.mkOptions (Some 3%Z) (Some ["search"]) None.

Definition selector_request : ToolSelector.ModelRequest :=
  ToolSelector.mkModelRequest (Some ten_tools) [MsgHuman (JStr "find it")] None None.

Definition selects (names : list string)
    : ToolSelector.SelectionRequest -> Res ToolSelector.SelectionResponse :=
  fun _ => Ok (ToolSelector.mkSelectionResponse names).

(** A middleware that adds its name to the request and passes it on. *)
Definition tagging (name : string)
    : Subgraph.AgentMiddleware (list string) (list string) :=
  Subgraph.mkAgentMiddleware name (Some (fun request next => next (request ++ [name]))).

Definition core_handler : Subgraph.WrapModelCallHandler (list string) (list string) :=
  fun request => Ok (request ++ ["core"]).

(** A graph whose model asks for the same tool call for ever: it performs as
    many steps as the limit allows and fails with the recursion error. *)
Definition looping_graph (limit : Z) : Invoke.Stream string :=
  Invoke.mkStream (replicate (Z.to_nat limit) "step")
                  (Invoke.Failed (Invoke.GraphRecursionError "Recursion limit reached")).

Definition translate (key lang : string) (value : Z) : Invoke.Settled string :=
  Invoke.Resolved (key +:+ "@" +:+ lang +:+ ":" +:+ pretty value).

Definition snapshot : Invoke.StateSnapshot :=
  Invoke.mkStateSnapshot
    (Some (Invoke.mkConfigurable (Some "thread-1") (Some EmptyString) (Some "cp-4")))
    None None [].

Definition saved_checkpoint : Invoke.CheckpointTuple :=
  Invoke.mkCheckpointTuple (Some (Invoke.mkCheckpointRef (Some EmptyString) (Some "cp-4")))
                           None.

(** A checkpoint saver that holds [saved_checkpoint] for every config, and a
    run in which no tool call waits for a confirmation. *)
Definition checkpoint_saver (c : option Invoke.Configurable)
    : Invoke.Settled (option Invoke.CheckpointTuple) :=
  Invoke.Resolved (Some saved_checkpoint).

Definition no_operation (state : Invoke.StateSnapshot) : Invoke.Settled unit :=
  Invoke.Resolved tt.

Definition execution_1 : Invoke.Execution :=
  Invoke.mkExecution "exec-1" None None None.

Definition limit_4 : option Invoke.AgentConfig :=
  Some (Invoke.mkAgentConfig (Some 4%Z) None).

End Examples.

(** ** Assignments to plain objects *)

Module JsProps.

Lemma js_set_lookup {A} (key selector : string) (v : A) (acc : gmap string A) :
  js_set key v acc !! selector
  = if String.eqb selector "__proto__" then acc !! selector
    else if String.eqb key selector then Some v else acc !! selector.
Proof.
  unfold js_set.
  destruct (String.eqb_spec selector "__proto__") as [->|Hp],
           (String.eqb_spec key "__proto__") as [->|Hk]; try reflexivity.
  - apply lookup_insert_ne. exact Hk.
  - destruct (String.eqb_spec "__proto__" selector) as [<-|_]; [contradiction|reflexivity].
  - destruct (String.eqb_spec key selector) as [->|Hs].
    + apply lookup_insert_eq.
    + apply lookup_insert_ne. exact Hs.
Qed.

End JsProps.

(** ** Properties of the HITL hook *)

Module HitlProps.
Import Hitl HitlSpec.

Section WithStringify.
Context `{Stringify}.

Lemma decides_own d allowed type :
  decides d (Some allowed) type
  = Ok (String.eqb (d_type d) type && includes type allowed).
Proof. unfold decides. destruct (String.eqb (d_type d) type); reflexivity. Qed.

(** What [processDecision] does with a config of its own. *)
Lemma processDecision_own d toolCall config :
  processDecision d toolCall (OwnConfig config)
  = let allowed := allowedDecisions config in
    if String.eqb (d_type d) "approve" && includes "approve" allowed then
      Ok (Some toolCall, None)
    else if String.eqb (d_type d) "edit" && includes "edit" allowed then
      match d_editedAction d with
      | Some {| ea_name := Some (JStr name); ea_args := args |} =>
          match args with
          | Some a =>
              if truthy a && is_object a then
                Ok (Some {| tc_type := Some "tool_call"; tc_name := name;
                            tc_args := a; tc_id := tc_id toolCall |}, None)
              else Throw (invalid_edit toolCall "args must be an object")
          | None => Throw (invalid_edit toolCall "args must be an object")
          end
      | _ => Throw (invalid_edit toolCall "name must be a string")
      end
    else if String.eqb (d_type d) "reject" && includes "reject" allowed then
      match d_message d with
      | Some (JStr message) =>
          Ok (Some toolCall, Some (rejectionMessage d toolCall))
      | Some other =>
          Throw (Error ("Tool call response for " +:+ dquote +:+ tc_name toolCall +:+ dquote
                        +:+ " must be a string, got " +:+ typeof other))
      | None => Ok (Some toolCall, Some (rejectionMessage d toolCall))
      end
    else
      Throw (Error ("Unexpected human decision: " +:+ JSON_stringify (decision_json d)
                    +:+ ". Decision type '" +:+ d_type d
                    +:+ "' is not allowed for tool '" +:+ tc_name toolCall
                    +:+ "'. Expected one of " +:+ JSON_stringify (JArr (JStr <$> allowed))
                    +:+ " based on the tool's configuration.")).
Proof.
  unfold processDecision, rejectionMessage, rejectionContent.
  cbn [resolved_allowedDecisions]. rewrite !decides_own. cbn [bind].
  destruct (String.eqb (d_type d) "approve" && _); [reflexivity|].
  destruct (String.eqb (d_type d) "edit" && _); [reflexivity|].
  destruct (String.eqb (d_type d) "reject" && _); [|reflexivity].
  destruct (d_message d) as [[]|]; reflexivity.
Qed.

(** A member inherited from [Object.prototype] refuses every decision. *)
Lemma processDecision_inherited d toolCall :
  exists e, processDecision d toolCall Inherited = Throw e /\ isGraphInterrupt e = false.
Proof.
  unfold processDecision, decides. cbn [resolved_allowedDecisions].
  destruct (String.eqb (d_type d) "approve"); [eexists; split; reflexivity|].
  destruct (String.eqb (d_type d) "edit"); [eexists; split; reflexivity|].
  destruct (String.eqb (d_type d) "reject"); eexists; split; reflexivity.
Qed.

(** What [processDecision] throws is never an interrupt. *)
Lemma processDecision_throws d toolCall config e :
  processDecision d toolCall config = Throw e -> isGraphInterrupt e = false.
Proof.
  destruct config as [c|].
  - rewrite processDecision_own. cbn zeta.
    repeat (match goal with
            | |- context [if ?b then _ else _] => destruct b
            | |- context [match ?x with _ => _ end] => destruct x
            end; try discriminate); intros [= <-]; reflexivity.
  - destruct (processDecision_inherited d toolCall) as (e' & -> & He).
    intros [= <-]. exact He.
Qed.

Lemma processDecision_accepts config d toolCall :
  accepts config d = true ->
  processDecision d toolCall (OwnConfig config)
  = Ok (Some (revisedCall config d toolCall),
        if isReject d then Some (rejectionMessage d toolCall) else None).
Proof.
  rewrite processDecision_own. cbn zeta.
  unfold accepts, revisedCall, isReject.
  destruct (String.eqb (d_type d) "approve" && includes "approve" (allowedDecisions config))
    eqn:Ea.
  - intros _. apply andb_true_iff in Ea as [Et _]. apply String.eqb_eq in Et.
    rewrite Et. reflexivity.
  - destruct (String.eqb (d_type d) "edit" && includes "edit" (allowedDecisions config))
      eqn:Ee.
    + apply andb_true_iff in Ee as [Et _]. rewrite Et. apply String.eqb_eq in Et.
      rewrite Et. simpl.
      destruct (d_editedAction d) as [[[[]|] [a|]]|]; try discriminate.
      intros ->. reflexivity.
    + destruct (String.eqb (d_type d) "reject" && includes "reject" (allowedDecisions config))
        eqn:Er; [|discriminate].
      apply andb_true_iff in Er as [Et _]. rewrite Et.
      assert (String.eqb (d_type d) "edit" = false) as ->.
      { apply String.eqb_eq in Et. rewrite Et. reflexivity. }
      destruct (d_message d) as [[]|]; try discriminate; reflexivity.
Qed.

Lemma revisedCall_reject config d toolCall :
  isReject d = true -> revisedCall config d toolCall = toolCall.
Proof.
  unfold isReject, revisedCall. intros Et. apply String.eqb_eq in Et. rewrite Et.
  reflexivity.
Qed.

Lemma revisedCall_id config d toolCall :
  tc_id (revisedCall config d toolCall) = tc_id toolCall.
Proof.
  unfold revisedCall.
  destruct (_ && _); [reflexivity|].
  destruct (String.eqb _ _); [|reflexivity].
  destruct (d_editedAction d) as [[[[]|] [a|]]|]; reflexivity.
Qed.

Lemma lookupConfig_own resolved name config :
  resolved !! name = Some config -> lookupConfig resolved name = Some (OwnConfig config).
Proof. unfold lookupConfig. intros ->. reflexivity. Qed.

(** With a rejection among the decisions, the loop keeps the rejected calls
    and collects their messages. *)
Lemma processDecisions_rejected resolved ds calls :
  Forall2 (accepted resolved) ds calls ->
  forall revised artificial,
    processDecisions true resolved (zip ds calls) revised artificial
    = Ok (revised ++ rejectedToolCalls ds calls,
          artificial ++ rejectionMessages ds calls).
Proof.
  unfold rejectedToolCalls, rejectionMessages, rejectedPairs.
  induction 1 as [|d c ds calls (config & Hcfg & Hacc) _ IH]; intros revised artificial.
  - simpl. rewrite !app_nil_r. reflexivity.
  - simpl. rewrite (lookupConfig_own _ _ _ Hcfg), (processDecision_accepts _ _ _ Hacc).
    simpl. fold (isReject d). destruct (isReject d) eqn:Er; simpl.
    + rewrite IH, (revisedCall_reject _ _ _ Er), <- !app_assoc. reflexivity.
    + rewrite IH. reflexivity.
Qed.

(** One pair that is refused makes the loop throw, whatever the other pairs
    are, and what it throws is not an interrupt. *)
Lemma processDecisions_throws rejected resolved pairs i d c :
  pairs !! i = Some (d, c) ->
  (forall config, lookupConfig resolved (tc_name c) = Some config ->
                  exists e, processDecision d c config = Throw e) ->
  forall revised artificial,
    exists e,
      processDecisions rejected resolved pairs revised artificial = Throw e
      /\ isGraphInterrupt e = false.
Proof.
  revert i. induction pairs as [|[d' c'] pairs IH]; intros [|i] Hi Hthrow revised artificial;
    try discriminate.
  - injection Hi as -> ->. cbn [processDecisions].
    destruct (lookupConfig resolved (tc_name c)) as [config|] eqn:Hcfg;
      [|eexists; split; reflexivity].
    destruct (Hthrow config eq_refl) as (e & He). rewrite He.
    exists e. split; [reflexivity|]. apply (processDecision_throws _ _ _ _ He).
  - cbn [processDecisions].
    destruct (lookupConfig resolved (tc_name c')) as [config'|];
      [|eexists; split; reflexivity].
    destruct (processDecision d' c' config') as [r|e] eqn:Hp.
    + cbn [bind]. apply (IH i Hi Hthrow).
    + exists e. split; [reflexivity|]. apply (processDecision_throws _ _ _ _ Hp).
Qed.

Lemma filter_needsReview_all resolved (calls : list ToolCall) :
  Forall (fun c => needsReview resolved c = true) calls ->
  List.filter (needsReview resolved) calls = calls.
Proof.
  induction 1 as [|c calls Hc _ IH]; simpl; [reflexivity|].
  rewrite Hc, IH. reflexivity.
Qed.

Lemma filter_needsReview_none resolved (calls : list ToolCall) :
  List.filter (needsReview resolved)
    (List.filter (fun c => negb (needsReview resolved c)) calls) = [].
Proof.
  induction calls as [|c calls IH]; simpl; [reflexivity|].
  destruct (needsReview resolved c) eqn:Hc; simpl; [exact IH|].
  rewrite Hc. exact IH.
Qed.

Lemma filtered_needsReview resolved (calls : list ToolCall) :
  Forall (fun c => needsReview resolved c = true) (List.filter (needsReview resolved) calls).
Proof.
  induction calls as [|c calls IH]; simpl; [constructor|].
  destruct (needsReview resolved c) eqn:Hc; [constructor; assumption|exact IH].
Qed.

Lemma rejectedToolCalls_needsReview resolved ds (calls : list ToolCall) :
  Forall (fun c => needsReview resolved c = true) calls ->
  Forall (fun c => needsReview resolved c = true) (rejectedToolCalls ds calls).
Proof.
  unfold rejectedToolCalls, rejectedPairs. intros Hall. revert ds.
  induction Hall as [|c calls Hc _ IH]; intros [|d ds]; simpl; try constructor.
  destruct (isReject d); simpl; [constructor; [exact Hc|apply IH]|apply IH].
Qed.

(** The [in] test and the lookup agree: a call under review has a value
    under its name, its own config or an inherited member. *)
Lemma needsReview_lookup resolved c :
  needsReview resolved c = true -> is_Some (lookupConfig resolved (tc_name c)).
Proof.
  unfold needsReview, lookupConfig.
  destruct (resolved !! tc_name c) as [config|]; [eexists; reflexivity|].
  destruct (includes (tc_name c) prototype_names); [eexists; reflexivity|].
  rewrite orb_false_r. intros Hc. apply bool_decide_eq_true in Hc.
  destruct Hc as [config Hc]. discriminate.
Qed.

(** A call is put under review when [interruptOn] has an entry for its name
    that is not [false], and also when its name is the name of a member of
    [Object.prototype]. *)
Lemma needsReview_reviewed on c :
  needsReview (resolveConfigs on) c
  = reviewed on c || includes (tc_name c) prototype_names.
Proof.
  unfold needsReview, resolveConfigs, reviewed. rewrite lookup_omap.
  destruct (on !! tc_name c) as [[[|]|cfg]|]; reflexivity.
Qed.

(** The requests that the loop builds describe the calls, in order. *)
Lemma createRequests_names options resolved state (calls : list ToolCall) reqs :
  createRequests options resolved state calls = Ok reqs ->
  ar_name <$> reqs.1 = tc_name <$> calls
  /\ ar_args <$> reqs.1 = tc_args <$> calls
  /\ rc_actionName <$> reqs.2 = tc_name <$> calls
  /\ rc_allowedDecisions <$> reqs.2
     = (fun c => lookupConfig resolved (tc_name c) ≫= resolved_allowedDecisions) <$> calls.
Proof.
  revert reqs. induction calls as [|c calls IH]; intros reqs; cbn [createRequests].
  - intros [= <-]. repeat split.
  - destruct (lookupConfig resolved (tc_name c)) as [config|] eqn:Hcfg; [|discriminate].
    unfold createActionAndConfig.
    destruct (match resolved_description config with
              | Some (DescriptionFactory f) => _
              | Some (DescriptionText s) => _
              | None => _
              end) as [text|e]; [|discriminate].
    cbn [bind].
    destruct (createRequests options resolved state calls) as [r|e]; [|discriminate].
    destruct (IH r eq_refl) as (Hn & Ha & Hr & Hd).
    cbn [bind]. intros [= <-]. cbn [fst snd].
    rewrite !fmap_cons, Hn, Ha, Hr, Hd. repeat split.
    cbn beta. rewrite Hcfg. reflexivity.
Qed.

(** The loop succeeds when every call is under review and every
    description factory answers. *)
Lemma createRequests_described options resolved state (calls : list ToolCall) :
  Forall (fun c => needsReview resolved c = true) calls ->
  Forall (fun c => describes state resolved c = true) calls ->
  exists reqs, createRequests options resolved state calls = Ok reqs.
Proof.
  induction 1 as [|c calls Hc _ IH]; intros Hd; cbn [createRequests].
  - eexists. reflexivity.
  - apply Forall_cons in Hd as [Hdc Hd]. destruct (IH Hd) as (reqs & ->).
    destruct (needsReview_lookup _ _ Hc) as [config Hcfg]. rewrite Hcfg.
    unfold describes in Hdc. rewrite Hcfg in Hdc. cbn [mbind option_bind] in Hdc.
    unfold createActionAndConfig.
    destruct (resolved_description config) as [[s|f]|]; cbn [bind];
      try (eexists; reflexivity).
    destruct (f c (messages state)); [discriminate|]. cbn [bind]. eexists. reflexivity.
Qed.

(** The loop throws what the first failing description factory throws:
    never an interrupt. *)
Lemma createRequests_throws options resolved state (calls : list ToolCall) e :
  Forall (fun c => needsReview resolved c = true) calls ->
  createRequests options resolved state calls = Throw e ->
  isGraphInterrupt e = false.
Proof.
  induction 1 as [|c calls Hc _ IH]; cbn [createRequests]; [discriminate|].
  destruct (needsReview_lookup _ _ Hc) as [config ->].
  unfold createActionAndConfig.
  destruct (resolved_description config) as [[s|f]|]; cbn [bind].
  - destruct (createRequests options resolved state calls); [discriminate|].
    cbn [bind]. intros [= <-]. apply IH. reflexivity.
  - destruct (f c (messages state)) as [[m|m]|text]; cbn [bind];
      try (intros [= <-]; reflexivity).
    destruct (createRequests options resolved state calls); [discriminate|].
    cbn [bind]. intros [= <-]. apply IH. reflexivity.
  - destruct (createRequests options resolved state calls); [discriminate|].
    cbn [bind]. intros [= <-]. apply IH. reflexivity.
Qed.

Context {parser : Parser}.

(** Where the hook stands once the guards have passed: the requests are
    built, the interrupt is raised or resumed, and the decisions are read. *)
Lemma afterModel_reached options context state config lastMessage tool_calls on resume :
  interopParse (mergeConfig options context) = Ok (Some config) ->
  interruptOn config = Some on ->
  lastAIMessage (messages state) = Some lastMessage ->
  ai_tool_calls lastMessage = Some tool_calls ->
  List.filter (needsReview (resolveConfigs on)) tool_calls <> [] ->
  afterModel options context state resume
  = (reqs <- createRequests options (resolveConfigs on) state
               (List.filter (needsReview (resolveConfigs on)) tool_calls) ;;
     hitlResponse <- interrupt (InterruptHITL (mkHITLRequest reqs.1 reqs.2)) resume ;;
     match decisions hitlResponse with
     | DecisionsOther _ =>
         Throw (Error "Invalid HITLResponse: decisions must be a non-empty array")
     | DecisionsArray ds =>
         let calls := List.filter (needsReview (resolveConfigs on)) tool_calls in
         if negb (length ds =? length calls)%nat then
           Throw (count_mismatch (length ds) (length calls))
         else
           let hasRejectedToolCalls := existsb isReject ds in
           r <- processDecisions hasRejectedToolCalls (resolveConfigs on)
                  (zip ds calls)
                  (List.filter (fun c => negb (needsReview (resolveConfigs on) c))
                               tool_calls) [] ;;
           Ok (Some {| hr_messages :=
                         MsgAI (with_tool_calls lastMessage r.1) :: (MsgTool <$> r.2);
                       hr_jumpTo := if hasRejectedToolCalls
                                    then Some "model" else None |})
     end).
Proof.
  intros Hparse Hon Hlast Hcalls Hne.
  unfold afterModel. rewrite Hparse. cbn [bind]. rewrite Hlast, Hcalls, Hon.
  destruct (messages state) as [|m ms] eqn:Hm; [discriminate|].
  destruct tool_calls as [|c cs]; [contradiction|].
  destruct (List.filter _ (c :: cs)) as [|c' cs'] eqn:Hf; [contradiction|].
  reflexivity.
Qed.

(** The hook on a rejection. When at least one decision of the resume
    payload is a rejection, no decision is refused (each is allowed for its
    tool and well formed) and the description factories answer, the hook
    returns the last AI message with its tool calls rewritten, followed by
    one tool message with status "error" per rejected call, whose content is
    the human's message or the default rejection text, and it returns
    jumpTo = "model". Of the calls that were under review, the rewritten
    tool calls keep exactly the rejected ones, in order. *)
Lemma afterModel_rejection options context state config lastMessage tool_calls on ds :
  interopParse (mergeConfig options context) = Ok (Some config) ->
  interruptOn config = Some on ->
  lastAIMessage (messages state) = Some lastMessage ->
  ai_tool_calls lastMessage = Some tool_calls ->
  Forall (fun c => describes state (resolveConfigs on) c = true)
         (List.filter (needsReview (resolveConfigs on)) tool_calls) ->
  Forall2 (accepted (resolveConfigs on)) ds
          (List.filter (needsReview (resolveConfigs on)) tool_calls) ->
  existsb isReject ds = true ->
  exists revised,
    afterModel options context state (Some (mkHITLResponse (DecisionsArray ds)))
    = Ok (Some {| hr_messages :=
                    MsgAI (with_tool_calls lastMessage revised)
                    :: (MsgTool <$> rejectionMessages ds
                          (List.filter (needsReview (resolveConfigs on)) tool_calls));
                  hr_jumpTo := Some "model" |})
    /\ List.filter (needsReview (resolveConfigs on)) revised
       = rejectedToolCalls ds (List.filter (needsReview (resolveConfigs on)) tool_calls).
Proof.
  intros Hparse Hon Hlast Hcalls Hdesc Hacc Hrej.
  set (resolved := resolveConfigs on) in *.
  set (calls := List.filter (needsReview resolved) tool_calls) in *.
  assert (calls <> []) as Hne.
  { intros Hnil. rewrite Hnil in Hacc. inversion Hacc; subst. discriminate. }
  rewrite (afterModel_reached options context state config lastMessage tool_calls on
             (Some (mkHITLResponse (DecisionsArray ds))) Hparse Hon Hlast Hcalls Hne).
  fold resolved. fold calls.
  destruct (createRequests_described options resolved state calls
              (filtered_needsReview resolved tool_calls) Hdesc) as (reqs & ->).
  cbn [interrupt bind decisions].
  rewrite (Forall2_length _ _ _ Hacc), Nat.eqb_refl. cbn [negb].
  rewrite Hrej, (processDecisions_rejected _ _ _ Hacc). cbn [bind fst snd].
  eexists. split; [reflexivity|].
  rewrite List.filter_app. unfold calls at 1.
  rewrite filter_needsReview_none. cbn [app].
  apply filter_needsReview_all, rejectedToolCalls_needsReview, filtered_needsReview.
Qed.

(** The hook and the number of decisions. When the hook puts the k calls
    [calls] of the last AI message under review (k > 0) and the description
    factories answer, it raises one interrupt whose request lists the k
    calls in order; on resume it throws when the decisions are not an array,
    and when they are an array whose length differs from k. *)
Lemma afterModel_decision_count options context state config lastMessage tool_calls on :
  interopParse (mergeConfig options context) = Ok (Some config) ->
  interruptOn config = Some on ->
  lastAIMessage (messages state) = Some lastMessage ->
  ai_tool_calls lastMessage = Some tool_calls ->
  List.filter (needsReview (resolveConfigs on)) tool_calls <> [] ->
  Forall (fun c => describes state (resolveConfigs on) c = true)
         (List.filter (needsReview (resolveConfigs on)) tool_calls) ->
  (exists request,
     afterModel options context state None = Throw (GraphInterrupt (InterruptHITL request))
     /\ ar_name <$> actionRequests request
        = tc_name <$> List.filter (needsReview (resolveConfigs on)) tool_calls
     /\ ar_args <$> actionRequests request
        = tc_args <$> List.filter (needsReview (resolveConfigs on)) tool_calls)
  /\ (forall v,
        afterModel options context state (Some (mkHITLResponse (DecisionsOther v)))
        = Throw (Error "Invalid HITLResponse: decisions must be a non-empty array"))
  /\ (forall ds,
        length ds <> length (List.filter (needsReview (resolveConfigs on)) tool_calls) ->
        afterModel options context state (Some (mkHITLResponse (DecisionsArray ds)))
        = Throw (count_mismatch
                   (length ds)
                   (length (List.filter (needsReview (resolveConfigs on)) tool_calls)))).
Proof.
  intros Hparse Hon Hlast Hcalls Hne Hdesc.
  destruct (createRequests_described options (resolveConfigs on) state _
              (filtered_needsReview (resolveConfigs on) tool_calls) Hdesc) as (reqs & Hreqs).
  destruct (createRequests_names _ _ _ _ _ Hreqs) as (Hn & Ha & _).
  repeat split.
  - rewrite (afterModel_reached options context state config lastMessage tool_calls on
               None Hparse Hon Hlast Hcalls Hne), Hreqs.
    eexists. split; [reflexivity|]. split; assumption.
  - intros v.
    rewrite (afterModel_reached options context state config lastMessage tool_calls on
               (Some (mkHITLResponse (DecisionsOther v))) Hparse Hon Hlast Hcalls Hne), Hreqs.
    reflexivity.
  - intros ds Hlen.
    rewrite (afterModel_reached options context state config lastMessage tool_calls on
               (Some (mkHITLResponse (DecisionsArray ds))) Hparse Hon Hlast Hcalls Hne), Hreqs.
    cbn [interrupt bind decisions].
    apply Nat.eqb_neq in Hlen. rewrite Hlen. reflexivity.
Qed.

(** C6. A tool call whose name is the name of a member of [Object.prototype]
    is put under review even though [interruptOn] has no entry for it. On
    the first run the hook returns nothing; when the description factories
    answer, it raises an interrupt that lists this call with the calls that
    [interruptOn] matches, so that it carries more requests than
    [interruptOn] matches calls, and the request for this call allows no
    decision. No resume is accepted after that: whatever the decisions and
    their number are, the hook throws an error that is not an interrupt. *)
Theorem afterModel_inherited_name options context state config lastMessage tool_calls on c :
  interopParse (mergeConfig options context) = Ok (Some config) ->
  interruptOn config = Some on ->
  lastAIMessage (messages state) = Some lastMessage ->
  ai_tool_calls lastMessage = Some tool_calls ->
  c ∈ tool_calls ->
  includes (tc_name c) prototype_names = true ->
  on !! tc_name c = None ->
  (Forall (fun c => describes state (resolveConfigs on) c = true)
          (List.filter (needsReview (resolveConfigs on)) tool_calls) ->
   exists request,
     afterModel options context state None = Throw (GraphInterrupt (InterruptHITL request))
     /\ length (List.filter (reviewed on) tool_calls) < length (actionRequests request)
     /\ exists i,
          (ar_name <$> actionRequests request) !! i = Some (tc_name c)
          /\ (rc_allowedDecisions <$> reviewConfigs request) !! i = Some None)
  /\ (forall r, afterModel options context state None <> Ok r)
  /\ (forall response,
        exists e,
          afterModel options context state (Some response) = Throw e
          /\ isGraphInterrupt e = false).
Proof.
  intros Hparse Hon Hlast Hcalls Hin Hname Hentry.
  set (resolved := resolveConfigs on).
  set (calls := List.filter (needsReview resolved) tool_calls).
  assert (needsReview resolved c = true) as Hreview.
  { unfold resolved. rewrite needsReview_reviewed, Hname. apply orb_true_r. }
  assert (lookupConfig resolved (tc_name c) = Some Inherited) as Hlookup.
  { unfold lookupConfig, resolved, resolveConfigs. rewrite lookup_omap, Hentry, Hname.
    reflexivity. }
  assert (c ∈ calls) as Hc.
  { unfold calls. apply list_elem_of_In, filter_In. split; [|exact Hreview].
    apply list_elem_of_In. exact Hin. }
  assert (calls <> []) as Hne.
  { intros Hnil. rewrite Hnil in Hc. apply elem_of_nil in Hc. exact Hc. }
  assert (forall resume,
            afterModel options context state resume
            = (reqs <- createRequests options resolved state calls ;;
               hitlResponse <- interrupt (InterruptHITL (mkHITLRequest reqs.1 reqs.2))
                                         resume ;;
               match decisions hitlResponse with
               | DecisionsOther _ =>
                   Throw (Error "Invalid HITLResponse: decisions must be a non-empty array")
               | DecisionsArray ds =>
                   if negb (length ds =? length calls)%nat then
                     Throw (count_mismatch (length ds) (length calls))
                   else
                     r <- processDecisions (existsb isReject ds) resolved (zip ds calls)
                            (List.filter (fun c => negb (needsReview resolved c)) tool_calls)
                            [] ;;
                     Ok (Some {| hr_messages :=
                                   MsgAI (with_tool_calls lastMessage r.1)
                                   :: (MsgTool <$> r.2);
                                 hr_jumpTo := if existsb isReject ds
                                              then Some "model" else None |})
               end)) as Hreached.
  { intros resume.
    apply (afterModel_reached options context state config lastMessage tool_calls on resume
             Hparse Hon Hlast Hcalls Hne). }
  split; [|split].
  - intros Hdesc. rewrite Hreached.
    destruct (createRequests_described options resolved state calls
                (filtered_needsReview resolved tool_calls) Hdesc) as (reqs & Hreqs).
    rewrite Hreqs. cbn [bind interrupt]. eexists. split; [reflexivity|].
    cbn [actionRequests reviewConfigs].
    destruct (createRequests_names _ _ _ _ _ Hreqs) as (Hn & _ & _ & Hd).
    split.
    + rewrite <- (length_fmap ar_name), Hn, length_fmap. unfold calls.
      assert (forall l : list ToolCall,
                c ∈ l ->
                length (List.filter (reviewed on) l)
                < length (List.filter (needsReview resolved) l)) as Hlt.
      { assert (reviewed on c = false) as Hnot.
        { unfold reviewed. rewrite Hentry. reflexivity. }
        assert (forall x, needsReview resolved x
                          = reviewed on x || includes (tc_name x) prototype_names) as Hnr.
        { intros x. apply needsReview_reviewed. }
        assert (forall l : list ToolCall,
                  length (List.filter (reviewed on) l)
                  <= length (List.filter (needsReview resolved) l)) as Hle.
        { induction l as [|x l IH]; [reflexivity|]. cbn [List.filter]. rewrite Hnr.
          destruct (reviewed on x); cbn [orb length]; [lia|].
          destruct (includes (tc_name x) prototype_names); cbn [length]; lia. }
        induction l as [|x l IH]; intros Hx; [apply elem_of_nil in Hx; contradiction|].
        cbn [List.filter]. apply elem_of_cons in Hx as [<-|Hx].
        - rewrite Hnot, Hreview. cbn [length]. specialize (Hle l). lia.
        - specialize (IH Hx). rewrite Hnr.
          destruct (reviewed on x); cbn [orb length]; [lia|].
          destruct (includes (tc_name x) prototype_names); cbn [length]; lia. }
      apply Hlt. exact Hin.
    + apply list_elem_of_lookup_1 in Hc as [i Hi]. exists i.
      rewrite Hn, Hd, !list_lookup_fmap, Hi. cbn. rewrite Hlookup. split; reflexivity.
  - intros r. rewrite Hreached.
    destruct (createRequests options resolved state calls); discriminate.
  - intros response. rewrite Hreached.
    destruct (createRequests options resolved state calls) as [reqs|e] eqn:Hreqs.
    2:{ exists e. split; [reflexivity|].
        apply (createRequests_throws options resolved state calls e
                 (filtered_needsReview resolved tool_calls) Hreqs). }
    cbn [bind interrupt].
    destruct (decisions response) as [ds|v]; [|eexists; split; reflexivity].
    destruct (negb (length ds =? length calls)%nat) eqn:Hlen;
      [eexists; split; reflexivity|].
    apply negb_false_iff, Nat.eqb_eq in Hlen.
    apply list_elem_of_lookup_1 in Hc as [i Hi].
    assert (i < length ds) as Hlt by (rewrite Hlen; apply (lookup_lt_Some _ _ _ Hi)).
    apply lookup_lt_is_Some in Hlt as [d Hd].
    destruct (processDecisions_throws (existsb isReject ds) resolved (zip ds calls) i d c)
      with (revised := List.filter (fun c => negb (needsReview resolved c)) tool_calls)
           (artificial := @nil ToolMessage) as (e & -> & He).
    + rewrite lookup_zip_with, Hd, Hi. reflexivity.
    + intros cfg Hcfg. rewrite Hlookup in Hcfg. injection Hcfg as <-.
      destruct (processDecision_inherited d c) as (e & He & _). exists e. exact He.
    + exists e. split; [reflexivity|exact He].
Qed.

End WithStringify.

(** The review of the "dangerous" call is resumed with a rejection that
    carries the message "nope". *)
Lemma afterModel_rejection_example :
  afterModel (H := Examples.example_stringify) (parser := Examples.example_parser)
    Examples.options_approve_reject None Examples.state_dangerous
    (Some (mkHITLResponse (DecisionsArray [Examples.reject_nope])))
  = Ok (Some {| hr_messages :=
                  [MsgAI (with_tool_calls Examples.ai_dangerous [Examples.dangerous]);
                   MsgTool (rejectionMessage Examples.reject_nope Examples.dangerous)];
                hr_jumpTo := Some "model" |}).
Proof. vm_compute. reflexivity. Qed.

(** A rejection that the tool's configuration does not allow makes the hook
    throw: nothing is rewritten and no jump is returned. And when the message
    also holds a call that is not under review, that call stays among the
    rewritten tool calls next to the rejected one. *)
Lemma afterModel_rejection_refused :
  afterModel (H := Examples.example_stringify) (parser := Examples.example_parser)
    Examples.options_approve_only None Examples.state_dangerous
    (Some (mkHITLResponse (DecisionsArray [Examples.reject_nope])))
  = Throw (Error ("Unexpected human decision: <json>. Decision type 'reject' is not "
                  +:+ "allowed for tool 'dangerous'. Expected one of <json> based on "
                  +:+ "the tool's configuration."))
  /\ afterModel (H := Examples.example_stringify) (parser := Examples.example_parser)
       Examples.options_approve_reject None Examples.state_mixed
       (Some (mkHITLResponse (DecisionsArray [Examples.reject_nope])))
     = Ok (Some {| hr_messages :=
                     [MsgAI (with_tool_calls Examples.ai_mixed
                               [Examples.safe; Examples.dangerous]);
                      MsgTool (rejectionMessage Examples.reject_nope Examples.dangerous)];
                   hr_jumpTo := Some "model" |}).
Proof. split; vm_compute; reflexivity. Qed.

(** The last AI message calls "dangerous", which [interruptOn] sets to
    true, and "constructor", for which it has no entry. The interrupt
    carries two requests, the second of which allows no decision; the one
    decision that the one matched call asks for is refused because two are
    expected, and two decisions make the hook throw a TypeError. *)
Lemma afterModel_inherited_name_witness :
  List.filter (reviewed Examples.on_dangerous) [Examples.dangerous; Examples.constructor_call]
  = [Examples.dangerous]
  /\ (exists request,
        afterModel (H := Examples.example_stringify) (parser := Examples.example_parser)
          Examples.options_dangerous None Examples.state_inherited None
        = Throw (GraphInterrupt (InterruptHITL request))
        /\ ar_name <$> actionRequests request = ["dangerous"; "constructor"]
        /\ rc_allowedDecisions <$> reviewConfigs request
           = [Some ["approve"; "edit"; "reject"]; None])
  /\ afterModel (H := Examples.example_stringify) (parser := Examples.example_parser)
       Examples.options_dangerous None Examples.state_inherited
       (Some (mkHITLResponse (DecisionsArray [Examples.approve])))
     = Throw (count_mismatch 1 2)
  /\ afterModel (H := Examples.example_stringify) (parser := Examples.example_parser)
       Examples.options_dangerous None Examples.state_inherited
       (Some (mkHITLResponse (DecisionsArray [Examples.approve; Examples.approve])))
     = Throw undefined_includes
  /\ (forall response,
        exists e,
          afterModel (H := Examples.example_stringify) (parser := Examples.example_parser)
            Examples.options_dangerous None Examples.state_inherited (Some response)
          = Throw e
          /\ isGraphInterrupt e = false).
Proof.
  split; [reflexivity|].
  split; [eexists; split; [vm_compute; reflexivity|split; reflexivity]|].
  split; [vm_compute; reflexivity|]. split; [vm_compute; reflexivity|].
  apply (@afterModel_inherited_name Examples.example_stringify Examples.example_parser
           Examples.options_dangerous None Examples.state_inherited
           (mkConfig (Some Examples.on_dangerous) (Some "Tool execution requires approval"))
           Examples.ai_inherited [Examples.dangerous; Examples.constructor_call]
           Examples.on_dangerous Examples.constructor_call).
  - vm_compute. reflexivity.
  - reflexivity.
  - reflexivity.
  - reflexivity.
  - apply list_elem_of_In. right. left. reflexivity.
  - reflexivity.
  - reflexivity.
Defined.

End HitlProps.

(** ** Properties of the tool node *)

Module ToolNodeProps.
Import ToolNode.

(** The node with another list of tools. *)
Definition with_tools (node : Node) (ts : list Tool) : Node :=
  {| tools := ts; handleToolErrors := handleToolErrors node; channel := channel node;
     variables := variables node; toolName := toolName node;
     wrapToolCall := wrapToolCall node |}.

(** The update of the error path: the message under "messages" and in the
    caller's channel. *)
Definition errorUpdate (node : Node) (m : ToolMessage) : gmap string StateValue :=
  <[channel_key (channel node) := SVAgentChannel (SVMessages [MsgTool m])]>
    {["messages" := SVMessages [MsgTool m]]}.

Section WithStringify.
Context `{Stringify}.

(** C10. When the last message of the input is missing or is not an AI
    message, [run] throws "ToolNode only accepts AIMessages as input.", no
    event is dispatched, and the outcome is the same whatever tools the node
    holds: none of them is invoked. *)
Theorem run_requires_ai_message node input order :
  (forall ai, input_messages node input ≫= last <> Some (MsgAI ai)) ->
  run node input order
  = ([], Throw (Error "ToolNode only accepts AIMessages as input."))
  /\ forall ts, run (with_tools node ts) input order = run node input order.
Proof.
  intros Hlast.
  assert (forall n, input_messages n input ≫= last = input_messages node input ≫= last ->
                    run n input order = ([], Throw not_ai_message)) as Hrun.
  { intros n Hn. unfold run. rewrite Hn.
    destruct (input_messages node input ≫= last) as [[ai| | |]|]; try reflexivity.
    exfalso. apply (Hlast ai). reflexivity. }
  split.
  - apply Hrun. reflexivity.
  - intros ts. rewrite (Hrun node eq_refl). apply Hrun. reflexivity.
Qed.

(** A tool that throws makes the [try] block throw, when no middleware
    wraps the call. *)
Lemma tryCall_tool_throws node input messages call t e :
  List.find (fun t => String.eqb (name t) (tc_name call)) (tools node) = Some t ->
  wrapToolCall node = None ->
  (forall c cfg, invoke t c cfg = Throw e) ->
  tryCall node input messages call = Throw e.
Proof.
  intros Hfind Hwrap Hthrow. unfold tryCall. rewrite Hfind, Hwrap.
  unfold defaultHandler. rewrite Hthrow. reflexivity.
Qed.

(** The error path proper: errors are handled and [e] is not an interrupt. *)
Lemma runCall_handled node input messages call e :
  tryCall node input messages call = Throw e ->
  handleToolErrors node = true ->
  isGraphInterrupt e = false ->
  runCall node input messages call
  = ([mkEvent ON_TOOL_ERROR call (getErrorMessage e)],
     Ok (NodeCommand
           {| update := Some (UpdateObject (errorUpdate node (errorToolMessage call e)));
              goto := None |})).
Proof. intros Htry Hh Hi. unfold runCall. rewrite Htry, Hh, Hi. reflexivity. Qed.

(** C3, as amended. When the call throws [e]: with handleToolErrors false
    [e] is thrown again; a graph interrupt is thrown again in any case;
    otherwise one on_tool_error event is dispatched and the call resolves
    with a command that writes a tool message, under "messages" and into the
    caller's channel, whose content begins with "Error: ", which carries the
    name of the call, and whose status is left unset. *)
Theorem runCall_error_path node input messages call e :
  tryCall node input messages call = Throw e ->
  (handleToolErrors node = false -> runCall node input messages call = ([], Throw e))
  /\ (isGraphInterrupt e = true -> runCall node input messages call = ([], Throw e))
  /\ (handleToolErrors node = true -> isGraphInterrupt e = false ->
      exists toolMessage rest,
        runCall node input messages call
        = ([mkEvent ON_TOOL_ERROR call (getErrorMessage e)],
           Ok (NodeCommand {| update := Some (UpdateObject (errorUpdate node toolMessage));
                              goto := None |}))
        /\ errorUpdate node toolMessage !! "messages"
           = Some (if String.eqb (channel_key (channel node)) "messages"
                   then SVAgentChannel (SVMessages [MsgTool toolMessage])
                   else SVMessages [MsgTool toolMessage])
        /\ errorUpdate node toolMessage !! channel_key (channel node)
           = Some (SVAgentChannel (SVMessages [MsgTool toolMessage]))
        /\ tm_content toolMessage = JStr ("Error: " +:+ rest)
        /\ tm_name toolMessage = Some (tc_name call)
        /\ tm_status toolMessage = None).
Proof.
  intros Htry. repeat split.
  - intros Hh. unfold runCall. rewrite Htry, Hh. reflexivity.
  - intros Hi. unfold runCall. rewrite Htry, Hi.
    destruct (handleToolErrors node); reflexivity.
  - intros Hh Hi. rewrite (runCall_handled _ _ _ _ _ Htry Hh Hi).
    exists (errorToolMessage call e). eexists. split; [reflexivity|].
    split; [|split; [apply lookup_insert_eq|repeat split]].
    unfold errorUpdate. rewrite lookup_insert.
    destruct (String.eqb (channel_key (channel node)) "messages") eqn:Hk.
    + apply String.eqb_eq in Hk. rewrite decide_True by exact Hk. reflexivity.
    + apply String.eqb_neq in Hk. rewrite decide_False by exact Hk.
      apply lookup_singleton_eq.
Qed.

(** The tool message that wraps a raw tool output in the default handler
    carries the id of the call in the request. *)
Lemma defaultHandler_raw node t request v :
  (forall c cfg, invoke t c cfg = Ok (OutRaw v)) ->
  defaultHandler node t request
  = Ok (OutToolMessage
          {| tm_name := Some (name t); tm_content := stringified v;
             tm_tool_call_id := tc_id (toolCall request);
             tm_status := None; tm_artifact := None |}).
Proof. intros Hraw. unfold defaultHandler. rewrite Hraw. reflexivity. Qed.

(** With no middleware and no variable assigners, the node returns the
    message of the default handler as it is. *)
Lemma tryCall_default_raw node input messages call t v :
  List.find (fun t => String.eqb (name t) (tc_name call)) (tools node) = Some t ->
  wrapToolCall node = None ->
  variables node = None ->
  (forall c cfg, invoke t c cfg = Ok (OutRaw v)) ->
  tryCall node input messages call
  = Ok (NodeMessage
          {| tm_name := Some (name t); tm_content := stringified v;
             tm_tool_call_id := tc_id call; tm_status := None; tm_artifact := None |}).
Proof.
  intros Hfind Hwrap Hvars Hraw. unfold tryCall.
  rewrite Hfind, Hwrap, (defaultHandler_raw _ _ _ _ Hraw), Hvars.
  cbn [bind tm_content toolCall].
  assert (String.eqb (typeof (stringified v)) "string" = true) as ->
    by (destruct v; reflexivity).
  cbn [negb]. rewrite andb_false_r. reflexivity.
Qed.

(** The tool message that wraps a raw output of the (wrapped) handler
    carries the id of the call. *)
Lemma tryCall_raw node input messages call t v :
  List.find (fun t => String.eqb (name t) (tc_name call)) (tools node) = Some t ->
  match wrapToolCall node with
  | Some wrap =>
      wrap {| toolCall := call; tool := t; state := request_state input messages |}
           (defaultHandler node t)
  | None =>
      defaultHandler node t
        {| toolCall := call; tool := t; state := request_state input messages |}
  end = Ok (OutRaw v) ->
  tryCall node input messages call
  = Ok (NodeMessage
          {| tm_name := Some (name t); tm_content := stringified v;
             tm_tool_call_id := tc_id call; tm_status := None; tm_artifact := None |}).
Proof. intros Hfind Hout. unfold tryCall. rewrite Hfind, Hout. reflexivity. Qed.

End WithStringify.

(** The agent channel is missing from the state, or the last message of the
    input array is the human's: [run] throws, whatever the tools. *)
Lemma run_requires_ai_message_witness :
  (run (H := Examples.example_stringify)
       (Examples.node_of Examples.add_tool None) Examples.input_no_channel [0]
   = ([], Throw (Error "ToolNode only accepts AIMessages as input."))
   /\ forall ts,
        run (H := Examples.example_stringify)
            (with_tools (Examples.node_of Examples.add_tool None) ts)
            Examples.input_no_channel [0]
        = run (H := Examples.example_stringify)
              (Examples.node_of Examples.add_tool None) Examples.input_no_channel [0])
  /\ run (H := Examples.example_stringify)
         (Examples.node_of Examples.add_tool None) Examples.input_human_last [0]
     = ([], Throw (Error "ToolNode only accepts AIMessages as input.")).
Proof.
  split.
  - apply (@run_requires_ai_message Examples.example_stringify
             (Examples.node_of Examples.add_tool None) Examples.input_no_channel [0]).
    intros ai. vm_compute. discriminate.
  - apply (@run_requires_ai_message Examples.example_stringify
             (Examples.node_of Examples.add_tool None) Examples.input_human_last [0]).
    intros ai. vm_compute. discriminate.
Defined.

(** The tool "add" throws: the error is thrown again when errors are not
    handled, an interrupt is thrown again even when they are, and otherwise
    the error comes back as a tool message. *)
Lemma runCall_error_path_witness :
  runCall (H := Examples.example_stringify) (Examples.node_of Examples.failing_tool (Some false))
    (Examples.input_add Examples.add_call) [Examples.ai_add Examples.add_call]
    Examples.add_call
  = ([], Throw (Error "boom"))
  /\ runCall (H := Examples.example_stringify)
       (Examples.node_of Examples.interrupting_tool (Some true))
       (Examples.input_add Examples.add_call) [Examples.ai_add Examples.add_call]
       Examples.add_call
     = ([], Throw (GraphInterrupt (InterruptOther JNull)))
  /\ exists toolMessage,
       runCall (H := Examples.example_stringify)
         (Examples.node_of Examples.failing_tool (Some true))
         (Examples.input_add Examples.add_call) [Examples.ai_add Examples.add_call]
         Examples.add_call
       = ([mkEvent ON_TOOL_ERROR Examples.add_call (Some "boom")],
          Ok (NodeCommand
                {| update :=
                     Some (UpdateObject
                             (errorUpdate (Examples.node_of Examples.failing_tool (Some true))
                                          toolMessage));
                   goto := None |}))
       /\ tm_status toolMessage = None.
Proof.
  split; [|split].
  - apply (proj1 (@runCall_error_path Examples.example_stringify
                    (Examples.node_of Examples.failing_tool (Some false))
                    (Examples.input_add Examples.add_call)
                    [Examples.ai_add Examples.add_call] Examples.add_call (Error "boom")
                    eq_refl)).
    reflexivity.
  - apply (proj1 (proj2 (@runCall_error_path Examples.example_stringify
                    (Examples.node_of Examples.interrupting_tool (Some true))
                    (Examples.input_add Examples.add_call)
                    [Examples.ai_add Examples.add_call] Examples.add_call
                    (GraphInterrupt (InterruptOther JNull)) eq_refl))).
    reflexivity.
  - destruct (proj2 (proj2 (@runCall_error_path Examples.example_stringify
                    (Examples.node_of Examples.failing_tool (Some true))
                    (Examples.input_add Examples.add_call)
                    [Examples.ai_add Examples.add_call] Examples.add_call (Error "boom")
                    eq_refl)) eq_refl eq_refl)
      as (toolMessage & rest & Hrun & _ & _ & _ & _ & Hstatus).
    exists toolMessage. split; [exact Hrun|exact Hstatus].
Defined.

(** The tool "add" throws and errors are handled: the tool message that comes
    back has no status, where the claim expects the status "error". *)
Lemma runCall_error_path_counterexample :
  runCall (H := Examples.example_stringify) (Examples.node_of Examples.failing_tool None)
    (Examples.input_add Examples.add_call) [Examples.ai_add Examples.add_call]
    Examples.add_call
  = ([mkEvent ON_TOOL_ERROR Examples.add_call (Some "boom")],
     Ok (NodeCommand
           {| update :=
                Some (UpdateObject
                        (errorUpdate (Examples.node_of Examples.failing_tool None)
                           {| tm_content :=
                                JStr ("Error: boom" +:+ newline +:+ " Please fix your mistakes.");
                              tm_name := Some "add";
                              tm_tool_call_id := Some "t1";
                              tm_status := None;
                              tm_artifact := None |}));
              goto := None |})).
Proof. vm_compute. reflexivity. Qed.

End ToolNodeProps.

(** ** Correspondence between tool calls and tool messages *)

Module Correspondence.
Import ToolNode ToolNodeProps.

Section WithStringify.
Context `{Stringify}.

(** Whatever [processDecision] returns without throwing comes from an
    accepted decision. *)
Lemma processDecision_ok decision toolCall config r :
  Hitl.processDecision decision toolCall config = Ok r ->
  exists c, config = Hitl.OwnConfig c /\ HitlSpec.accepts c decision = true.
Proof.
  destruct config as [c|].
  2:{ destruct (HitlProps.processDecision_inherited decision toolCall) as (e & -> & _).
      discriminate. }
  rewrite HitlProps.processDecision_own. cbn zeta. intros Hok.
  exists c. split; [reflexivity|]. revert Hok. unfold HitlSpec.accepts.
  destruct (String.eqb (Hitl.d_type decision) "approve" && _); [reflexivity|].
  destruct (String.eqb (Hitl.d_type decision) "edit" && _).
  - destruct (Hitl.d_editedAction decision) as [[[[]|] [a|]]|]; try discriminate.
    destruct (truthy a && is_object a); [reflexivity|discriminate].
  - destruct (String.eqb (Hitl.d_type decision) "reject" && _); [|discriminate].
    destruct (Hitl.d_message decision) as [[]|]; try discriminate; reflexivity.
Qed.

(** C2, as amended. The tool message built for a call carries the id of that
    call: when the default handler wraps a raw tool output (and the node, with
    no middleware and no variable assigners, returns that message), when the
    node wraps a raw output of the handler, and when a rejection is turned
    into a message; an edit replaces the name and the args of the call and
    keeps its id. On the error path the message carries the id of the call when the
    call has one, and the empty string when it has none. *)
Theorem tool_call_id_preserved (call : ToolCall) :
  (forall node t request v,
     toolCall request = call ->
     (forall c cfg, invoke t c cfg = Ok (OutRaw v)) ->
     exists m,
       defaultHandler node t request = Ok (OutToolMessage m)
       /\ tm_tool_call_id m = tc_id call)
  /\ (forall node input messages t v,
        List.find (fun t => String.eqb (name t) (tc_name call)) (tools node) = Some t ->
        wrapToolCall node = None ->
        variables node = None ->
        (forall c cfg, invoke t c cfg = Ok (OutRaw v)) ->
        exists m,
          tryCall node input messages call = Ok (NodeMessage m)
          /\ tm_tool_call_id m = tc_id call)
  /\ (forall node input messages t v,
        List.find (fun t => String.eqb (name t) (tc_name call)) (tools node) = Some t ->
        match wrapToolCall node with
        | Some wrap =>
            wrap {| toolCall := call; tool := t; state := request_state input messages |}
                 (defaultHandler node t)
        | None =>
            defaultHandler node t
              {| toolCall := call; tool := t; state := request_state input messages |}
        end = Ok (OutRaw v) ->
        exists m,
          tryCall node input messages call = Ok (NodeMessage m)
          /\ tm_tool_call_id m = tc_id call)
  /\ (forall node input messages e,
        tryCall node input messages call = Throw e ->
        handleToolErrors node = true ->
        isGraphInterrupt e = false ->
        exists m,
          runCall node input messages call
          = ([mkEvent ON_TOOL_ERROR call (getErrorMessage e)],
             Ok (NodeCommand {| update := Some (UpdateObject (errorUpdate node m));
                                goto := None |}))
          /\ tm_tool_call_id m = Some (default EmptyString (tc_id call))
          /\ (forall i, tc_id call = Some i -> tm_tool_call_id m = tc_id call))
  /\ (forall decision config revised toolMessage,
        Hitl.processDecision decision call config = Ok (Some revised, toolMessage) ->
        tc_id revised = tc_id call
        /\ (forall m, toolMessage = Some m -> tm_tool_call_id m = tc_id call)
        /\ (Hitl.d_type decision = "edit" ->
            exists name args,
              Hitl.d_editedAction decision
              = Some (Hitl.mkEditedAction (Some (JStr name)) (Some args))
              /\ tc_name revised = name /\ tc_args revised = args)).
Proof.
  split; [|split; [|split; [|split]]].
  - intros node t request v <- Hraw. eexists. split.
    + apply defaultHandler_raw. exact Hraw.
    + reflexivity.
  - intros node input messages t v Hfind Hwrap Hvars Hraw. eexists. split.
    + apply (tryCall_default_raw _ _ _ _ _ _ Hfind Hwrap Hvars Hraw).
    + reflexivity.
  - intros node input messages t v Hfind Hout. eexists. split.
    + apply (tryCall_raw _ _ _ _ _ _ Hfind Hout).
    + reflexivity.
  - intros node input messages e Htry Hh Hi. exists (errorToolMessage call e). split.
    + apply (runCall_handled _ _ _ _ _ Htry Hh Hi).
    + split; [reflexivity|]. intros i Hid. simpl. rewrite Hid. reflexivity.
  - intros decision resolved revised toolMessage Hok.
    destruct (processDecision_ok _ _ _ _ Hok) as (config & -> & Hacc).
    rewrite (HitlProps.processDecision_accepts _ _ _ Hacc) in Hok.
    injection Hok as Hrev Hmsg. subst revised. split; [apply HitlProps.revisedCall_id|].
    split.
    + intros m Hm. rewrite Hm in Hmsg.
      destruct (HitlSpec.isReject decision); [|discriminate].
      injection Hmsg as <-. reflexivity.
    + intros Hty. unfold HitlSpec.accepts in Hacc. unfold HitlSpec.revisedCall.
      rewrite Hty in *. cbn [String.eqb Ascii.eqb Bool.eqb andb] in *.
      destruct (includes "edit" (Hitl.allowedDecisions config)); [|discriminate].
      destruct (Hitl.d_editedAction decision) as [[[[| | |name| |]|] [a|]]|];
        try discriminate.
      exists name, a. repeat split.
Qed.

End WithStringify.

(** The tool "add" answers "5" to the call "t1": the tool message carries
    "t1". When the tool throws instead, the error message carries "t1" too. *)
Lemma tool_call_id_preserved_witness :
  (exists m,
     tryCall (H := Examples.example_stringify) (Examples.node_of Examples.add_tool None)
       (Examples.input_add Examples.add_call) [Examples.ai_add Examples.add_call]
       Examples.add_call
     = Ok (NodeMessage m)
     /\ tm_tool_call_id m = Some "t1")
  /\ (exists m,
        runCall (H := Examples.example_stringify)
          (Examples.node_of Examples.failing_tool None)
          (Examples.input_add Examples.add_call) [Examples.ai_add Examples.add_call]
          Examples.add_call
        = ([mkEvent ON_TOOL_ERROR Examples.add_call (Some "boom")],
           Ok (NodeCommand
                 {| update :=
                      Some (UpdateObject
                              (errorUpdate (Examples.node_of Examples.failing_tool None) m));
                    goto := None |}))
        /\ tm_tool_call_id m = Some "t1").
Proof.
  destruct (@tool_call_id_preserved Examples.example_stringify Examples.add_call)
    as (_ & Hraw & _ & Herr & _).
  split.
  - apply (Hraw (Examples.node_of Examples.add_tool None)
             (Examples.input_add Examples.add_call) [Examples.ai_add Examples.add_call]
             Examples.add_tool (JStr "5")); reflexivity.
  - destruct (Herr (Examples.node_of Examples.failing_tool None)
                (Examples.input_add Examples.add_call) [Examples.ai_add Examples.add_call]
                (Error "boom") eq_refl eq_refl eq_refl) as (m & Hrun & _ & Hid).
    exists m. split; [exact Hrun|]. apply (Hid "t1"). reflexivity.
Defined.

(** A call without an id whose tool throws: the error message carries the
    empty string as its tool_call_id, which is not the (absent) id of the
    call. *)
Lemma tool_call_id_preserved_counterexample :
  tc_id Examples.add_call_no_id = None
  /\ runCall (H := Examples.example_stringify)
       (Examples.node_of Examples.failing_tool None)
       (Examples.input_add Examples.add_call_no_id)
       [Examples.ai_add Examples.add_call_no_id] Examples.add_call_no_id
     = ([mkEvent ON_TOOL_ERROR Examples.add_call_no_id (Some "boom")],
        Ok (NodeCommand
              {| update :=
                   Some (UpdateObject
                           (errorUpdate (Examples.node_of Examples.failing_tool None)
                              {| tm_content :=
                                   JStr ("Error: boom" +:+ newline
                                         +:+ " Please fix your mistakes.");
                                 tm_name := Some "add";
                                 tm_tool_call_id := Some EmptyString;
                                 tm_status := None;
                                 tm_artifact := None |}));
                 goto := None |})).
Proof. split; [reflexivity|vm_compute; reflexivity]. Qed.

End Correspondence.

(** ** Properties of the client tool middleware *)

Module ClientToolProps.
Import ToolNode ClientTool.

(** The tool of the call is one of the configured client tools. *)
Definition isClientTool (options : Options) (request : ToolCallRequest) : bool :=
  existsb (fun clientTool => String.eqb (ct_name clientTool) (tc_name (toolCall request)))
          (default [] (clientTools options)).

(** The id that [toToolMessage] gives to the message it builds. *)
Definition resolved_id (p : ClientToolMessageInput) (call : ToolCall) : option string :=
  match tool_call_id p with
  | Some i => Some i
  | None => tc_id call
  end.

Section WithStringify.
Context `{Stringify}.

(** For a client tool the hook goes straight to the interrupt. *)
Lemma wrapToolCall_client options resume request handler :
  isClientTool options request = true ->
  wrapToolCall options resume request handler
  = (response <- interrupt (InterruptClientTool {| clientToolCalls := [toolCall request] |})
                           resume ;;
     match toolMessages response with
     | MessagesArray [message] =>
         if truthy_str (message ≫= message_tool_call_id)
            && truthy_str (tc_id (toolCall request))
            && negb (bool_decide (message ≫= message_tool_call_id = tc_id (toolCall request)))
         then Throw (id_mismatch (render (message ≫= message_tool_call_id))
                                 (render (tc_id (toolCall request))))
         else
           match message with
           | Some m => m' <- toToolMessage m (toolCall request) ;; Ok (OutToolMessage m')
           | None => Throw null_message
           end
     | _ => Throw invalid_response
     end).
Proof.
  unfold isClientTool, wrapToolCall. intros Hclient.
  destruct (default [] (clientTools options)) as [|ct cts]; [discriminate|].
  rewrite Hclient. reflexivity.
Qed.

(** The hook alone, for a call to one of the configured client tools: it
    never calls the inner handler; without a resume value it raises an
    interrupt whose payload is the one tool call; on resume it throws unless
    toolMessages is an array of exactly one item; when the message and the
    call both carry an id and the ids differ it throws; when the ids agree,
    or only one side has one, the tool message carries that id; and when
    neither side carries an id it throws. *)
Lemma wrapToolCall_client_tool options request :
  isClientTool options request = true ->
  (forall resume h1 h2,
     wrapToolCall options resume request h1 = wrapToolCall options resume request h2)
  /\ (forall h,
        wrapToolCall options None request h
        = Throw (GraphInterrupt
                   (InterruptClientTool {| clientToolCalls := [toolCall request] |})))
  /\ (forall h field,
        (forall message, field <> MessagesArray [message]) ->
        wrapToolCall options (Some (mkClientToolResponse field)) request h
        = Throw (Error ("Invalid ClientToolResponse: toolMessages must be an array "
                        +:+ "with exactly one item")))
  /\ (forall h message got expected,
        message_tool_call_id message = Some got ->
        tc_id (toolCall request) = Some expected ->
        got <> EmptyString -> expected <> EmptyString -> got <> expected ->
        wrapToolCall options
          (Some (mkClientToolResponse (MessagesArray [Some message]))) request h
        = Throw (id_mismatch got expected))
  /\ (forall h p,
        truthy_str (resolved_id p (toolCall request)) = true ->
        (truthy_str (tool_call_id p) = true ->
         truthy_str (tc_id (toolCall request)) = true ->
         tool_call_id p = tc_id (toolCall request)) ->
        exists m,
          wrapToolCall options
            (Some (mkClientToolResponse (MessagesArray [Some (PlainMessage p)]))) request h
          = Ok (OutToolMessage m)
          /\ tm_tool_call_id m = resolved_id p (toolCall request))
  /\ (forall h p,
        truthy_str (resolved_id p (toolCall request)) = false ->
        wrapToolCall options
          (Some (mkClientToolResponse (MessagesArray [Some (PlainMessage p)]))) request h
        = Throw (missing_id (toolCall request))).
Proof.
  intros Hclient. repeat split.
  - intros resume h1 h2. rewrite !wrapToolCall_client by exact Hclient. reflexivity.
  - intros h. rewrite wrapToolCall_client by exact Hclient. reflexivity.
  - intros h field Hfield. rewrite wrapToolCall_client by exact Hclient.
    cbn [interrupt bind toolMessages].
    destruct field as [[|m [|m' ms]]|v]; try reflexivity.
    exfalso. apply (Hfield m). reflexivity.
  - intros h message got expected Hgot Hexp Hg He Hne.
    rewrite wrapToolCall_client by exact Hclient.
    cbn [interrupt bind toolMessages mbind option_bind].
    rewrite Hgot, Hexp. cbn [truthy_str render default].
    apply String.eqb_neq in Hg, He. rewrite Hg, He. cbn [negb andb].
    rewrite bool_decide_eq_false_2 by congruence. reflexivity.
  - intros h p Hid Hsame. rewrite wrapToolCall_client by exact Hclient.
    cbn [interrupt bind toolMessages mbind option_bind message_tool_call_id].
    assert (truthy_str (tool_call_id p) && truthy_str (tc_id (toolCall request))
            && negb (bool_decide (tool_call_id p = tc_id (toolCall request))) = false) as ->.
    { destruct (truthy_str (tool_call_id p)) eqn:Hp; [|reflexivity].
      destruct (truthy_str (tc_id (toolCall request))) eqn:Hc; [|reflexivity].
      rewrite bool_decide_eq_true_2 by (apply Hsame; reflexivity). reflexivity. }
    unfold toToolMessage. fold (resolved_id p (toolCall request)). rewrite Hid.
    cbn [negb bind]. eexists. split; reflexivity.
  - intros h p Hid. rewrite wrapToolCall_client by exact Hclient.
    cbn [interrupt bind toolMessages mbind option_bind message_tool_call_id].
    assert (truthy_str (tool_call_id p) && truthy_str (tc_id (toolCall request))
            && negb (bool_decide (tool_call_id p = tc_id (toolCall request))) = false) as ->.
    { unfold resolved_id in Hid. destruct (tool_call_id p) as [i|].
      - rewrite Hid. reflexivity.
      - reflexivity. }
    unfold toToolMessage. fold (resolved_id p (toolCall request)). rewrite Hid.
    reflexivity.
Qed.

End WithStringify.

(** The call "c1" to "browser.open": the interrupt carries the call; a resume
    with no message, or with an id other than "c1", is refused; the message
    with the id "c1" is returned; with no id on either side the hook throws. *)
Lemma wrapToolCall_client_tool_witness :
  wrapToolCall (H := Examples.example_stringify) Examples.client_options None
    (Examples.browser_request Examples.browser_call) (fun _ => Ok (OutRaw JNull))
  = Throw (GraphInterrupt
             (InterruptClientTool {| clientToolCalls := [Examples.browser_call] |}))
  /\ wrapToolCall (H := Examples.example_stringify) Examples.client_options
       (Some (mkClientToolResponse (MessagesArray [])))
       (Examples.browser_request Examples.browser_call) (fun _ => Ok (OutRaw JNull))
     = Throw invalid_response
  /\ wrapToolCall (H := Examples.example_stringify) Examples.client_options
       (Some (mkClientToolResponse
                (MessagesArray [Some (Examples.client_message (Some "c2"))])))
       (Examples.browser_request Examples.browser_call) (fun _ => Ok (OutRaw JNull))
     = Throw (id_mismatch "c2" "c1")
  /\ (exists m,
        wrapToolCall (H := Examples.example_stringify) Examples.client_options
          (Some (mkClientToolResponse
                   (MessagesArray [Some (Examples.client_message (Some "c1"))])))
          (Examples.browser_request Examples.browser_call) (fun _ => Ok (OutRaw JNull))
        = Ok (OutToolMessage m)
        /\ tm_tool_call_id m = Some "c1")
  /\ wrapToolCall (H := Examples.example_stringify) Examples.client_options
       (Some (mkClientToolResponse (MessagesArray [Some (Examples.client_message None)])))
       (Examples.browser_request Examples.browser_call_no_id) (fun _ => Ok (OutRaw JNull))
     = Throw (missing_id Examples.browser_call_no_id).
Proof.
  destruct (@wrapToolCall_client_tool Examples.example_stringify Examples.client_options
              (Examples.browser_request Examples.browser_call) eq_refl)
    as (_ & Hint & Hone & Hmis & Hok & _).
  destruct (@wrapToolCall_client_tool Examples.example_stringify Examples.client_options
              (Examples.browser_request Examples.browser_call_no_id) eq_refl)
    as (_ & _ & _ & _ & _ & Hnone).
  split; [apply Hint|]. split.
  { apply (Hone _ (MessagesArray [])). intros message. discriminate. }
  split.
  { apply (Hmis _ (Examples.client_message (Some "c2")) "c2" "c1");
      try reflexivity; discriminate. }
  split.
  { apply (Hok _ (mkClientToolMessageInput (Some "c1") None (Some (JStr "ok")) None None)).
    - reflexivity.
    - intros _ _. reflexivity. }
  apply (Hnone _ (mkClientToolMessageInput None None (Some (JStr "ok")) None None)).
  reflexivity.
Defined.

End ClientToolProps.

(** ** Properties of the LLM tool selector *)

Module ToolSelectorProps.
Import ToolSelector.

(** The first [maxTools] distinct names of a selection (all of them when
    there is no limit). *)
Definition firstDistinct (maxTools : option Z) (names : list string) : list string :=
  match maxTools with
  | None => distinct names
  | Some m => firstn (Z.to_nat m) (distinct names)
  end.

(** The names of a selection that are not selectable. *)
Definition invalidNames (validToolNames names : list string) : list string :=
  List.filter (fun n => negb (includes n validToolNames)) names.

(** The tools that the claim describes: the selected ones, the always
    included ones, the provider-specific dicts. *)
Definition selectedRequest (selected : list string) (available : list ToolEntry)
    (request : ModelRequest) (options : Options) : ModelRequest :=
  {| tools :=
       Some ((List.filter (name_in selected) available
              ++ List.filter (name_in (default [] (alwaysInclude options)))
                             (default [] (tools request)))
             ++ List.filter (fun tool => negb (isStructuredTool tool))
                            (default [] (tools request)));
     messages := messages request;
     systemMessage := systemMessage request;
     runtime_context := runtime_context request |}.

Definition remaining (selected names : list string) : list string :=
  List.filter (fun x => negb (includes x selected)) (distinct names).

Definition room (maxTools : option Z) (k : nat) (names : list string) : list string :=
  match maxTools with
  | None => names
  | Some m => firstn (Z.to_nat (m - Z.of_nat k)) names
  end.

Lemma includes_app x (l : list string) y :
  includes x (l ++ [y]) = includes x l || String.eqb x y.
Proof.
  unfold includes. rewrite existsb_app. simpl. rewrite orb_false_r. reflexivity.
Qed.

Lemma remaining_seen selected n (l : list string) :
  includes n selected = true ->
  List.filter (fun x => negb (includes x selected))
              (List.filter (fun m => negb (String.eqb n m)) l)
  = List.filter (fun x => negb (includes x selected)) l.
Proof.
  intros Hn. induction l as [|x l IH]; simpl; [reflexivity|].
  destruct (String.eqb n x) eqn:Hx; simpl.
  - apply String.eqb_eq in Hx. subst x. rewrite Hn. simpl. exact IH.
  - rewrite IH. reflexivity.
Qed.

Lemma remaining_new selected n (l : list string) :
  List.filter (fun x => negb (includes x (selected ++ [n]))) l
  = List.filter (fun x => negb (includes x selected))
                (List.filter (fun m => negb (String.eqb n m)) l).
Proof.
  induction l as [|x l IH]; simpl; [reflexivity|].
  rewrite includes_app, (String.eqb_sym x n).
  destruct (String.eqb n x); simpl.
  - rewrite orb_true_r. simpl. exact IH.
  - rewrite orb_false_r. destruct (includes x selected); simpl; rewrite IH; reflexivity.
Qed.

(** The loop on a selection of selectable names: the names selected so far
    are extended by the first distinct new names, as far as the limit allows. *)
Lemma selectionLoop_valid validToolNames maxTools names :
  forallb (fun n => includes n validToolNames) names = true ->
  forall selected invalid,
    selectionLoop validToolNames maxTools names selected invalid
    = (selected ++ room maxTools (length selected) (remaining selected names), invalid).
Proof.
  unfold remaining.
  induction names as [|n names IH]; intros Hvalid selected invalid; simpl.
  - destruct maxTools; simpl; rewrite ?firstn_nil, app_nil_r; reflexivity.
  - simpl in Hvalid. apply andb_true_iff in Hvalid as [Hn Hrest].
    rewrite Hn. cbn [negb].
    destruct (includes n selected) eqn:Hsel; cbn [negb andb].
    + rewrite (IH Hrest), (remaining_seen _ _ _ Hsel). reflexivity.
    + destruct (within_limit maxTools selected) eqn:Hlim.
      * rewrite (IH Hrest), remaining_new, length_app, <- app_assoc. simpl.
        f_equal. f_equal. destruct maxTools as [m|]; simpl; [|reflexivity].
        simpl in Hlim. apply Z.ltb_lt in Hlim.
        replace (Z.to_nat (m - Z.of_nat (length selected)))
          with (S (Z.to_nat (m - Z.of_nat (length selected + 1)))) by lia.
        reflexivity.
      * rewrite (IH Hrest). destruct maxTools as [m|]; simpl in *; [|discriminate].
        apply Z.ltb_ge in Hlim.
        replace (Z.to_nat (m - Z.of_nat (length selected))) with 0%nat by lia.
        reflexivity.
Qed.

(** The invalid names are collected in order, whatever else happens. *)
Lemma selectionLoop_invalid validToolNames maxTools names :
  forall selected invalid,
    (selectionLoop validToolNames maxTools names selected invalid).2
    = invalid ++ invalidNames validToolNames names.
Proof.
  unfold invalidNames.
  induction names as [|n names IH]; intros selected invalid; simpl.
  - rewrite app_nil_r. reflexivity.
  - destruct (includes n validToolNames); simpl.
    + destruct (negb (includes n selected) && within_limit maxTools selected); apply IH.
    + rewrite IH, <- app_assoc. reflexivity.
Qed.

Lemma filter_all_true (l : list string) :
  List.filter (fun x => negb (includes x [])) l = l.
Proof. induction l as [|x l IH]; [reflexivity|]. simpl. f_equal. exact IH. Qed.

Lemma processSelectionResponse_valid response available validToolNames request options :
  forallb (fun n => includes n validToolNames) (response_tools response) = true ->
  processSelectionResponse response available validToolNames request options
  = Ok (selectedRequest (firstDistinct (maxTools options) (response_tools response))
                        available request options).
Proof.
  intros Hvalid. unfold processSelectionResponse.
  rewrite (selectionLoop_valid _ _ _ Hvalid). cbn [app length].
  unfold remaining, room, firstDistinct. rewrite filter_all_true.
  destruct (maxTools options) as [m|]; [rewrite Z.sub_0_r|]; reflexivity.
Qed.

Lemma processSelectionResponse_invalid response available validToolNames request options :
  forallb (fun n => includes n validToolNames) (response_tools response) = false ->
  processSelectionResponse response available validToolNames request options
  = Throw (invalid_selection (invalidNames validToolNames (response_tools response))).
Proof.
  intros Hinvalid. unfold processSelectionResponse.
  pose proof (selectionLoop_invalid validToolNames (maxTools options)
                (response_tools response) [] []) as Hloop.
  destruct (selectionLoop _ _ _ [] []) as [selected invalid]. simpl in Hloop. subst invalid.
  destruct (invalidNames validToolNames (response_tools response)) eqn:Hnames;
    [|reflexivity].
  exfalso. unfold invalidNames in Hnames.
  induction (response_tools response) as [|n names IH]; [discriminate|].
  simpl in *. destruct (includes n validToolNames); simpl in *; [|discriminate].
  apply IH; assumption.
Qed.

(** C4. Given the response of the selection model: when a listed name is not
    selectable, the call fails with an error that lists the invalid names and
    the inner handler is not reached; otherwise the inner handler receives the
    request whose tools are the available tools named among the first
    maxTools distinct selected names, then the alwaysInclude tools of the
    request, then its provider-specific dicts. *)
Theorem wrapModelCall_selection {A} options selectionModel request
    (handler : ModelRequest -> Res A) selectionRequest response :
  prepareSelectionRequest request options (runtime_context request)
  = Ok (Some selectionRequest) ->
  selectionModel selectionRequest = Ok response ->
  (forallb (fun n => includes n (validToolNames selectionRequest))
           (response_tools response) = false ->
   wrapModelCall options selectionModel request handler
   = Throw (invalid_selection
              (invalidNames (validToolNames selectionRequest) (response_tools response))))
  /\ (forallb (fun n => includes n (validToolNames selectionRequest))
              (response_tools response) = true ->
      wrapModelCall options selectionModel request handler
      = handler (selectedRequest
                   (firstDistinct (maxTools options) (response_tools response))
                   (availableTools selectionRequest) request options)).
Proof.
  intros Hprepare Hmodel. unfold wrapModelCall. rewrite Hprepare. cbn [bind].
  rewrite Hmodel. cbn [bind]. split; intros Hnames.
  - rewrite (processSelectionResponse_invalid _ _ _ _ _ Hnames). reflexivity.
  - rewrite (processSelectionResponse_valid _ _ _ _ _ Hnames). reflexivity.
Qed.

(** Ten tools, maxTools = 3, alwaysInclude = ["search"]: the selection
    a, b, c, d leaves a, b, c, search and the provider dict; a selection that
    names the unknown tool "z" fails. *)
Lemma wrapModelCall_selection_witness :
  wrapModelCall Examples.selector_options (Examples.selects ["a"; "b"; "c"; "d"])
    Examples.selector_request (fun r => Ok (tools r))
  = Ok (Some ((Examples.structured <$> ["a"; "b"; "c"; "search"])
              ++ [Examples.provider_dict]))
  /\ wrapModelCall Examples.selector_options (Examples.selects ["a"; "z"])
       Examples.selector_request (fun r => Ok (tools r))
     = Throw (Error "Model selected invalid tools: z").
Proof.
  split.
  - apply (proj2 (@wrapModelCall_selection _ Examples.selector_options
                    (Examples.selects ["a"; "b"; "c"; "d"]) Examples.selector_request
                    (fun r => Ok (tools r)) _ _ eq_refl eq_refl)).
    reflexivity.
  - apply (proj1 (@wrapModelCall_selection _ Examples.selector_options
                    (Examples.selects ["a"; "z"]) Examples.selector_request
                    (fun r => Ok (tools r)) _ _ eq_refl eq_refl)).
    reflexivity.
Defined.

End ToolSelectorProps.

(** ** Properties of the wrapModelCall chain *)

Module SubgraphProps.
Import Subgraph.

Section Chain.
Context {Request Response : Type}.
Implicit Types (core : WrapModelCallHandler Request Response).

(** C9, as amended. The chain is built from the last declared middleware to
    the first: the first declared middleware that has a wrapModelCall hook is
    the outermost wrapper, it receives the chain of the middlewares declared
    after it as its handler; the last declared one wraps the core handler
    directly; an entry without the hook is skipped. *)
Theorem wrappedModelHandler_order (first last : AgentMiddleware Request Response)
    (wrapFirst wrapLast : WrapModelCallHook Request Response) :
  wrapModelCall first = Some wrapFirst ->
  wrapModelCall last = Some wrapLast ->
  (forall rest core request,
     wrappedModelHandler (Some first :: rest) core request
     = wrapFirst request (wrappedModelHandler rest core))
  /\ (forall init core request,
        wrappedModelHandler (init ++ [Some last]) core request
        = wrappedModelHandler init (fun r => wrapLast r core) request)
  /\ (forall skipped rest core request,
        skipped ≫= wrapModelCall = None ->
        wrappedModelHandler (skipped :: rest) core request
        = wrappedModelHandler rest core request).
Proof.
  intros Hfirst Hlast. repeat split.
  - intros rest core request. unfold wrappedModelHandler. simpl.
    rewrite Hfirst. reflexivity.
  - intros init core request. unfold wrappedModelHandler.
    rewrite fold_right_app. simpl. rewrite Hlast. reflexivity.
  - intros skipped rest core request Hskip. unfold wrappedModelHandler. simpl.
    rewrite Hskip. reflexivity.
Qed.

End Chain.

(** Two tagging middlewares: the first declared one sees the request first,
    and the last declared one hands it to the core handler. *)
Lemma wrappedModelHandler_order_witness :
  (forall rest core request,
     wrappedModelHandler (Some (Examples.tagging "first") :: rest) core request
     = wrappedModelHandler rest core (request ++ ["first"]))
  /\ (forall init core request,
        wrappedModelHandler (init ++ [Some (Examples.tagging "last")]) core request
        = wrappedModelHandler init (fun r => core (r ++ ["last"])) request).
Proof.
  destruct (@wrappedModelHandler_order _ _ (Examples.tagging "first")
              (Examples.tagging "last") _ _ eq_refl eq_refl) as (Hfirst & Hlast & _).
  split; [exact Hfirst|exact Hlast].
Defined.

(** With the middlewares "first" and "last" declared in this order, the
    request reaches "first" before "last"; were the last declared middleware
    the outermost wrapper, as the claim has it, "last" would see it first. *)
Lemma wrappedModelHandler_order_counterexample :
  wrappedModelHandler [Some (Examples.tagging "first"); Some (Examples.tagging "last")]
    Examples.core_handler []
  = Ok ["first"; "last"; "core"]
  /\ spec_wrappedModelHandler
       [Some (Examples.tagging "first"); Some (Examples.tagging "last")]
       Examples.core_handler []
     = Ok ["last"; "first"; "core"].
Proof. split; reflexivity. Qed.

End SubgraphProps.

(** ** Properties of the run handler *)

Module InvokeProps.
Import Invoke.

Section Handler.
Variable AgentRecursionLimit : Z.
Variable mapTranslationLanguage : string -> string.
Variable i18n_t : string -> string -> Z -> Settled string.
Context {GraphEvent Content Operation : Type}.
Variable mapStreamEvents : GraphEvent -> option Content.

(** C7, as amended. The graph is given the configured recursion limit, or
    [AgentRecursionLimit] when none is configured. When it fails with its
    recursion error, the handler first reads the last state and its
    checkpoint. When both reads answer, the execution is updated from them
    (the checkpoint of the first pending write, else the one of the state's
    config, else the saved one; the title of the state when it has one), and
    the stream ends, after the contents streamed so far, with an error whose
    message is the translation of 'xpert.Error.RecursionLimitReached' for the
    user's language, with the limit as its argument. The user's language is
    [options.language], else the user's [preferredLanguage], else 'en-US'.
    When a read fails, the stream ends with the error of that read and the
    execution is left as it was; when the translation fails, it ends with
    the error of the translation. In no case is an interrupt sent. *)
Theorem execute_recursion_limit agentConfig language preferredLanguage graph
    getState getCopilotCheckpoint (completeToolCalls : StateSnapshot -> Settled Operation)
    execution events message :
  graph (match agentConfig ≫= recursionLimit with
         | Some configured => configured
         | None => AgentRecursionLimit
         end)
  = mkStream events (Failed (GraphRecursionError message)) ->
  (forall state saved translation,
     getState = Resolved state ->
     getCopilotCheckpoint (first_some (config state) (parentConfig state))
     = Resolved (Some saved) ->
     i18n_t "xpert.Error.RecursionLimitReached"
       (mapTranslationLanguage
          (if truthy_str language then default EmptyString language
           else if truthy_str preferredLanguage then default EmptyString preferredLanguage
           else "en-US"))
       (match agentConfig ≫= recursionLimit with
        | Some configured => configured
        | None => AgentRecursionLimit
        end)
     = Resolved translation ->
     execute AgentRecursionLimit mapTranslationLanguage i18n_t mapStreamEvents
       agentConfig language preferredLanguage graph getState getCopilotCheckpoint
       completeToolCalls execution
     = mkOutcome
         {| id := id execution;
            checkpointNs :=
              match pendingWrites saved with
              | Some (w :: _) => ref_checkpoint_ns w
              | _ => first_some (config state ≫= checkpoint_ns)
                                (checkpoint saved ≫= ref_checkpoint_ns)
              end;
            checkpointId :=
              match pendingWrites saved with
              | Some (w :: _) => ref_checkpoint_id w
              | _ => first_some (config state ≫= checkpoint_id)
                                (checkpoint saved ≫= ref_checkpoint_id)
              end;
            title := if truthy_str (values_title state) then values_title state
                     else title execution |}
         None
         (mkStream (dropNil (mapStreamEvents <$> events))
                   (Failed (PlainError translation))))
  /\ (forall err,
        getState = Rejected err
        \/ (exists state,
              getState = Resolved state
              /\ getCopilotCheckpoint (first_some (config state) (parentConfig state))
                 = Rejected err)
        \/ (exists state,
              getState = Resolved state
              /\ getCopilotCheckpoint (first_some (config state) (parentConfig state))
                 = Resolved None
              /\ err = undefined_checkpoint) ->
        execute AgentRecursionLimit mapTranslationLanguage i18n_t mapStreamEvents
          agentConfig language preferredLanguage graph getState getCopilotCheckpoint
          completeToolCalls execution
        = mkOutcome execution None
            (mkStream (dropNil (mapStreamEvents <$> events)) (Failed err)))
  /\ (forall state saved err,
        getState = Resolved state ->
        getCopilotCheckpoint (first_some (config state) (parentConfig state))
        = Resolved (Some saved) ->
        i18n_t "xpert.Error.RecursionLimitReached"
          (mapTranslationLanguage
             (if truthy_str language then default EmptyString language
              else if truthy_str preferredLanguage
                   then default EmptyString preferredLanguage
                   else "en-US"))
          (match agentConfig ≫= recursionLimit with
           | Some configured => configured
           | None => AgentRecursionLimit
           end)
        = Rejected err ->
        out_stream
          (execute AgentRecursionLimit mapTranslationLanguage i18n_t mapStreamEvents
             agentConfig language preferredLanguage graph getState getCopilotCheckpoint
             completeToolCalls execution)
        = mkStream (dropNil (mapStreamEvents <$> events)) (Failed err)).
Proof.
  intros Hgraph.
  assert (effectiveRecursionLimit AgentRecursionLimit agentConfig
          = match agentConfig ≫= recursionLimit with
            | Some configured => configured
            | None => AgentRecursionLimit
            end) as Hlimit.
  { unfold effectiveRecursionLimit. destruct (agentConfig ≫= recursionLimit); reflexivity. }
  assert (languageCode language preferredLanguage
          = if truthy_str language then default EmptyString language
            else if truthy_str preferredLanguage then default EmptyString preferredLanguage
            else "en-US") as Hlang.
  { unfold languageCode, render.
    destruct language as [l|], preferredLanguage as [q|]; simpl;
      repeat (destruct (negb _)); reflexivity. }
  unfold execute, contentStream, onStreamError, recordLastState.
  rewrite Hlimit, Hlang, Hgraph. cbn [ending emitted].
  split; [|split].
  - intros state saved translation -> Hsaved Ht. rewrite Hsaved, Ht.
    unfold recorded. destruct (pendingWrites saved) as [[|w ws]|]; reflexivity.
  - intros err [-> | [(state & -> & Hsaved) | (state & -> & Hsaved & ->)]].
    + reflexivity.
    + rewrite Hsaved. reflexivity.
    + rewrite Hsaved. reflexivity.
  - intros state saved err -> Hsaved Ht. rewrite Hsaved, Ht. reflexivity.
Qed.

End Handler.

(** C8, as amended. When the client unsubscribes, the abort signal is
    triggered, and, when the state and the checkpoints can be read, the
    execution is upserted with the status ERROR and the error text
    "Aborted!"; when they cannot be read nothing is recorded. *)
Theorem unsubscribe_records execution getState checkpoints runner :
  aborted (unsubscribe execution getState checkpoints runner) = true
  /\ (forall state cps,
        getState = Ok state -> checkpoints = Ok cps ->
        upserts (unsubscribe execution getState checkpoints runner)
        = upserts runner
          ++ [{| up_id := id execution;
                 up_checkpointId :=
                   first_some (config state ≫= checkpoint_id)
                              (head cps ≫= ref_checkpoint_id);
                 up_status := ERROR;
                 up_error := Some "Aborted!" |}])
  /\ (forall e,
        getState = Throw e \/ checkpoints = Throw e ->
        upserts (unsubscribe execution getState checkpoints runner) = upserts runner).
Proof.
  unfold unsubscribe. repeat split.
  - destruct getState, checkpoints, (aborted runner); reflexivity.
  - intros state cps -> ->. reflexivity.
  - intros e [-> | ->]; [reflexivity|]. destruct getState; reflexivity.
Qed.

(** The model loops for ever under recursionLimit = 4, for a user whose
    preferred language is zh-Hans and a request that names no language: four
    steps are streamed, the run ends with the error translated for zh-Hans,
    and the execution holds the last checkpoint. *)
Lemma execute_recursion_limit_witness :
  execute 25%Z (fun lang => lang) Examples.translate (fun e : string => Some e)
    Examples.limit_4 None (Some "zh-Hans") Examples.looping_graph
    (Resolved Examples.snapshot) Examples.checkpoint_saver Examples.no_operation
    Examples.execution_1
  = mkOutcome (mkExecution "exec-1" (Some EmptyString) (Some "cp-4") None) None
      (mkStream ["step"; "step"; "step"; "step"]
         (Failed (PlainError "xpert.Error.RecursionLimitReached@zh-Hans:4"))).
Proof.
  apply (proj1 (@execute_recursion_limit 25%Z (fun lang => lang) Examples.translate
                  string string unit (fun e => Some e) Examples.limit_4 None
                  (Some "zh-Hans") Examples.looping_graph (Resolved Examples.snapshot)
                  Examples.checkpoint_saver Examples.no_operation
                  Examples.execution_1 ["step"; "step"; "step"; "step"]
                  "Recursion limit reached" eq_refl)
               Examples.snapshot Examples.saved_checkpoint
               "xpert.Error.RecursionLimitReached@zh-Hans:4" eq_refl eq_refl eq_refl).
Defined.

(** The same run when the state of the graph cannot be read in the error
    handler: the run ends with the error of the read, which is not the
    translated one, and the execution holds no checkpoint. *)
Lemma execute_recursion_limit_counterexample :
  execute 25%Z (fun lang => lang) Examples.translate (fun e : string => Some e)
    Examples.limit_4 None (Some "zh-Hans") Examples.looping_graph
    (Rejected (PlainError "connection lost")) Examples.checkpoint_saver
    Examples.no_operation Examples.execution_1
  = mkOutcome (mkExecution "exec-1" None None None) None
      (mkStream ["step"; "step"; "step"; "step"]
         (Failed (PlainError "connection lost")))
  /\ Examples.translate "xpert.Error.RecursionLimitReached" "zh-Hans" 4
     = Resolved "xpert.Error.RecursionLimitReached@zh-Hans:4".
Proof. split; reflexivity. Qed.

(** The client leaves a running run: the signal is triggered and the
    execution is upserted with the status ERROR. *)
Lemma unsubscribe_records_witness :
  unsubscribe Examples.execution_1 (Ok Examples.snapshot) (Ok [])
    (mkRunner false [])
  = mkRunner true [mkExecutionUpsert "exec-1" (Some "cp-4") ERROR (Some "Aborted!")].
Proof.
  destruct (unsubscribe_records Examples.execution_1 (Ok Examples.snapshot) (Ok [])
              (mkRunner false [])) as (Haborted & Hupserts & _).
  specialize (Hupserts Examples.snapshot [] eq_refl eq_refl).
  destruct (unsubscribe _ _ _ _) as [a u]. simpl in *. subst a u. reflexivity.
Defined.

(** The status recorded when the client leaves is ERROR, with the error text
    "Aborted!"; it is not the status ABORTED of the claim. *)
Lemma unsubscribe_records_counterexample :
  up_status <$> upserts (unsubscribe Examples.execution_1 (Ok Examples.snapshot) (Ok [])
                           (mkRunner false []))
  = [ERROR]
  /\ ERROR <> ABORTED.
Proof. split; [reflexivity|discriminate]. Qed.

End InvokeProps.

(** ** Further properties of the tool node *)

Module ToolNodeMore.
Import ToolNode ToolNodeProps.

(** The calls that [run] executes: the call carried by the state, or else the
    tool calls of the last AI message. *)
Definition executedCalls (input : Input) (ai : AIMessage) : list ToolCall :=
  match input_toolCall input with
  | Some c => [c]
  | None => default [] (ai_tool_calls ai)
  end.

Section WithStringify.
Context `{Stringify}.

(** The events of the calls whose [try] block throws. *)
Definition errorEvents (node : Node) (input : Input) (messages : list BaseMessage)
    (calls : list ToolCall) : list Event :=
  flat_map (fun call =>
              match tryCall node input messages call with
              | Throw e => [mkEvent ON_TOOL_ERROR call (getErrorMessage e)]
              | Ok _ => []
              end) calls.





(** Without rejections the run of one call is its error event, if any, and
    an output. *)
Lemma runCall_recovers node input messages call :
  handleToolErrors node = true ->
  (forall e, tryCall node input messages call = Throw e -> isGraphInterrupt e = false) ->
  exists output,
    runCall node input messages call
    = (errorEvents node input messages [call], Ok output).
Proof.
  intros Hh Hcall. unfold runCall, errorEvents. cbn [flat_map].
  destruct (tryCall node input messages call) as [o|e] eqn:Htry.
  - eexists. reflexivity.
  - rewrite Hh, (Hcall e eq_refl). cbn [negb]. eexists. reflexivity.
Qed.

Lemma collect_resolved {A} (settled : list (Res A)) :
  Forall (fun r => exists a, r = Ok a) settled ->
  exists values, collect settled = Ok values.
Proof.
  induction 1 as [|r settled (a & ->) _ (values & IH)]; cbn [collect].
  - eexists. reflexivity.
  - rewrite IH. eexists. reflexivity.
Qed.

Lemma errorEvents_cons node input messages call calls :
  errorEvents node input messages (call :: calls)
  = errorEvents node input messages [call] ++ errorEvents node input messages calls.
Proof. unfold errorEvents. cbn [flat_map]. rewrite app_nil_r. reflexivity. Qed.

Lemma runAll_recovers node input messages order calls :
  handleToolErrors node = true ->
  Forall (fun call => forall e, tryCall node input messages call = Throw e ->
                                isGraphInterrupt e = false) calls ->
  exists outputs,
    runAll node input messages order calls
    = (errorEvents node input messages (inOrder order calls), Ok outputs).
Proof.
  intros Hh Hcalls. unfold runAll.
  assert (forall cs,
            Forall (fun call => forall e, tryCall node input messages call = Throw e ->
                                          isGraphInterrupt e = false) cs ->
            concat (fst <$> (runCall node input messages <$> cs))
            = errorEvents node input messages cs
            /\ Forall (fun r => exists a, r = Ok a)
                      (snd <$> (runCall node input messages <$> cs))) as Hall.
  { induction 1 as [|c cs Hc _ [IHe IHr]]; [split; [reflexivity|constructor]|].
    destruct (runCall_recovers node input messages c Hh Hc) as (o & Ho).
    rewrite !fmap_cons, Ho. cbn [fst snd concat]. rewrite IHe.
    split; [symmetry; apply errorEvents_cons|].
    constructor; [eexists; reflexivity|exact IHr]. }
  assert (inOrder order (runCall node input messages <$> calls)
          = runCall node input messages <$> inOrder order calls) as ->.
  { unfold inOrder. induction order as [|i order IH]; [reflexivity|].
    cbn [omap list_omap]. rewrite list_lookup_fmap, IH.
    destruct (calls !! i); reflexivity. }
  assert (Forall (fun call => forall e, tryCall node input messages call = Throw e ->
                                        isGraphInterrupt e = false) (inOrder order calls))
    as Hordered.
  { apply Forall_forall. intros c Hc. unfold inOrder in Hc.
    apply list_elem_of_omap in Hc as (i & _ & Hi).
    apply (proj1 (Forall_forall _ _) Hcalls). apply (list_elem_of_lookup_2 _ i). exact Hi. }
  destruct (Hall _ Hordered) as [-> Hresolved].
  destruct (collect_resolved _ Hresolved) as (values & ->).
  destruct (Hall _ Hcalls) as [_ Hresolved'].
  destruct (collect_resolved _ Hresolved') as (outputs & ->).
  exists outputs. reflexivity.
Qed.

(** The calls taken in an order that lists every position once are the
    calls, up to their order. *)
Lemma inOrder_Permutation {A} (order : list nat) (xs : list A) :
  order ≡ₚ seq 0 (length xs) -> inOrder order xs ≡ₚ xs.
Proof.
  intros Hperm. unfold inOrder. rewrite Hperm. clear Hperm order.
  assert (forall k, omap (fun i => xs !! i) (seq k (length xs - k)) = drop k xs) as Hseq.
  { intros k. remember (length xs - k) as n eqn:Hn. revert k Hn.
    induction n as [|n IH]; intros k Hn; cbn [seq omap list_omap].
    - rewrite drop_ge by lia. reflexivity.
    - destruct (xs !! k) as [x|] eqn:Hk.
      + rewrite IH by lia. symmetry. apply drop_S. exact Hk.
      + apply lookup_ge_None in Hk. lia. }
  specialize (Hseq 0). rewrite Nat.sub_0_r in Hseq. rewrite Hseq. reflexivity.
Qed.

(** X2. With handleToolErrors on, and as long as no call throws a graph
    interrupt, [run] never rejects once the last message is an AI message:
    every failure is turned into an output, and the on_tool_error events are
    those of the failed calls, in the order in which the calls settle. When
    that order lists every call once, this is exactly one event per failed
    call. *)
Theorem run_recovers node input order ai :
  input_messages node input ≫= last = Some (MsgAI ai) ->
  handleToolErrors node = true ->
  Forall (fun call =>
            forall e,
              tryCall node input (default [] (input_messages node input)) call = Throw e ->
              isGraphInterrupt e = false)
         (executedCalls input ai) ->
  (exists result,
     run node input order
     = (errorEvents node input (default [] (input_messages node input))
                    (inOrder order (executedCalls input ai)),
        Ok result))
  /\ (order ≡ₚ seq 0 (length (executedCalls input ai)) ->
      errorEvents node input (default [] (input_messages node input))
                  (inOrder order (executedCalls input ai))
      ≡ₚ errorEvents node input (default [] (input_messages node input))
                     (executedCalls input ai)).
Proof.
  intros Hlast Hh Hcalls. split.
  - unfold run. rewrite Hlast.
    assert (default [] (match input_toolCall input with
                        | Some c => Some [c]
                        | None => ai_tool_calls ai
                        end) = executedCalls input ai) as ->.
    { unfold executedCalls. destruct (input_toolCall input); reflexivity. }
    destruct (runAll_recovers node input _ order _ Hh Hcalls) as (outputs & ->).
    cbn [bind]. destruct (negb (existsb isCommand outputs)); eexists; reflexivity.
  - intros Hperm. unfold errorEvents.
    apply Permutation_flat_map, inOrder_Permutation. exact Hperm.
Qed.

(** X3. A call that names a tool the node does not hold: with
    handleToolErrors on, the node answers with the error message
    'Tool "name" not found.' for that call and dispatches one event; with
    handleToolErrors off, that error is thrown. No tool is invoked. *)
Theorem runCall_unknown_tool node input messages call :
  List.find (fun t => String.eqb (name t) (tc_name call)) (tools node) = None ->
  runCall node input messages call
  = if handleToolErrors node then
      ([mkEvent ON_TOOL_ERROR call
          (Some ("Tool " +:+ dquote +:+ tc_name call +:+ dquote +:+ " not found."))],
       Ok (NodeCommand
             {| update :=
                  Some (UpdateObject
                          (errorUpdate node
                             {| tm_content :=
                                  JStr ("Error: "
                                        +:+ ("Tool " +:+ dquote +:+ tc_name call +:+ dquote
                                             +:+ " not found.")
                                        +:+ newline +:+ " Please fix your mistakes.");
                                tm_name := Some (tc_name call);
                                tm_tool_call_id := Some (default EmptyString (tc_id call));
                                tm_status := None;
                                tm_artifact := None |}));
                goto := None |}))
    else
      ([], Throw (Error ("Tool " +:+ dquote +:+ tc_name call +:+ dquote +:+ " not found."))).
Proof.
  intros Hfind. unfold runCall, tryCall. rewrite Hfind.
  destruct (handleToolErrors node); cbn [negb isGraphInterrupt]; [|reflexivity].
  reflexivity.
Qed.

(** X4. Whatever the tool or the middleware hands back, a tool message that
    leaves the [try] block has a string content, or else a falsy one (null,
    false, 0): truthy contents that are not strings are stringified. *)
Theorem tryCall_string_content node input messages call m :
  tryCall node input messages call = Ok (NodeMessage m) ->
  (exists s, tm_content m = JStr s) \/ truthy (tm_content m) = false.
Proof.
  unfold tryCall.
  destruct (List.find _ (tools node)) as [t|]; [|discriminate].
  destruct (match wrapToolCall node with
            | Some wrap => wrap _ (defaultHandler node t)
            | None => defaultHandler node t _
            end) as [[m0|c|v]|e]; cbn [bind]; try discriminate.
  - destruct (variables node); [discriminate|]. intros [= <-].
    destruct (tm_content m0) as [|[|]|z|s|items|fields] eqn:Hc; simpl;
      rewrite ?andb_false_r, ?Hc;
      try (left; eexists; reflexivity); try (right; reflexivity).
    destruct (z =? 0)%Z eqn:Hz; simpl; rewrite ?Hc; simpl; rewrite ?Hz;
      [right; reflexivity|left; eexists; reflexivity].
  - destruct (migrate node c); discriminate.
  - intros [= <-]. left. destruct v; eexists; reflexivity.
Qed.

End WithStringify.

(** A call to a tool that the node of [Examples.node_of] does not hold. *)
Definition sub_call : ToolCall :=
  mkToolCall (Some "t2") "sub" (JObj [("a", JNum 2)]) None.


(** Two calls to a tool that throws, the second of which settles first: the
    run resolves, and the event of the second call comes first. *)
Definition add_call_2 : ToolCall :=
  mkToolCall (Some "t2") "add" (JObj [("a", JNum 1); ("b", JNum 1)]) None.

Definition input_two_calls : Input :=
  InputArray [MsgAI (mkAIMessage (Some "m1") (JStr EmptyString)
                                 (Some [Examples.add_call; add_call_2]))].

Lemma run_recovers_witness :
  exists result,
    run (H := Examples.example_stringify)
        (Examples.node_of Examples.failing_tool (Some true)) input_two_calls [1; 0]
    = ([mkEvent ON_TOOL_ERROR add_call_2 (Some "boom");
        mkEvent ON_TOOL_ERROR Examples.add_call (Some "boom")], Ok result).
Proof.
  apply (run_recovers (H := Examples.example_stringify)
           (Examples.node_of Examples.failing_tool (Some true)) input_two_calls [1; 0]
           (mkAIMessage (Some "m1") (JStr EmptyString)
                        (Some [Examples.add_call; add_call_2]))).
  - reflexivity.
  - reflexivity.
  - repeat constructor; intros e He; vm_compute in He; injection He as <-; reflexivity.
Defined.

Lemma runCall_unknown_tool_witness :
  (runCall (H := Examples.example_stringify)
           (Examples.node_of Examples.add_tool (Some false)) (InputArray []) [] sub_call).2
  = Throw (Error ("Tool " +:+ dquote +:+ "sub" +:+ dquote +:+ " not found.")).
Proof.
  rewrite (runCall_unknown_tool (H := Examples.example_stringify)
             (Examples.node_of Examples.add_tool (Some false)) (InputArray []) [] sub_call
             eq_refl).
  reflexivity.
Defined.

Lemma tryCall_string_content_witness :
  exists m,
    tryCall (H := Examples.example_stringify)
            (Examples.node_of Examples.add_tool None)
            (Examples.input_add Examples.add_call)
            [Examples.ai_add Examples.add_call] Examples.add_call
    = Ok (NodeMessage m)
    /\ ((exists s, tm_content m = JStr s) \/ truthy (tm_content m) = false).
Proof.
  eexists. split; [reflexivity|].
  apply (tryCall_string_content (H := Examples.example_stringify)
           (Examples.node_of Examples.add_tool None)
           (Examples.input_add Examples.add_call)
           [Examples.ai_add Examples.add_call] Examples.add_call).
  reflexivity.
Defined.

Lemma match_messages {A} (o : option string) (x y : A) :
  match o with
  | Some "messages" => x
  | _ => y
  end = if decide (o = Some "messages") then x else y.
Proof.
  destruct (decide (o = Some "messages")) as [->|Hne]; [reflexivity|].
  destruct o as [s|]; [|reflexivity].
  repeat (match goal with
          | |- context [match ?v with _ => _ end] =>
              is_var v; destruct v; try reflexivity
          end).
  congruence.
Qed.

(** X5. A command handed back by a tool has its messages moved to the
    caller's channel. In the array form every entry keyed "messages" is
    re-keyed to the channel and wrapped as the channel's messages, the other
    entries and the order are kept, so that nothing is written under
    "messages" any more. In the object form the channel entry is added and
    every other key, "messages" included, keeps its value. A command without
    an update makes the migration throw. *)
Theorem migrate_messages node c :
  (forall entries,
     update c = Some (UpdateEntries entries) ->
     exists entries',
       migrate node c = Ok {| update := Some (UpdateEntries entries'); goto := goto c |}
       /\ length entries' = length entries
       /\ (forall i k v,
             entries !! i = Some (k, v) ->
             entries' !! i
             = Some (if decide (k = Some "messages")
                     then (channel node, SVAgentChannel v) else (k, v)))
       /\ (channel node <> Some "messages" ->
           Forall (fun e => e.1 <> Some "messages") entries'))
  /\ (forall fields,
        update c = Some (UpdateObject fields) ->
        exists fields',
          migrate node c = Ok {| update := Some (UpdateObject fields'); goto := goto c |}
          /\ fields' !! channel_key (channel node)
             = Some (SVAgentChannel (default SVUndefined (fields !! "messages")))
          /\ (forall k, k <> channel_key (channel node) -> fields' !! k = fields !! k))
  /\ (update c = None -> exists e, migrate node c = Throw e).
Proof.
  unfold migrate. repeat split.
  - intros entries ->. eexists. split; [reflexivity|]. split; [apply length_fmap|]. split.
    + intros i k v Hi. rewrite list_lookup_fmap, Hi. cbn [fmap option_fmap option_map].
      f_equal. apply (match_messages k).
    + intros Hch. apply Forall_fmap. apply Forall_true. intros [k v].
      cbn [compose]. rewrite (match_messages (k, v).1). cbn [fst snd].
      destruct (decide (k = Some "messages")); assumption.
  - intros fields ->. eexists. split; [reflexivity|]. split.
    + apply lookup_insert_eq.
    + intros k Hk. apply lookup_insert_ne. congruence.
  - intros ->. eexists. reflexivity.
Qed.

End ToolNodeMore.

(** ** Properties of the navigator *)

Module NavigatorProps.
Import ToolNode Navigator ToolNodeMore.

Lemma toolSends_spec agentChannel state calls :
  toolSends agentChannel state calls
  = if forallb (fun c => truthy_str (Some (tc_name c))) calls
    then Ok ((fun c => mkSend (tc_name c) (withToolCall state c)) <$> calls)
    else Throw (empty_name agentChannel).
Proof.
  induction calls as [|c calls IH]; [reflexivity|].
  cbn [toolSends forallb]. destruct (truthy_str (Some (tc_name c))); [|reflexivity].
  cbn [negb andb]. rewrite IH.
  destruct (forallb _ calls); reflexivity.
Qed.

Section WithChannelState.
Variable getChannelState : State -> string -> option SubState.

Definition channelMessages (state : State) (agentChannel : string) : list BaseMessage :=
  default [] (getChannelState state agentChannel ≫= sub_messages).

Definition channelError (state : State) (agentChannel : string) : bool :=
  truthy_opt (getChannelState state agentChannel ≫= sub_error).

(** X6. When the last message of the agent's channel is an AI message with
    tool calls, the navigator routes to the tools and to nothing else: one
    [Send] per tool call, in the order of the calls, each to the node named
    after its call and carrying the state with that call as [toolCall]. If a
    call has an empty name the navigator throws instead. The exit node, the
    next nodes, the fail node, the summary settings and a recorded error play
    no part. *)
Theorem navigator_tool_calls agentChannel summarize summarizeTitle nextNodes fail exitNode
    state ai calls :
  last (channelMessages state agentChannel) = Some (MsgAI ai) ->
  ai_tool_calls ai = Some calls ->
  calls <> [] ->
  createAgentNavigator getChannelState agentChannel summarize summarizeTitle nextNodes fail
    exitNode state
  = if forallb (fun c => truthy_str (Some (tc_name c))) calls
    then Ok (RouteSends ((fun c => mkSend (tc_name c) (withToolCall state c)) <$> calls))
    else Throw (empty_name agentChannel).
Proof.
  unfold channelMessages, createAgentNavigator. intros -> -> Hcalls.
  destruct calls as [|c calls]; [congruence|].
  cbn [length Nat.eqb default from_option id]. rewrite toolSends_spec.
  destruct (forallb _ (c :: calls)); reflexivity.
Qed.

(** X8. Once an error is recorded in the agent's channel and its last message
    is an AI message, the next nodes have no influence on the route: the
    navigator answers as if none were configured. *)
Theorem navigator_error_skips_next agentChannel summarize summarizeTitle nextNodes fail
    exitNode state ai :
  last (channelMessages state agentChannel) = Some (MsgAI ai) ->
  channelError state agentChannel = true ->
  createAgentNavigator getChannelState agentChannel summarize summarizeTitle nextNodes fail
    exitNode state
  = createAgentNavigator getChannelState agentChannel summarize summarizeTitle None fail
      exitNode state.
Proof.
  unfold channelMessages, channelError, createAgentNavigator. intros -> ->.
  destruct nextNodes as [[names|f]|]; reflexivity.
Qed.

(** X9. With an exit node configured the navigator has two answers only: the
    [Send]s of the tool calls of the last AI message, or the exit node. It
    never ends the graph, and never schedules the summary, the title, the
    next nodes or the fail node. *)
Theorem navigator_exit_node agentChannel summarize summarizeTitle nextNodes fail exitNode
    state route :
  truthy_str (Some exitNode) = true ->
  createAgentNavigator getChannelState agentChannel summarize summarizeTitle nextNodes fail
    (Some exitNode) state = Ok route ->
  route = RouteNode exitNode
  \/ exists ai calls,
       last (channelMessages state agentChannel) = Some (MsgAI ai)
       /\ ai_tool_calls ai = Some calls
       /\ calls <> []
       /\ route = RouteSends ((fun c => mkSend (tc_name c) (withToolCall state c)) <$> calls).
Proof.
  intros Hexit. unfold createAgentNavigator. fold (channelMessages state agentChannel).
  rewrite Hexit.
  destruct (last (channelMessages state agentChannel)) as [[ai| | |]|] eqn:Hlast;
    try (intros [= <-]; left; reflexivity).
  destruct (ai_tool_calls ai) as [[|c calls]|] eqn:Hcalls;
    try (intros [= <-]; left; reflexivity).
  cbn [length Nat.eqb default from_option id]. rewrite toolSends_spec.
  destruct (forallb _ (c :: calls)); [|discriminate].
  intros [= <-]. right. exists ai, (c :: calls). repeat split; congruence.
Qed.

(** What [ToolNode.run] makes of the output of a single call on a state. *)
Definition singleResult (node : Node) (o : NodeOutput) : RunResult :=
  match o with
  | NodeCommand c => ResultCombined [ItemCommand c]
  | NodeMessage m => ResultState (stateUpdate node [m])
  end.

Lemma input_messages_withToolCall `{Stringify} node state call :
  input_messages node (InputState (graph (withToolCall state call)))
  = input_messages node (InputState (graph state)).
Proof. reflexivity. Qed.

Lemma run_toolCall `{Stringify} node g ai call :
  input_messages node (InputState g) ≫= last = Some (MsgAI ai) ->
  st_toolCall g = Some call ->
  run node (InputState g) [0]
  = ((runCall node (InputState g) (default [] (input_messages node (InputState g))) call).1,
     o <- (runCall node (InputState g) (default [] (input_messages node (InputState g)))
             call).2 ;;
     Ok (singleResult node o)).
Proof.
  intros Hlast Hcall. unfold run. rewrite Hlast. cbn [input_toolCall]. rewrite Hcall.
  cbn [default from_option id]. unfold runAll, inOrder.
  cbn [fmap list_fmap omap list_omap lookup list_lookup].
  destruct (runCall node (InputState g) _ call) as [ev [[m|c]|e]];
    cbn [fst snd bind concat collect]; rewrite app_nil_r; reflexivity.
Qed.

(** X7. The navigator and the tool nodes fit together: when the navigator
    routes the tool calls of the last AI message, the i-th [Send] goes to the
    node named after the i-th call, and a tool node that reads the same AI
    message runs, on the state of that [Send], that one call and no other
    (a single call settles in one order only): its events are those of the
    call, and its result is the single output of the call, or the call's
    rejection. *)
Theorem navigator_send_runs_its_call `{Stringify} agentChannel summarize summarizeTitle
    nextNodes fail exitNode state ai calls sends node i s :
  last (channelMessages state agentChannel) = Some (MsgAI ai) ->
  ai_tool_calls ai = Some calls ->
  calls <> [] ->
  createAgentNavigator getChannelState agentChannel summarize summarizeTitle nextNodes fail
    exitNode state = Ok (RouteSends sends) ->
  sends !! i = Some s ->
  input_messages node (InputState (graph state)) ≫= last = Some (MsgAI ai) ->
  exists call,
    calls !! i = Some call
    /\ send_node s = tc_name call
    /\ run node (InputState (graph (send_state s))) [0]
       = ((runCall node (InputState (graph (send_state s)))
             (default [] (input_messages node (InputState (graph state)))) call).1,
          o <- (runCall node (InputState (graph (send_state s)))
                  (default [] (input_messages node (InputState (graph state)))) call).2 ;;
          Ok (singleResult node o)).
Proof.
  unfold channelMessages, createAgentNavigator. intros -> -> Hcalls.
  destruct calls as [|c calls]; [congruence|]. clear Hcalls.
  cbn [length Nat.eqb default from_option id]. rewrite toolSends_spec.
  destruct (forallb _ (c :: calls)); [|discriminate].
  intros Hroute Hs Hlast. unfold bind in Hroute.
  assert (sends = (fun c => mkSend (tc_name c) (withToolCall state c)) <$> (c :: calls))
    as -> by congruence.
  rewrite list_lookup_fmap in Hs.
  destruct ((c :: calls) !! i) as [call|] eqn:Hcall; [|discriminate].
  injection Hs as <-. exists call. split; [reflexivity|]. split; [reflexivity|].
  cbn [send_state].
  rewrite (run_toolCall node (graph (withToolCall state call)) ai call) by
    (try rewrite input_messages_withToolCall; first [exact Hlast|reflexivity]).
  rewrite input_messages_withToolCall. reflexivity.
Qed.

End WithChannelState.

(** A channel reader for the examples: the channel of the state under its
    name, with a given error. *)
Definition example_getChannelState (error : option Json) (state : State)
    (agentChannel : string) : option SubState :=
  (fun cv => mkSubState (ch_messages cv) error) <$> st_channels (graph state) !! agentChannel.

Definition state_of (messages : list BaseMessage) : State :=
  mkState (mkGraphState {[ "agent_1_channel" := mkChannelValue (Some messages) ]}
                        (Some messages) None)
          None.

Definition ai_add_message : AIMessage :=
  mkAIMessage (Some "m1") (JStr EmptyString) (Some [Examples.add_call]).

Definition ai_done : AIMessage := mkAIMessage (Some "m2") (JStr "done") (Some []).

Lemma navigator_tool_calls_witness :
  createAgentNavigator (example_getChannelState (Some (JStr "boom"))) "agent_1_channel" None
    true (Some (NextArray ["next"])) (Some "fail") (Some "exit")
    (state_of [MsgAI ai_add_message])
  = Ok (RouteSends [mkSend "add" (withToolCall (state_of [MsgAI ai_add_message])
                                               Examples.add_call)]).
Proof.
  apply (navigator_tool_calls (example_getChannelState (Some (JStr "boom")))
           "agent_1_channel" None true (Some (NextArray ["next"])) (Some "fail")
           (Some "exit") (state_of [MsgAI ai_add_message]) ai_add_message
           [Examples.add_call] eq_refl eq_refl).
  discriminate.
Defined.

Lemma navigator_send_runs_its_call_witness :
  (run (H := Examples.example_stringify) (Examples.node_of Examples.add_tool None)
       (InputState (graph (withToolCall (state_of [MsgAI ai_add_message])
                                        Examples.add_call))) [0]).2
  = Ok (ResultState
          (stateUpdate (Examples.node_of Examples.add_tool None)
             [mkToolMessage (JStr "5") (Some "add") (Some "t1") None None])).
Proof.
  destruct (navigator_send_runs_its_call (H := Examples.example_stringify)
              (example_getChannelState None) "agent_1_channel" None false None None None
              (state_of [MsgAI ai_add_message]) ai_add_message [Examples.add_call]
              [mkSend "add" (withToolCall (state_of [MsgAI ai_add_message])
                                          Examples.add_call)]
              (Examples.node_of Examples.add_tool None) 0
              (mkSend "add" (withToolCall (state_of [MsgAI ai_add_message])
                                          Examples.add_call))
              eq_refl eq_refl ltac:(discriminate) eq_refl eq_refl eq_refl)
    as (call & Hcall & _ & Hrun).
  injection Hcall as <-. cbn [send_state] in Hrun. rewrite Hrun. reflexivity.
Defined.

Lemma navigator_error_skips_next_witness :
  createAgentNavigator (example_getChannelState (Some (JStr "boom"))) "agent_1_channel" None
    false (Some (NextArray ["next"])) (Some "fail") None (state_of [MsgAI ai_done])
  = Ok (RouteNode "fail").
Proof.
  rewrite (navigator_error_skips_next (example_getChannelState (Some (JStr "boom")))
             "agent_1_channel" None false (Some (NextArray ["next"])) (Some "fail") None
             (state_of [MsgAI ai_done]) ai_done eq_refl eq_refl).
  reflexivity.
Defined.

Lemma navigator_exit_node_witness :
  RouteNode "exit" = RouteNode "exit"
  \/ exists ai calls,
       last (channelMessages (example_getChannelState None) (state_of [MsgAI ai_done])
                             "agent_1_channel") = Some (MsgAI ai)
       /\ ai_tool_calls ai = Some calls
       /\ calls <> []
       /\ RouteNode "exit"
          = RouteSends ((fun c => mkSend (tc_name c)
                                         (withToolCall (state_of [MsgAI ai_done]) c))
                          <$> calls).
Proof.
  apply (navigator_exit_node (example_getChannelState None) "agent_1_channel" None true
           (Some (NextArray ["next"])) (Some "fail") "exit" (state_of [MsgAI ai_done])
           (RouteNode "exit") eq_refl eq_refl).
Defined.

End NavigatorProps.

(** ** The jumpTo directive of a hook and the route after it *)

Module JumpToProps.
Import ToolNode Navigator AfterModelNode Hitl HitlSpec.

(** The channel of the agent "Agent_1" when the review of "dangerous" is
    resumed, and the same channel after the node of the hook has run and the
    reducer has taken its update. *)
Definition channel_before : SubState :=
  mkSubState (Some [MsgHuman (JStr "go"); MsgAI Examples.ai_dangerous]) None.

Definition rejection : ToolMessage :=
  mkToolMessage (JStr "nope") (Some "dangerous") (Some "t9") (Some "error") None.

Definition messages_after : list BaseMessage :=
  [MsgHuman (JStr "go"); MsgAI Examples.ai_dangerous; MsgTool rejection].

(** Where the navigator goes when the last message of the channel is not an
    AI message: to the exit node, else to the next nodes, else to the end.
    It reads nothing else, and it never answers with the node of the
    model unless that node is its exit node or one of its next nodes. *)
Lemma navigator_after_tool_message getChannelState agentChannel summarize summarizeTitle
    nextNodes fail exitNode state messages m :
  getChannelState state agentChannel ≫= sub_messages = Some messages ->
  last messages = Some (MsgTool m) ->
  createAgentNavigator getChannelState agentChannel summarize summarizeTitle nextNodes fail
    exitNode state
  = if truthy_str exitNode then Ok (RouteNode (default EmptyString exitNode))
    else match nextNodes with
         | Some (NextArray (name :: names)) =>
             Ok (RouteSends ((fun name => mkSend name state) <$> name :: names))
         | Some (NextFun f) => Ok (RouteSend (mkSend (f state) state))
         | _ => Ok (RouteNode END)
         end.
Proof.
  intros Hmessages Hlast. unfold createAgentNavigator. rewrite Hmessages.
  cbn [default from_option id]. rewrite Hlast.
  destruct (truthy_str exitNode); [reflexivity|].
  destruct nextNodes as [[[|name names]|f]|]; reflexivity.
Qed.

(** C1. The review of the call "dangerous" is resumed with the rejection
    "nope", which its configuration allows. The hook does what the claim
    says: it returns the AI message with the rejected call, the tool message
    with status "error" and content "nope", and jumpTo = "model". The node
    of the hook writes the two messages to the channel and assigns the
    directive to [config.jumpTo], which nothing reads. After the reducer the
    channel ends with the tool message, and the navigator of the decision
    node, which reads the channel only, goes to the end of the graph (or to
    its exit node or next nodes when it has any): the model is not entered
    again. *)
Theorem rejection_not_routed_to_model :
  afterModel (H := Examples.example_stringify) (parser := Examples.example_parser)
    Examples.options_approve_reject None
    (mkAgentState [MsgHuman (JStr "go"); MsgAI Examples.ai_dangerous])
    (Some (mkHITLResponse (DecisionsArray [Examples.reject_nope])))
  = Ok (Some {| hr_messages := [MsgAI Examples.ai_dangerous; MsgTool rejection];
                hr_jumpTo := Some "model" |})
  /\ createAfterModelNode
       (Some (hitlHandler (H := Examples.example_stringify) (H0 := Examples.example_parser)
                Examples.options_approve_reject None
                (Some (mkHITLResponse (DecisionsArray [Examples.reject_nope])))))
       false (Some channel_before) None
     = Ok {| written := Some (mkSubState (Some [MsgAI Examples.ai_dangerous;
                                                MsgTool rejection]) None);
             config_jumpTo := Some "model" |}
  /\ channelReducer Examples.example_messagesStateReducer channel_before
       (Some (mkSubState (Some [MsgAI Examples.ai_dangerous; MsgTool rejection]) None))
     = mkSubState (Some messages_after) None
  /\ (forall summarize summarizeTitle fail,
        createAgentNavigator (NavigatorProps.example_getChannelState None)
          "agent_1_channel" summarize summarizeTitle None fail None
          (NavigatorProps.state_of messages_after)
        = Ok (RouteNode END))
  /\ (forall summarize summarizeTitle fail nextNodes exitNode route,
        createAgentNavigator (NavigatorProps.example_getChannelState None)
          "agent_1_channel" summarize summarizeTitle nextNodes fail exitNode
          (NavigatorProps.state_of messages_after)
        = Ok route ->
        route = RouteNode END
        \/ (truthy_str exitNode = true /\ route = RouteNode (default EmptyString exitNode))
        \/ (exists names,
              nextNodes = Some (NextArray names)
              /\ route = RouteSends ((fun name => mkSend name
                                                   (NavigatorProps.state_of messages_after))
                                       <$> names))
        \/ (exists f,
              nextNodes = Some (NextFun f)
              /\ route = RouteSend (mkSend (f (NavigatorProps.state_of messages_after))
                                           (NavigatorProps.state_of messages_after)))).
Proof.
  split; [vm_compute; reflexivity|]. split; [vm_compute; reflexivity|].
  split; [vm_compute; reflexivity|].
  assert (forall summarize summarizeTitle nextNodes fail exitNode,
            createAgentNavigator (NavigatorProps.example_getChannelState None)
              "agent_1_channel" summarize summarizeTitle nextNodes fail exitNode
              (NavigatorProps.state_of messages_after)
            = if truthy_str exitNode then Ok (RouteNode (default EmptyString exitNode))
              else match nextNodes with
                   | Some (NextArray (name :: names)) =>
                       Ok (RouteSends ((fun name => mkSend name
                                                      (NavigatorProps.state_of messages_after))
                                         <$> name :: names))
                   | Some (NextFun f) =>
                       Ok (RouteSend (mkSend (f (NavigatorProps.state_of messages_after))
                                             (NavigatorProps.state_of messages_after)))
                   | _ => Ok (RouteNode END)
                   end) as Hroute.
  { intros summarize summarizeTitle nextNodes fail exitNode.
    apply (navigator_after_tool_message _ _ _ _ _ _ _ _ messages_after rejection);
      reflexivity. }
  split.
  - intros summarize summarizeTitle fail. rewrite Hroute. reflexivity.
  - intros summarize summarizeTitle fail nextNodes exitNode route. rewrite Hroute.
    destruct (truthy_str exitNode).
    + intros [= <-]. right. left. split; reflexivity.
    + destruct nextNodes as [[[|name names]|f]|]; intros [= <-].
      * left. reflexivity.
      * right. right. left. eexists. split; reflexivity.
      * right. right. right. eexists. split; reflexivity.
      * left. reflexivity.
Qed.

End JumpToProps.

(** ** More on the human-in-the-loop hook (hitl.ts) *)

Module HitlMore.
Import Hitl HitlSpec HitlProps.

(** A tool call is put under review when [interruptOn] matches it, and also
    when it is named like a member of [Object.prototype]. *)
Definition underReview (on : gmap string InterruptOn) (toolCall : ToolCall) : bool :=
  reviewed on toolCall || includes (tc_name toolCall) prototype_names.

(** The tool calls of the last AI message that are under review. *)
Definition reviewedCalls (config : Config) (state : AgentState) : list ToolCall :=
  match lastAIMessage (messages state), interruptOn config with
  | Some lastMessage, Some on =>
      List.filter (underReview on) (default [] (ai_tool_calls lastMessage))
  | _, _ => []
  end.

(** The error that the description factory of the call throws, if it does. *)
Definition factoryError (state : AgentState) (resolved : gmap string InterruptOnConfig)
    (toolCall : ToolCall) : option UserError :=
  match lookupConfig resolved (tc_name toolCall) ≫= resolved_description with
  | Some (DescriptionFactory f) =>
      match f toolCall (messages state) with
      | inl e => Some e
      | inr _ => None
      end
  | _ => None
  end.

(** The calls that the accepted decisions leave, in the order of the review. *)
Definition revisedCalls (resolved : gmap string InterruptOnConfig) (ds : list Decision)
    (calls : list ToolCall) : list ToolCall :=
  (fun p : Decision * ToolCall =>
     match resolved !! tc_name p.2 with
     | Some config => revisedCall config p.1 p.2
     | None => p.2
     end) <$> zip ds calls.

Lemma needsReview_underReview on c : needsReview (resolveConfigs on) c = underReview on c.
Proof. apply needsReview_reviewed. Qed.

Lemma filter_underReview on (calls : list ToolCall) :
  List.filter (needsReview (resolveConfigs on)) calls = List.filter (underReview on) calls.
Proof. apply List.filter_ext. intros c. apply needsReview_underReview. Qed.

Lemma describes_factoryError state resolved c :
  describes state resolved c = true <-> factoryError state resolved c = None.
Proof.
  unfold describes, factoryError.
  destruct (lookupConfig resolved (tc_name c) ≫= resolved_description) as [[s|f]|];
    try (split; reflexivity).
  destruct (f c (messages state)); split; try reflexivity; discriminate.
Qed.

Section WithStringify.
Context `{Stringify}.

(** The loop throws the error of the first description factory that fails. *)
Lemma createRequests_fails options resolved state (calls : list ToolCall) i c e :
  Forall (fun c => needsReview resolved c = true) calls ->
  calls !! i = Some c ->
  factoryError state resolved c = Some e ->
  (forall j c', j < i -> calls !! j = Some c' -> factoryError state resolved c' = None) ->
  createRequests options resolved state calls = Throw (thrown e).
Proof.
  intros Hall. revert i. induction Hall as [|x calls Hx _ IH]; intros i Hi He Hbefore;
    [discriminate|].
  cbn [createRequests]. destruct (needsReview_lookup _ _ Hx) as [config Hcfg].
  rewrite Hcfg. unfold createActionAndConfig. destruct i as [|i].
  - injection Hi as ->. unfold factoryError in He. rewrite Hcfg in He.
    cbn [mbind option_bind] in He.
    destruct (resolved_description config) as [[s|f]|]; try discriminate.
    destruct (f c (messages state)) as [e'|text]; [|discriminate].
    injection He as ->. reflexivity.
  - assert (factoryError state resolved x = None) as Hnone.
    { apply (Hbefore 0 x); [lia|reflexivity]. }
    unfold factoryError in Hnone. rewrite Hcfg in Hnone. cbn [mbind option_bind] in Hnone.
    rewrite (IH i Hi He) by (intros j c' Hj Hc'; apply (Hbefore (S j) c'); [lia|exact Hc']).
    destruct (resolved_description config) as [[s|f]|]; try reflexivity.
    destruct (f x (messages state)); [discriminate|reflexivity].
Qed.

Context {parser : Parser}.

Lemma afterModel_nothing options context state config resume :
  interopParse (mergeConfig options context) = Ok (Some config) ->
  reviewedCalls config state = [] ->
  afterModel options context state resume = Ok None.
Proof.
  unfold reviewedCalls, afterModel. intros ->. cbn [bind].
  destruct (messages state) as [|m ms]; [reflexivity|].
  destruct (lastAIMessage (m :: ms)) as [lastMessage|]; [|reflexivity].
  destruct (ai_tool_calls lastMessage) as [[|c calls]|]; try reflexivity.
  destruct (interruptOn config) as [on|]; [|reflexivity].
  cbn [default from_option id]. rewrite filter_underReview. intros ->. reflexivity.
Qed.

(** What the hook comes to, in terms of the calls under review. *)
Lemma afterModel_reviewed options context state config resume :
  interopParse (mergeConfig options context) = Ok (Some config) ->
  reviewedCalls config state <> [] ->
  exists lastMessage tool_calls on,
    lastAIMessage (messages state) = Some lastMessage
    /\ ai_tool_calls lastMessage = Some tool_calls
    /\ interruptOn config = Some on
    /\ reviewedCalls config state = List.filter (needsReview (resolveConfigs on)) tool_calls
    /\ afterModel options context state resume
       = (reqs <- createRequests options (resolveConfigs on) state
                    (reviewedCalls config state) ;;
          hitlResponse <- interrupt (InterruptHITL (mkHITLRequest reqs.1 reqs.2)) resume ;;
          match decisions hitlResponse with
          | DecisionsOther _ =>
              Throw (Error "Invalid HITLResponse: decisions must be a non-empty array")
          | DecisionsArray ds =>
              if negb (length ds =? length (reviewedCalls config state))%nat then
                Throw (count_mismatch (length ds) (length (reviewedCalls config state)))
              else
                r <- processDecisions (existsb isReject ds) (resolveConfigs on)
                       (zip ds (reviewedCalls config state))
                       (List.filter (fun c => negb (needsReview (resolveConfigs on) c))
                                    tool_calls) [] ;;
                Ok (Some {| hr_messages :=
                              MsgAI (with_tool_calls lastMessage r.1) :: (MsgTool <$> r.2);
                            hr_jumpTo := if existsb isReject ds
                                         then Some "model" else None |})
          end).
Proof.
  intros Hparse. unfold reviewedCalls.
  destruct (lastAIMessage (messages state)) as [lastMessage|] eqn:Hlast; [|congruence].
  destruct (interruptOn config) as [on|] eqn:Hon; [|congruence].
  destruct (ai_tool_calls lastMessage) as [calls|] eqn:Hcalls; [|simpl; congruence].
  cbn [default from_option id]. rewrite <- filter_underReview. intros Hne.
  exists lastMessage, calls, on. repeat split; [exact Hcalls|].
  rewrite (afterModel_reached options context state config lastMessage calls on resume
             Hparse Hon Hlast Hcalls Hne).
  reflexivity.
Qed.

(** X10. The first run of the hook (no resume value), for options and a
    context that the parser takes. When the parser throws, the hook throws
    that error; when its answer is falsy, the hook returns nothing. When no
    tool call of the last AI message is under review (its name has no
    interruptOn entry other than false, and is not the name of a member of
    Object.prototype) the hook returns nothing, whatever the resume value.
    Otherwise it returns no update: when every description factory answers,
    it raises one HITL interrupt that lists the calls under review, in
    order, and when one fails it throws the error of the first that fails. *)
Theorem afterModel_first_run options context state :
  (forall e resume,
     interopParse (mergeConfig options context) = Throw e ->
     afterModel options context state resume = Throw e)
  /\ (forall resume,
        interopParse (mergeConfig options context) = Ok None ->
        afterModel options context state resume = Ok None)
  /\ (forall config,
        interopParse (mergeConfig options context) = Ok (Some config) ->
        (reviewedCalls config state = [] ->
         forall resume, afterModel options context state resume = Ok None)
        /\ (reviewedCalls config state <> [] ->
            forall on,
              interruptOn config = Some on ->
              (Forall (fun c => factoryError state (resolveConfigs on) c = None)
                      (reviewedCalls config state) ->
               exists request,
                 afterModel options context state None
                 = Throw (GraphInterrupt (InterruptHITL request))
                 /\ ar_name <$> actionRequests request
                    = tc_name <$> reviewedCalls config state
                 /\ ar_args <$> actionRequests request
                    = tc_args <$> reviewedCalls config state)
              /\ (forall i c e,
                    reviewedCalls config state !! i = Some c ->
                    factoryError state (resolveConfigs on) c = Some e ->
                    (forall j c', j < i -> reviewedCalls config state !! j = Some c' ->
                                  factoryError state (resolveConfigs on) c' = None) ->
                    afterModel options context state None = Throw (thrown e))
              /\ (forall r, afterModel options context state None <> Ok r))).
Proof.
  split; [|split].
  - intros e resume He. unfold afterModel. rewrite He. reflexivity.
  - intros resume He. unfold afterModel. rewrite He. reflexivity.
  - intros config Hparse. split.
    + intros Hnil resume. apply (afterModel_nothing _ _ _ config); assumption.
    + intros Hne on Hon.
      destruct (afterModel_reviewed options context state config None Hparse Hne)
        as (lastMessage & tool_calls & on' & Hlast & Hcalls & Hon' & Hreviewed & Hrun).
      assert (on' = on) as -> by congruence.
      assert (Forall (fun c => needsReview (resolveConfigs on) c = true)
                     (reviewedCalls config state)) as Hall.
      { rewrite Hreviewed. apply filtered_needsReview. }
      split; [|split].
      * intros Hdesc.
        destruct (createRequests_described options (resolveConfigs on) state
                    (reviewedCalls config state) Hall) as (reqs & Hreqs).
        { apply (Forall_impl _ _ _ Hdesc). intros c Hc.
          apply describes_factoryError. exact Hc. }
        destruct (createRequests_names _ _ _ _ _ Hreqs) as (Hn & Ha & _).
        rewrite Hrun, Hreqs. eexists. split; [reflexivity|]. split; assumption.
      * intros i c e Hi He Hbefore. rewrite Hrun.
        rewrite (createRequests_fails options (resolveConfigs on) state
                   (reviewedCalls config state) i c e Hall Hi He Hbefore).
        reflexivity.
      * intros r. rewrite Hrun.
        destruct (createRequests options (resolveConfigs on) state
                    (reviewedCalls config state)); discriminate.
Qed.

(** Without a rejection the loop keeps every call, as revised. *)
Lemma processDecisions_approved resolved ds calls :
  Forall2 (accepted resolved) ds calls ->
  existsb isReject ds = false ->
  forall revised artificial,
    processDecisions false resolved (zip ds calls) revised artificial
    = Ok (revised ++ revisedCalls resolved ds calls, artificial).
Proof.
  unfold revisedCalls.
  induction 1 as [|d c ds calls (config & Hcfg & Hacc) _ IH]; intros Hrej revised artificial.
  - simpl. rewrite app_nil_r. reflexivity.
  - cbn [existsb] in Hrej. apply orb_false_iff in Hrej as [Hd Hds].
    simpl. rewrite (lookupConfig_own _ _ _ Hcfg), Hcfg, (processDecision_accepts _ _ _ Hacc), Hd.
    simpl. rewrite (IH Hds), <- app_assoc. reflexivity.
Qed.

Lemma revisedCalls_ids resolved ds calls :
  length ds = length calls ->
  tc_id <$> revisedCalls resolved ds calls = tc_id <$> calls.
Proof.
  unfold revisedCalls. revert calls.
  induction ds as [|d ds IH]; intros [|c calls]; try discriminate; [reflexivity|].
  intros [= Hlen]. change (zip (d :: ds) (c :: calls)) with ((d, c) :: zip ds calls).
  rewrite !fmap_cons, (IH calls Hlen). f_equal. cbn [fst snd].
  destruct (resolved !! tc_name c); [apply revisedCall_id|reflexivity].
Qed.

Lemma revisedCall_approve config d c :
  accepts config d = true -> String.eqb (d_type d) "approve" = true ->
  revisedCall config d c = c.
Proof.
  unfold accepts, revisedCall. intros Hacc Ht. rewrite Ht in *.
  apply String.eqb_eq in Ht. rewrite Ht in *. simpl in *.
  destruct (includes "approve" (allowedDecisions config)); [reflexivity|discriminate].
Qed.

(** X11. When every call under review has an entry of its own in
    interruptOn, every description factory answers, every decision is
    accepted and none is a rejection, the hook returns the last AI message
    alone, without tool message and without jumpTo. Its tool calls are the
    calls that were not under review followed by the reviewed ones as
    revised: none is dropped, the reviewed calls keep their ids and their
    order, and an approved call is handed on as it was. The calls under
    review are those that interruptOn matches and those named like a member
    of Object.prototype; the latter have no entry of their own, so that no
    decision about them is accepted. *)
Theorem afterModel_approved options context state config lastMessage tool_calls on ds :
  interopParse (mergeConfig options context) = Ok (Some config) ->
  interruptOn config = Some on ->
  lastAIMessage (messages state) = Some lastMessage ->
  ai_tool_calls lastMessage = Some tool_calls ->
  Forall (fun c => factoryError state (resolveConfigs on) c = None)
         (List.filter (underReview on) tool_calls) ->
  Forall2 (accepted (resolveConfigs on)) ds (List.filter (underReview on) tool_calls) ->
  ds <> [] ->
  existsb isReject ds = false ->
  let calls := List.filter (underReview on) tool_calls in
  let revised := revisedCalls (resolveConfigs on) ds calls in
  afterModel options context state (Some (mkHITLResponse (DecisionsArray ds)))
  = Ok (Some {| hr_messages :=
                  [MsgAI (with_tool_calls lastMessage
                            (List.filter (fun c => negb (underReview on c)) tool_calls
                             ++ revised))];
                hr_jumpTo := None |})
  /\ tc_id <$> revised = tc_id <$> calls
  /\ length (List.filter (fun c => negb (underReview on c)) tool_calls ++ revised)
     = length tool_calls
  /\ (forall i d c,
        ds !! i = Some d -> calls !! i = Some c -> d_type d = "approve" ->
        revised !! i = Some c)
  /\ Forall (fun c => reviewed on c = true) calls.
Proof.
  intros Hparse Hon Hlast Hcalls Hdesc Hacc Hds Hrej calls revised.
  pose proof (Forall2_length _ _ _ Hacc) as Hlen. fold calls in Hlen, Hacc, Hdesc.
  assert (List.filter (needsReview (resolveConfigs on)) tool_calls <> []) as Hne.
  { rewrite filter_underReview. fold calls. intros Hnil. rewrite Hnil in Hlen.
    destruct ds; [congruence|discriminate]. }
  split; [|split; [|split; [|split]]].
  - rewrite (afterModel_reached options context state config lastMessage tool_calls on
               (Some (mkHITLResponse (DecisionsArray ds))) Hparse Hon Hlast Hcalls Hne).
    rewrite filter_underReview. fold calls.
    destruct (createRequests_described options (resolveConfigs on) state calls)
      as (reqs & ->).
    { unfold calls. rewrite <- filter_underReview. apply filtered_needsReview. }
    { apply (Forall_impl _ _ _ Hdesc). intros c Hc. apply describes_factoryError. exact Hc. }
    cbn [interrupt bind decisions].
    rewrite Hlen, Nat.eqb_refl. cbn [negb].
    rewrite Hrej, (processDecisions_approved _ _ _ Hacc Hrej). cbn [bind fst snd fmap list_fmap].
    rewrite (List.filter_ext (fun c => negb (needsReview (resolveConfigs on) c))
               (fun c => negb (underReview on c)))
      by (intros c; rewrite needsReview_underReview; reflexivity).
    reflexivity.
  - apply revisedCalls_ids. exact Hlen.
  - rewrite length_app. unfold revised, revisedCalls.
    rewrite length_fmap, length_zip, Hlen, Nat.min_id.
    unfold calls. clear. induction tool_calls as [|c cs IH]; [reflexivity|].
    simpl. destruct (underReview on c); simpl; lia.
  - intros i d c Hd Hc Ht. unfold revised, revisedCalls.
    rewrite list_lookup_fmap, lookup_zip_with, Hd, Hc. cbn.
    destruct (Forall2_lookup_lr _ _ _ _ _ _ Hacc Hd Hc) as (cfg & Hcfg & Ha).
    f_equal. rewrite Hcfg. apply revisedCall_approve; [exact Ha|]. rewrite Ht. reflexivity.
  - clear -Hacc. induction Hacc as [|d c ds cs (cfg & Hcfg & _) _ IH]; constructor;
      [|exact IH].
    unfold resolveConfigs in Hcfg. rewrite lookup_omap in Hcfg. unfold reviewed.
    destruct (on !! tc_name c) as [[[|]|]|]; try reflexivity; discriminate.
Qed.

Lemma processDecision_refused d c config :
  includes (d_type d) (allowedDecisions config) = false ->
  exists msg, processDecision d c (OwnConfig config) = Throw (Error msg).
Proof.
  rewrite processDecision_own. cbn zeta. intros Hinc.
  destruct (String.eqb (d_type d) "approve") eqn:Ea.
  { apply String.eqb_eq in Ea. rewrite Ea in *. rewrite Hinc. simpl. eexists. reflexivity. }
  destruct (String.eqb (d_type d) "edit") eqn:Ee.
  { apply String.eqb_eq in Ee. rewrite Ee in *. rewrite Hinc. simpl. eexists. reflexivity. }
  destruct (String.eqb (d_type d) "reject") eqn:Er.
  { apply String.eqb_eq in Er. rewrite Er in *. rewrite Hinc. simpl. eexists. reflexivity. }
  simpl. eexists. reflexivity.
Qed.

(** When every call that the hook puts under review has an entry of its
    own, the calls under review are the calls that interruptOn matches. *)
Lemma filter_reviewed_all on (calls : list ToolCall) :
  Forall (fun c => reviewed on c = true) (List.filter (needsReview (resolveConfigs on)) calls) ->
  List.filter (needsReview (resolveConfigs on)) calls = List.filter (reviewed on) calls.
Proof.
  induction calls as [|c calls IH]; [reflexivity|]. cbn [List.filter].
  rewrite needsReview_reviewed.
  destruct (reviewed on c) eqn:Hr; cbn [orb].
  - intros Hall. apply Forall_cons in Hall as [_ Hall]. rewrite (IH Hall). reflexivity.
  - destruct (includes (tc_name c) prototype_names).
    + intros Hall. apply Forall_cons in Hall as [Hc _]. congruence.
    + exact IH.
Qed.

(** X12. One refused decision fails the whole resume: when some decision has
    a type that its tool's configuration does not allow, the hook throws an
    error that is not an interrupt, whatever the other decisions are, and
    returns no update. *)
Theorem afterModel_refused options context state config lastMessage tool_calls on ds i d c
    toolConfig :
  interopParse (mergeConfig options context) = Ok (Some config) ->
  interruptOn config = Some on ->
  lastAIMessage (messages state) = Some lastMessage ->
  ai_tool_calls lastMessage = Some tool_calls ->
  ds !! i = Some d ->
  List.filter (reviewed on) tool_calls !! i = Some c ->
  resolveConfigs on !! tc_name c = Some toolConfig ->
  includes (d_type d) (allowedDecisions toolConfig) = false ->
  exists e,
    afterModel options context state (Some (mkHITLResponse (DecisionsArray ds))) = Throw e
    /\ isGraphInterrupt e = false.
Proof.
  intros Hparse Hon Hlast Hcalls Hd Hc Hcfg Hinc.
  set (resolved := resolveConfigs on) in *.
  set (calls := List.filter (needsReview resolved) tool_calls).
  assert (calls <> []) as Hne.
  { assert (c ∈ calls) as Hin; [|intros Hnil; rewrite Hnil in Hin;
                                  apply elem_of_nil in Hin; exact Hin].
    apply list_elem_of_lookup_2 in Hc. apply list_elem_of_In, filter_In in Hc as [Hc Hr].
    unfold calls. apply list_elem_of_In, filter_In. split; [exact Hc|].
    unfold resolved. rewrite needsReview_reviewed, Hr. reflexivity. }
  rewrite (afterModel_reached options context state config lastMessage tool_calls on
             (Some (mkHITLResponse (DecisionsArray ds))) Hparse Hon Hlast Hcalls Hne).
  fold resolved. fold calls.
  destruct (createRequests options resolved state calls) as [reqs|e] eqn:Hreqs.
  2:{ exists e. split; [reflexivity|].
      apply (createRequests_throws options resolved state calls e
               (filtered_needsReview resolved tool_calls) Hreqs). }
  cbn [interrupt bind decisions].
  destruct (negb (length ds =? length calls)%nat) eqn:Hlen; [eexists; split; reflexivity|].
  apply negb_false_iff, Nat.eqb_eq in Hlen. cbn zeta.
  assert (exists k dk ck,
            zip ds calls !! k = Some (dk, ck)
            /\ forall cfg, lookupConfig resolved (tc_name ck) = Some cfg ->
                           exists e, processDecision dk ck cfg = Throw e)
    as (k & dk & ck & Hk & Hthrow).
  { destruct (decide (Forall (fun x => reviewed on x = true) calls)) as [Hall|Hsome].
    - exists i, d, c. unfold calls, resolved in *.
      rewrite (filter_reviewed_all on tool_calls Hall). split.
      + rewrite lookup_zip_with, Hd, Hc. reflexivity.
      + intros cfg Hl. rewrite (lookupConfig_own _ _ _ Hcfg) in Hl. injection Hl as <-.
        destruct (processDecision_refused d c toolConfig Hinc) as (msg & ->).
        eexists. reflexivity.
    - apply not_Forall_Exists in Hsome; [|intros x; apply _].
      apply Exists_exists in Hsome as (x & Hx & Hnot).
      apply list_elem_of_lookup_1 in Hx as [k Hk].
      assert (k < length ds) as Hlt by (rewrite Hlen; apply (lookup_lt_Some _ _ _ Hk)).
      apply lookup_lt_is_Some in Hlt as [dk Hdk].
      exists k, dk, x. split; [rewrite lookup_zip_with, Hdk, Hk; reflexivity|].
      intros cfg Hl.
      assert (needsReview resolved x = true) as Hreview.
      { apply list_elem_of_lookup_2 in Hk. apply list_elem_of_In, filter_In in Hk as [_ Hr].
        exact Hr. }
      unfold resolved in Hreview. rewrite needsReview_reviewed in Hreview.
      apply not_true_is_false in Hnot. rewrite Hnot in Hreview. cbn [orb] in Hreview.
      unfold lookupConfig, resolved, resolveConfigs in Hl. rewrite lookup_omap in Hl.
      unfold reviewed in Hnot.
      destruct (on !! tc_name x) as [[[|]|]|]; try discriminate;
        cbn [mbind option_bind resolveConfig] in Hl; rewrite Hreview in Hl;
        injection Hl as <-;
        destruct (processDecision_inherited dk x) as (e & He & _); exists e; exact He. }
  destruct (processDecisions_throws (existsb isReject ds) resolved (zip ds calls) k dk ck
              Hk Hthrow
              (List.filter (fun c => negb (needsReview resolved c)) tool_calls) [])
    as (e & -> & He).
  exists e. split; [reflexivity|exact He].
Qed.

End WithStringify.

(** A state without tool calls: nothing is under review. The calls
    "dangerous" and "constructor" with an entry for "dangerous" only: both
    are listed by the interrupt. *)
Lemma afterModel_first_run_witness :
  afterModel (H := Examples.example_stringify) (parser := Examples.example_parser)
    Examples.options_approve_reject None (mkAgentState [MsgHuman (JStr "go")]) None
  = Ok None
  /\ exists request,
       afterModel (H := Examples.example_stringify) (parser := Examples.example_parser)
         Examples.options_dangerous None Examples.state_inherited None
       = Throw (GraphInterrupt (InterruptHITL request))
       /\ ar_name <$> actionRequests request = ["dangerous"; "constructor"].
Proof.
  split.
  - destruct (afterModel_first_run (H := Examples.example_stringify)
                (parser := Examples.example_parser) Examples.options_approve_reject None
                (mkAgentState [MsgHuman (JStr "go")])) as (_ & _ & Hparsed).
    destruct (Hparsed _ eq_refl) as [Hnothing _]. apply Hnothing. reflexivity.
  - destruct (afterModel_first_run (H := Examples.example_stringify)
                (parser := Examples.example_parser) Examples.options_dangerous None
                Examples.state_inherited) as (_ & _ & Hparsed).
    destruct (Hparsed _ eq_refl) as [_ Hreview].
    destruct (Hreview ltac:(discriminate) Examples.on_dangerous eq_refl) as (Hlisted & _).
    destruct (Hlisted ltac:(repeat constructor)) as (request & Hinterrupt & Hnames & _).
    exists request. split; [exact Hinterrupt|exact Hnames].
Defined.

(** The review of "dangerous" is resumed with an approval, and the "safe"
    call that was not under review comes first. *)
Lemma afterModel_approved_witness :
  afterModel (H := Examples.example_stringify) (parser := Examples.example_parser)
    Examples.options_approve_reject None Examples.state_mixed
    (Some (mkHITLResponse (DecisionsArray [Examples.approve])))
  = Ok (Some {| hr_messages :=
                  [MsgAI (with_tool_calls Examples.ai_mixed
                            [Examples.safe; Examples.dangerous])];
                hr_jumpTo := None |}).
Proof.
  apply (afterModel_approved (H := Examples.example_stringify)
           (parser := Examples.example_parser)
           Examples.options_approve_reject None Examples.state_mixed
           (mkConfig (Some Examples.on_approve_reject)
                     (Some "Tool execution requires approval"))
           Examples.ai_mixed
           [Examples.safe; Examples.dangerous] Examples.on_approve_reject
           [Examples.approve]).
  - vm_compute. reflexivity.
  - reflexivity.
  - reflexivity.
  - reflexivity.
  - repeat constructor.
  - constructor; [|constructor].
    eexists. split; reflexivity.
  - discriminate.
  - reflexivity.
Defined.

(** A rejection where only approvals are allowed. *)
Lemma afterModel_refused_witness :
  exists e,
    afterModel (H := Examples.example_stringify) (parser := Examples.example_parser)
      Examples.options_approve_only None Examples.state_dangerous
      (Some (mkHITLResponse (DecisionsArray [Examples.reject_nope]))) = Throw e
    /\ isGraphInterrupt e = false.
Proof.
  apply (afterModel_refused (H := Examples.example_stringify)
           (parser := Examples.example_parser)
           Examples.options_approve_only None Examples.state_dangerous
           (mkConfig (Some Examples.on_approve_only)
                     (Some "Tool execution requires approval"))
           Examples.ai_dangerous [Examples.dangerous] Examples.on_approve_only
           [Examples.reject_nope] 0 Examples.reject_nope Examples.dangerous
           (mkInterruptOnConfig ["approve"] None None)).
  - vm_compute. reflexivity.
  - reflexivity.
  - reflexivity.
  - reflexivity.
  - reflexivity.
  - reflexivity.
  - reflexivity.
  - reflexivity.
Defined.

End HitlMore.

(** ** The client-tool hook inside the tool node *)

Module ClientToolMore.
Import ToolNode ToolNodeProps ToolNodeMore ClientTool.

(** The node with another [wrapToolCall] hook. *)
Definition set_hook (node : Node) (hook : option WrapToolCallHook) : Node :=
  {| tools := tools node; handleToolErrors := handleToolErrors node;
     channel := channel node; variables := variables node; toolName := toolName node;
     ToolNode.wrapToolCall := hook |}.

(** The call names one of the configured client tools. *)
Definition isClientCall (options : Options) (call : ToolCall) : bool :=
  existsb (fun clientTool => String.eqb (ct_name clientTool) (tc_name call))
          (default [] (clientTools options)).

Section WithStringify.
Context `{Stringify}.

Lemma wrapToolCall_other options resume request handler :
  isClientCall options (toolCall request) = false ->
  ClientTool.wrapToolCall options resume request handler = handler request.
Proof.
  unfold isClientCall, ClientTool.wrapToolCall. intros Hother.
  destruct (default [] (clientTools options)) as [|ct cts]; [reflexivity|].
  rewrite Hother. reflexivity.
Qed.

Lemma tryCall_client_hook_other options resume node input messages call :
  isClientCall options call = false ->
  tryCall (set_hook node (Some (ClientTool.wrapToolCall options resume))) input messages call
  = tryCall (set_hook node None) input messages call.
Proof.
  intros Hother. unfold tryCall. cbn [set_hook tools ToolNode.wrapToolCall].
  destruct (List.find _ (tools node)) as [t|]; [|reflexivity].
  rewrite wrapToolCall_other by exact Hother. reflexivity.
Qed.

Lemma runAll_client_hook_other options resume node input messages order calls :
  Forall (fun call => isClientCall options call = false) calls ->
  runAll (set_hook node (Some (ClientTool.wrapToolCall options resume))) input messages
         order calls
  = runAll (set_hook node None) input messages order calls.
Proof.
  intros Hcalls. unfold runAll.
  assert (runCall (set_hook node (Some (ClientTool.wrapToolCall options resume)))
                  input messages <$> calls
          = runCall (set_hook node None) input messages <$> calls) as ->; [|reflexivity].
  induction Hcalls as [|call calls Hcall _ IH]; [reflexivity|].
  rewrite !fmap_cons, IH. f_equal. unfold runCall.
  rewrite (tryCall_client_hook_other options resume node input messages call Hcall).
  reflexivity.
Qed.

(** X13. The client-tool hook is transparent for the other tools: when none
    of the executed calls names a configured client tool, a tool node with
    the hook dispatches the same events and settles with the same result as
    the node without it, whatever the resume value and the order in which
    the calls settle. *)
Theorem run_client_hook_other options resume node input order ai :
  input_messages node input ≫= last = Some (MsgAI ai) ->
  Forall (fun call => isClientCall options call = false) (executedCalls input ai) ->
  run (set_hook node (Some (ClientTool.wrapToolCall options resume))) input order
  = run (set_hook node None) input order.
Proof.
  intros Hlast Hcalls. unfold run.
  change (input_messages (set_hook node ?h) input) with (input_messages node input).
  rewrite Hlast.
  assert (default [] (match input_toolCall input with
                      | Some c => Some [c]
                      | None => ai_tool_calls ai
                      end) = executedCalls input ai) as ->.
  { unfold executedCalls. destruct (input_toolCall input); reflexivity. }
  rewrite (runAll_client_hook_other options resume node input _ order _ Hcalls).
  reflexivity.
Qed.

(** X14. A call to a client tool through a tool node that carries the hook:
    on the first run the node stops with the interrupt that carries this
    call, without event, even when handleToolErrors is on, and the outcome
    does not depend on the tool registered under that name, which is never
    invoked. On resume, a response refused by the hook is not thrown when
    handleToolErrors is on: it is fed back as an error tool message with one
    on_tool_error event. *)
Theorem runCall_client_tool options node input messages call t :
  List.find (fun t => String.eqb (name t) (tc_name call)) (tools node) = Some t ->
  isClientCall options call = true ->
  runCall (set_hook node (Some (ClientTool.wrapToolCall options None))) input messages call
  = ([], Throw (GraphInterrupt (InterruptClientTool {| clientToolCalls := [call] |})))
  /\ (forall resume e,
        ClientTool.wrapToolCall options (Some resume)
          {| toolCall := call; tool := t; state := request_state input messages |}
          (defaultHandler node t) = Throw e ->
        handleToolErrors node = true ->
        runCall (set_hook node (Some (ClientTool.wrapToolCall options (Some resume))))
          input messages call
        = ([mkEvent ON_TOOL_ERROR call (getErrorMessage e)],
           Ok (NodeCommand
                 {| update := Some (UpdateObject
                                      (errorUpdate node (errorToolMessage call e)));
                    goto := None |}))).
Proof.
  intros Hfind Hclient. split.
  - unfold runCall, tryCall. cbn [set_hook tools ToolNode.wrapToolCall]. rewrite Hfind.
    rewrite ClientToolProps.wrapToolCall_client by exact Hclient.
    cbn [interrupt bind isGraphInterrupt handleToolErrors set_hook toolCall].
    destruct (handleToolErrors node); reflexivity.
  - intros resume e Hthrow Hh.
    assert (isGraphInterrupt e = false) as Hi.
    { rewrite ClientToolProps.wrapToolCall_client in Hthrow by exact Hclient.
      cbn [interrupt bind] in Hthrow.
      destruct (toolMessages resume) as [[|[m|] [|m' ms]]|v];
        try (injection Hthrow as <-; reflexivity).
      cbn [toolCall] in Hthrow.
      destruct (_ && _); [injection Hthrow as <-; reflexivity|].
      destruct m as [p|tm]; [|discriminate].
      unfold toToolMessage in Hthrow.
      destruct (negb _); [injection Hthrow as <-; reflexivity|discriminate]. }
    unfold runCall, tryCall. cbn [set_hook tools ToolNode.wrapToolCall handleToolErrors].
    rewrite Hfind.
    change (defaultHandler (set_hook node ?h) t) with (defaultHandler node t).
    rewrite Hthrow. cbn [bind set_hook handleToolErrors]. rewrite Hh, Hi. reflexivity.
Qed.

End WithStringify.

(** A tool node that holds the stub of the client tool "browser.open". *)
Definition browser_tool : Tool :=
  mkTool "browser.open" (fun _ _ => Ok (OutRaw (JStr EmptyString))).

Definition browser_node : Node :=
  new_Node [browser_tool] (Some true) (Some "Agent_1") None None None.

Lemma run_client_hook_other_witness :
  run (H := Examples.example_stringify)
      (set_hook (Examples.node_of Examples.add_tool None)
                (Some (ClientTool.wrapToolCall (H := Examples.example_stringify)
                         Examples.client_options None)))
      (Examples.input_add Examples.add_call) [0]
  = run (H := Examples.example_stringify)
        (set_hook (Examples.node_of Examples.add_tool None) None)
        (Examples.input_add Examples.add_call) [0].
Proof.
  apply (run_client_hook_other (H := Examples.example_stringify) Examples.client_options
           None (Examples.node_of Examples.add_tool None)
           (Examples.input_add Examples.add_call) [0]
           (mkAIMessage (Some "m1") (JStr EmptyString) (Some [Examples.add_call]))).
  - reflexivity.
  - repeat constructor.
Defined.

Lemma runCall_client_tool_witness :
  runCall (H := Examples.example_stringify)
          (set_hook browser_node
                    (Some (ClientTool.wrapToolCall (H := Examples.example_stringify)
                             Examples.client_options None)))
          (InputArray []) [] Examples.browser_call
  = ([], Throw (GraphInterrupt
                  (InterruptClientTool {| clientToolCalls := [Examples.browser_call] |}))).
Proof.
  apply (proj1 (runCall_client_tool (H := Examples.example_stringify)
                  Examples.client_options browser_node (InputArray []) []
                  Examples.browser_call browser_tool eq_refl eq_refl)).
Defined.

End ClientToolMore.

(** ** A client tool called through the tool node *)

Module ClientToolRun.
Import ToolNode ToolNodeProps ToolNodeMore ClientTool ClientToolProps ClientToolMore.



Section WithStringify.
Context `{Stringify}.








End WithStringify.



End ClientToolRun.

(** ** More on the tool selector *)

Module ToolSelectorMore.
Import ToolSelector ToolSelectorProps.

Lemma prepareSelectionRequest_available request options context selectionRequest :
  prepareSelectionRequest request options context = Ok (Some selectionRequest) ->
  (forall t, In t (availableTools selectionRequest) ->
             In t (default [] (tools request)) /\ isStructuredTool t = true)
  /\ validToolNames selectionRequest = name_of <$> availableTools selectionRequest.
Proof.
  unfold prepareSelectionRequest.
  destruct (tools request) as [[|t0 ts]|]; try discriminate.
  destruct (List.filter (fun n => negb (includes n _)) _); [|discriminate].
  destruct (List.filter (fun tool => negb (name_in _ tool)) _) as [|a available] eqn:Havail;
    [discriminate|].
  destruct (List.find isHumanMessage _); [|discriminate].
  intros [= <-]. cbn [availableTools validToolNames]. split; [|reflexivity].
  intros t Ht. rewrite <- Havail in Ht.
  apply List.filter_In in Ht as [Ht _]. apply List.filter_In in Ht. exact Ht.
Qed.

Lemma processSelectionResponse_tools response available valid request options request' :
  processSelectionResponse response available valid request options = Ok request' ->
  messages request' = messages request
  /\ systemMessage request' = systemMessage request
  /\ (forall t, In t (default [] (tools request')) ->
                In t available \/ In t (default [] (tools request)))
  /\ (forall t, In t (default [] (tools request)) -> isStructuredTool t = false ->
                In t (default [] (tools request'))).
Proof.
  unfold processSelectionResponse.
  destruct (selectionLoop _ _ _ [] []) as [selected [|i invalid]]; [|discriminate].
  intros [= <-]. cbn [messages systemMessage tools default from_option id].
  split; [reflexivity|]. split; [reflexivity|]. split.
  - intros t Ht. apply in_app_or in Ht as [Ht|Ht]; [apply in_app_or in Ht as [Ht|Ht]|];
      apply List.filter_In in Ht as [Ht _]; [left|right|right]; exact Ht.
  - intros t Ht Hprov. apply in_or_app. right. apply List.filter_In.
    split; [exact Ht|]. rewrite Hprov. reflexivity.
Qed.

(** X15. The selector only narrows the request. For every request, either
    the hook fails before the inner handler is reached (whatever the
    handler), or the handler is called once with a request that has the
    messages and the system message of the original, whose tools all come
    from the original request, and that still holds every provider-specific
    dict of it. *)
Theorem wrapModelCall_narrows options selectionModel request :
  (exists e, forall B (h : ModelRequest -> Res B),
               wrapModelCall options selectionModel request h = Throw e)
  \/ exists request',
       (forall B (h : ModelRequest -> Res B),
          wrapModelCall options selectionModel request h = h request')
       /\ messages request' = messages request
       /\ systemMessage request' = systemMessage request
       /\ (forall t, In t (default [] (tools request')) ->
                     In t (default [] (tools request)))
       /\ (forall t, In t (default [] (tools request)) -> isStructuredTool t = false ->
                     In t (default [] (tools request'))).
Proof.
  unfold wrapModelCall.
  destruct (prepareSelectionRequest request options (runtime_context request))
    as [[selectionRequest|]|e] eqn:Hprepare.
  - destruct (selectionModel selectionRequest) as [response|e] eqn:Hmodel.
    + destruct (processSelectionResponse response (availableTools selectionRequest)
                  (validToolNames selectionRequest) request options)
        as [request'|e] eqn:Hprocess.
      * right. exists request'.
        split; [intros B h; cbn [bind]; rewrite Hmodel; cbn [bind]; rewrite Hprocess;
                reflexivity|].
        destruct (processSelectionResponse_tools _ _ _ _ _ _ Hprocess)
          as (Hm & Hs & Hin & Hprov).
        repeat split; try assumption.
        intros t Ht. destruct (Hin t Ht) as [Hav|Hreq]; [|exact Hreq].
        apply (prepareSelectionRequest_available _ _ _ _ Hprepare). exact Hav.
      * left. exists e. intros B h. cbn [bind]. rewrite Hmodel. cbn [bind].
        rewrite Hprocess. reflexivity.
    + left. exists e. intros B h. cbn [bind]. rewrite Hmodel. reflexivity.
  - right. exists request. repeat split; auto.
  - left. exists e. reflexivity.
Qed.






(** The inputs of the selection, as [prepareSelectionRequest] computes them. *)
Definition effectiveAlwaysInclude (request : ModelRequest) (options : Options)
    : list string :=
  default [] (first_some (runtime_context request ≫= alwaysInclude) (alwaysInclude options)).

Definition structuredTools (request : ModelRequest) : list ToolEntry :=
  List.filter isStructuredTool (default [] (tools request)).

Definition missingTools (request : ModelRequest) (options : Options) : list string :=
  List.filter (fun n => negb (includes n (name_of <$> structuredTools request)))
              (effectiveAlwaysInclude request options).

Definition selectableTools (request : ModelRequest) (options : Options) : list ToolEntry :=
  List.filter (fun tool => negb (name_in (effectiveAlwaysInclude request options) tool))
              (structuredTools request).

(** X17. When the selection model is not consulted. A request without tools
    is handed on unchanged, even when alwaysInclude names tools. With tools:
    an alwaysInclude name that no structured tool of the request carries
    fails the call with the list of the missing names; when nothing is
    missing and no structured tool is left to select from, the request is
    handed on unchanged; and when there are tools to select from but no human
    message, the call fails. None of these outcomes depends on the selection
    model, and the two failures do not depend on the handler. *)
Theorem wrapModelCall_without_selection {A} options request :
  (default [] (tools request) = [] ->
   forall selectionModel (handler : ModelRequest -> Res A),
     wrapModelCall options selectionModel request handler = handler request)
  /\ (default [] (tools request) <> [] ->
      missingTools request options <> [] ->
      forall selectionModel (handler : ModelRequest -> Res A),
        wrapModelCall options selectionModel request handler
        = Throw (missing_always_include (missingTools request options)
                                        (name_of <$> structuredTools request)))
  /\ (missingTools request options = [] ->
      selectableTools request options = [] ->
      forall selectionModel (handler : ModelRequest -> Res A),
        wrapModelCall options selectionModel request handler = handler request)
  /\ (missingTools request options = [] ->
      selectableTools request options <> [] ->
      List.find isHumanMessage (rev (messages request)) = None ->
      forall selectionModel (handler : ModelRequest -> Res A),
        wrapModelCall options selectionModel request handler = Throw no_user_message).
Proof.
  unfold missingTools, selectableTools, structuredTools, effectiveAlwaysInclude,
    wrapModelCall, prepareSelectionRequest.
  destruct (tools request) as [[|t ts]|]; cbn [default from_option id].
  - repeat split; try reflexivity; intros; try congruence.
    simpl in *. congruence.
  - set (always := default [] (first_some _ _)).
    set (base := List.filter isStructuredTool (t :: ts)).
    repeat split.
    + discriminate.
    + intros _ Hmissing selectionModel handler.
      destruct (List.filter _ always); [congruence|reflexivity].
    + intros -> -> selectionModel handler. reflexivity.
    + intros -> Hsel Hfind selectionModel handler.
      destruct (List.filter _ base); [congruence|]. rewrite Hfind. reflexivity.
  - repeat split; try reflexivity; intros; try congruence.
    simpl in *. congruence.
Qed.

Lemma prepareSelectionRequest_selectable request options selectionRequest :
  prepareSelectionRequest request options (runtime_context request)
  = Ok (Some selectionRequest) ->
  availableTools selectionRequest = selectableTools request options.
Proof.
  unfold prepareSelectionRequest, selectableTools, structuredTools, effectiveAlwaysInclude.
  destruct (tools request) as [[|t0 ts]|]; try discriminate.
  destruct (List.filter (fun n => negb (includes n _)) _); [|discriminate].
  destruct (List.filter (fun tool => negb (name_in _ tool)) _) as [|a available] eqn:Havail;
    [discriminate|].
  destruct (List.find isHumanMessage _); [|discriminate].
  intros [= <-]. reflexivity.
Qed.

(** X26. Which alwaysInclude tools survive a selection. The tools are set
    aside from the selection by the alwaysInclude list in force, the one of
    the runtime context when it gives one, but they are put back by the
    list of the middleware options alone: after a selection, a structured
    tool that was set aside is among the tools handed on exactly when the
    options' list names it. *)
Theorem alwaysInclude_survives options request selectionRequest response request' :
  prepareSelectionRequest request options (runtime_context request)
  = Ok (Some selectionRequest) ->
  processSelectionResponse response (availableTools selectionRequest)
    (validToolNames selectionRequest) request options = Ok request' ->
  forall t,
    In t (default [] (tools request)) ->
    isStructuredTool t = true ->
    name_in (effectiveAlwaysInclude request options) t = true ->
    (In t (default [] (tools request'))
     <-> name_in (default [] (alwaysInclude options)) t = true).
Proof.
  intros Hprepare Hprocess t Hin Hstructured Haside.
  apply prepareSelectionRequest_selectable in Hprepare. rewrite Hprepare in Hprocess.
  unfold processSelectionResponse in Hprocess.
  destruct (selectionLoop _ _ _ [] []) as [selected [|i invalid]]; [|discriminate].
  injection Hprocess as <-. cbn [tools default from_option id]. split.
  - intros Ht. apply in_app_or in Ht as [Ht|Ht]; [apply in_app_or in Ht as [Ht|Ht]|].
    + apply List.filter_In in Ht as [Ht _]. unfold selectableTools in Ht.
      apply List.filter_In in Ht as [_ Ht]. rewrite Haside in Ht. discriminate.
    + apply List.filter_In in Ht as [_ Ht]. exact Ht.
    + apply List.filter_In in Ht as [_ Ht]. rewrite Hstructured in Ht. discriminate.
  - intros Hnamed. apply in_or_app. left. apply in_or_app. right.
    apply List.filter_In. split; assumption.
Qed.

(** The runtime context sets "a" aside, the options name "search": after the
    selection of "b", the tool "a" is gone. *)
Definition context_request : ModelRequest :=
  mkModelRequest (Some Examples.ten_tools) [MsgHuman (JStr "find it")] None
                 (Some (mkOptions None (Some ["a"]) None)).

Lemma alwaysInclude_survives_witness :
  exists request',
    processSelectionResponse (mkSelectionResponse ["b"])
      (Examples.structured <$> ["b"; "c"; "d"; "e"; "f"; "g"; "h"; "i"; "search"])
      ["b"; "c"; "d"; "e"; "f"; "g"; "h"; "i"; "search"]
      context_request Examples.selector_options = Ok request'
    /\ (In (Examples.structured "a") (default [] (tools request'))
        <-> name_in ["search"] (Examples.structured "a") = true).
Proof.
  eexists. split; [reflexivity|].
  eapply (alwaysInclude_survives Examples.selector_options context_request _
            (mkSelectionResponse ["b"])).
  - reflexivity.
  - reflexivity.
  - left. reflexivity.
  - reflexivity.
  - reflexivity.
Defined.

End ToolSelectorMore.

(** ** Properties of the hooks and their nodes *)

Module HooksProps.
Import ToolNode Hooks.

(** The pairs of neighbours of a path. *)
Definition consecutive (path : list string) : list (string * string) :=
  zip path (tail path).

Lemma consecutive_cons a b path :
  consecutive (a :: b :: path) = (a, b) :: consecutive (b :: path).
Proof. reflexivity. Qed.

Lemma consecutive_app (l1 l2 : list string) a b :
  last l1 = Some a -> head l2 = Some b ->
  consecutive (l1 ++ l2) = consecutive l1 ++ (a, b) :: consecutive l2.
Proof.
  intros Ha Hb. destruct l2 as [|b' l2]; [discriminate|]. injection Hb as ->.
  induction l1 as [|x [|y l1] IH]; [discriminate| |].
  - injection Ha as ->. reflexivity.
  - cbn [app]. rewrite !consecutive_cons. cbn [app]. f_equal.
    apply IH. exact Ha.
Qed.

Lemma omap_fmap {A B C} (g : A -> B) (f : B -> option C) (l : list A) :
  omap f (g <$> l) = omap (fun x => f (g x)) l.
Proof.
  induction l as [|x l IH]; [reflexivity|].
  rewrite fmap_cons. cbn [omap list_omap]. rewrite <- IH. reflexivity.
Qed.

Lemma fmap_rev {A B} (f : A -> B) (l : list A) : f <$> rev l = rev (f <$> l).
Proof.
  induction l as [|x l IH]; [reflexivity|].
  cbn [rev]. rewrite fmap_app, IH. reflexivity.
Qed.

Section WithHook.
Context {Hook : Type}.
Implicit Types (hooks : list (string * Hook)).

Lemma chainEdges_consecutive hooks : chainEdges hooks = consecutive (fst <$> hooks).
Proof.
  unfold chainEdges.
  induction hooks as [|a [|b hooks] IH]; [reflexivity|reflexivity|].
  rewrite !fmap_cons, consecutive_cons, <- fmap_cons, <- IH.
  cbn [length Nat.sub]. rewrite ?Nat.sub_0_r.
  cbn [seq]. rewrite <- fmap_S_seq.
  change (omap ?f (0 :: ?l)) with ((a.1, b.1) :: omap f l). f_equal.
  rewrite omap_fmap. reflexivity.
Qed.

Lemma lookup_last_index {A} (l : list A) : l !! (length l - 1) = last l.
Proof. rewrite last_lookup. f_equal. lia. Qed.

Lemma lastEdge_last hooks target :
  lastEdge hooks target = from_option (fun a => [(a, target)]) [] (last (fst <$> hooks)).
Proof.
  unfold lastEdge. rewrite lookup_last_index, fmap_last.
  destruct (last hooks); reflexivity.
Qed.

Lemma path_edges (ba bm am : list string) (agentKey : string) :
  (if negb (length ba =? 0)%nat
   then consecutive ba
        ++ from_option (fun a => [(a, default agentKey (head bm))]) [] (last ba)
   else [])
  ++ (if negb (length bm =? 0)%nat
      then consecutive bm ++ from_option (fun a => [(a, agentKey)]) [] (last bm)
      else [])
  ++ (if negb (length am =? 0)%nat
      then from_option (fun a => [(agentKey, a)]) [] (head am) ++ consecutive am
      else [])
  = consecutive (ba ++ bm ++ [agentKey] ++ am).
Proof.
  assert ((if negb (length am =? 0)%nat
           then from_option (fun a => [(agentKey, a)]) [] (head am) ++ consecutive am
           else []) = consecutive (agentKey :: am)) as -> by (destruct am; reflexivity).
  assert ((if negb (length bm =? 0)%nat
           then consecutive bm ++ from_option (fun a => [(a, agentKey)]) [] (last bm)
           else []) ++ consecutive (agentKey :: am)
          = consecutive (bm ++ [agentKey] ++ am)) as ->.
  { destruct bm as [|b bm]; [reflexivity|]. cbn [length Nat.eqb negb].
    destruct (last (b :: bm)) as [z|] eqn:Hlast;
      [|apply last_None in Hlast; discriminate].
    cbn [from_option]. rewrite <- app_assoc. symmetry.
    apply consecutive_app; [exact Hlast|reflexivity]. }
  destruct ba as [|a ba]; [reflexivity|]. cbn [length Nat.eqb negb].
  destruct (last (a :: ba)) as [z|] eqn:Hlast; [|apply last_None in Hlast; discriminate].
  cbn [from_option]. rewrite <- app_assoc. symmetry.
  apply consecutive_app; [exact Hlast|]. destruct bm; reflexivity.
Qed.

(** X18. The hook nodes of an agent form one chain around the agent node.
    The edges that the builder adds from the beforeAgent hooks to the
    afterModel hooks are exactly the pairs of neighbours of the path made of
    the beforeAgent hooks in the order of the middlewares, then the
    beforeModel hooks in that order, then the agent node, then the afterModel
    hooks in the reverse order. The start node of the agent is the first
    node of this path and its decision node, the one the navigator is
    attached to, is the last one. The afterAgent hooks form a second chain,
    in the reverse order of the middlewares, from the entry node to the
    final exit node, which is the decision node when there is no such
    hook. *)
Theorem hookEdges_chain agentKey (nodes : list string)
    (middlewares : list (option (Middleware Hook))) :
  let hooks := getModelHooks nodes middlewares in
  let path := (fst <$> beforeAgentHooks hooks) ++ (fst <$> beforeModelHooks hooks)
              ++ [agentKey] ++ rev (fst <$> afterModelHooks hooks) in
  let exitPath := rev (fst <$> afterAgentHooks hooks) in
  hookEdges agentKey hooks = consecutive path
  /\ head path = Some (agentStartNode agentKey hooks)
  /\ last path = Some (agentDecisionNode agentKey hooks)
  /\ afterAgentEdges hooks = consecutive exitPath
  /\ head exitPath = afterAgentEntryNode hooks
  /\ agentFinalExitNode agentKey hooks
     = default (agentDecisionNode agentKey hooks) (last exitPath).
Proof.
  intros hooks path exitPath. subst path exitPath.
  assert (afterModelExecutionOrder hooks = rev (afterModelHooks hooks)) as Hexec
    by reflexivity.
  assert (afterAgentExecutionOrder hooks = rev (afterAgentHooks hooks)) as Hexit
    by reflexivity.
  unfold hookEdges, agentStartNode, agentFinalExitNode, afterAgentEntryNode,
    afterAgentEdges.
  rewrite Hexit. generalize (agentDecisionNode agentKey hooks) at 2 3 as decision.
  intros decision. unfold agentDecisionNode, agentLoopEntryNode.
  rewrite Hexec, !lookup_last_index, !chainEdges_consecutive, !lastEdge_last, <- !fmap_rev.
  rewrite <- !fmap_last.
  generalize (rev (afterAgentHooks hooks)) as aa.
  generalize (rev (afterModelHooks hooks)) as am.
  generalize (beforeModelHooks hooks) as bm.
  generalize (beforeAgentHooks hooks) as ba. clear. intros ba bm am aa.
  repeat split.
  - rewrite <- path_edges, !length_fmap.
    assert (fst <$> bm !! 0 = head (fst <$> bm)) as -> by (destruct bm; reflexivity).
    assert (from_option (fun a : string * Hook => [(agentKey, a.1)]) [] (am !! 0)
            = from_option (fun a => [(agentKey, a)]) [] (head (fst <$> am))) as ->
      by (destruct am; reflexivity).
    reflexivity.
  - destruct ba, bm; reflexivity.
  - rewrite !app_assoc, last_app. cbn [app].
    destruct (last (fst <$> am)) eqn:Hlast; [reflexivity|].
    cbn [default from_option id]. rewrite last_app. reflexivity.
  - destruct aa; reflexivity.
  - destruct aa; reflexivity.
Qed.

(** The hooks nested in the order of the list: each one receives, as its
    handler, the rest of the chain. *)
Fixpoint nested (wraps : list WrapToolCallHook) : WrapToolCallHook :=
  match wraps with
  | [] => fun request handler => handler request
  | wrap :: rest => fun request handler =>
                      wrap request (fun nextRequest => nested rest nextRequest handler)
  end.

Definition toolCallHooks (middlewares : list (option (Middleware Hook)))
    : list WrapToolCallHook :=
  omap (fun middleware => middleware ≫= wrapToolCall) middlewares.

Lemma nested_transparent (wraps : list WrapToolCallHook) :
  (forall wrap, wrap ∈ wraps ->
                forall request handler, wrap request handler = handler request) ->
  forall request handler, nested wraps request handler = handler request.
Proof.
  induction wraps as [|wrap wraps IH]; intros Hall request handler; [reflexivity|].
  cbn [nested]. rewrite (Hall wrap) by apply list_elem_of_here.
  apply IH. intros w Hw. apply Hall. apply list_elem_of_further. exact Hw.
Qed.

(** X19. The wrapToolCall hook handed to the tool nodes. It is undefined
    exactly when no middleware defines one. Otherwise it nests the hooks of
    the middlewares in their order in agentMiddlewares, the first one
    outermost, skipping the middlewares without hook; it does not depend on
    the middleware nodes, unlike the other hooks. When every hook hands its
    request to its handler and returns the result, so does the chain. *)
Theorem wrapToolCall_chain (nodes : list string)
    (middlewares : list (option (Middleware Hook))) :
  (hooks_wrapToolCall (getModelHooks nodes middlewares) = None
   <-> toolCallHooks middlewares = [])
  /\ (forall chain,
        hooks_wrapToolCall (getModelHooks nodes middlewares) = Some chain ->
        chain = nested (toolCallHooks middlewares)
        /\ ((forall wrap, wrap ∈ toolCallHooks middlewares ->
                          forall request handler, wrap request handler = handler request) ->
            forall request handler, chain request handler = handler request)).
Proof.
  unfold toolCallHooks, getModelHooks. cbn [hooks_wrapToolCall].
  assert (existsb (fun m : option (Middleware Hook) =>
                     bool_decide (is_Some (m ≫= wrapToolCall))) middlewares = false
          <-> omap (fun m : option (Middleware Hook) => m ≫= wrapToolCall) middlewares = [])
    as Hnone.
  { induction middlewares as [|m ms IH]; [split; reflexivity|].
    cbn [existsb omap list_omap].
    destruct (m ≫= wrapToolCall) as [wrap|]; [split; discriminate|exact IH]. }
  assert (fold_right
            (fun (middleware : option (Middleware Hook)) (next : WrapToolCallHook) =>
               match middleware ≫= wrapToolCall with
               | None => next
               | Some wrap =>
                   fun request handler =>
                     wrap request (fun nextRequest => next nextRequest handler)
               end)
            baseToolCall middlewares
          = nested (omap (fun m : option (Middleware Hook) => m ≫= wrapToolCall)
                         middlewares)) as Hnested.
  { clear Hnone. induction middlewares as [|m ms IH]; [reflexivity|].
    cbn [fold_right omap list_omap].
    destruct (m ≫= wrapToolCall) as [wrap|]; [|exact IH].
    cbn [nested]. rewrite IH. reflexivity. }
  destruct (existsb _ middlewares) eqn:Hany.
  - split; [split; [discriminate|]|].
    + intros Hnil. apply Hnone in Hnil. congruence.
    + intros chain [= <-]. split; [exact Hnested|].
      intros Hall request handler.
      etransitivity; [exact (f_equal (fun c : WrapToolCallHook => c request handler) Hnested)|].
      apply nested_transparent. exact Hall.
  - split; [split; [intros _; apply Hnone; reflexivity|reflexivity]|discriminate].
Qed.

End WithHook.
End HooksProps.

(** ** Properties of the mute list *)

Module InvokeMoreProps.
Import InvokeMore.

Lemma unmute_loop (mute : list (list string)) (l : list (list string)) :
  fold_left
    (fun unmutes m => List.filter (fun um => if covers m um then false else true) unmutes)
    mute l
  = List.filter (fun um => negb (existsb (fun m => covers m um) mute)) l.
Proof.
  revert l. induction mute as [|m mute IH]; intros l; cbn [fold_left existsb].
  - induction l as [|x l IHl]; [reflexivity|]. cbn [List.filter negb]. f_equal. exact IHl.
  - rewrite IH. induction l as [|x l IHl]; [reflexivity|].
    cbn [List.filter]. destruct (covers m x); cbn [List.filter orb negb]; [exact IHl|].
    destruct (negb _); [f_equal|]; exact IHl.
Qed.

Lemma forallb_false {A} (f : A -> bool) (l : list A) :
  forallb f l = false -> exists x, In x l /\ f x = false.
Proof.
  induction l as [|x l IH]; [discriminate|]. cbn [forallb].
  destruct (f x) eqn:Hx; cbn [andb].
  - intros Hl. destruct (IH Hl) as (y & Hy & Hfy). exists y. split; [right|]; assumption.
  - intros _. exists x. split; [left; reflexivity|exact Hx].
Qed.

(** X20. Which agents stay unmuted. The loop that removes the muted entries
    amounts to one filter: the pair [key, team id] of an agent node is kept,
    in the order of the nodes, exactly when no entry of the mute list (the
    entries collected for the collaborators, then the team's own) has all its
    values among the two. In particular an empty mute entry
    removes every pair. *)
Theorem unmutes_closed_form collected nodes team :
  unmutes collected nodes team
  = List.filter (fun um => negb (existsb (fun m => covers m um) (muteList collected team)))
                (initialUnmutes nodes team)
  /\ (forall key,
        In [key; team_id team] (unmutes collected nodes team)
        <-> In key (node_key <$> List.filter (fun n => String.eqb (node_type n) "agent") nodes)
            /\ forall m, In m (muteList collected team) ->
                         exists value, In value m /\ value <> key /\ value <> team_id team)
  /\ (In [] (muteList collected team) -> unmutes collected nodes team = []).
Proof.
  assert (unmutes collected nodes team
          = List.filter (fun um => negb (existsb (fun m => covers m um) (muteList collected team)))
                        (initialUnmutes nodes team)) as Hclosed.
  { unfold unmutes. apply unmute_loop. }
  split; [exact Hclosed|]. split.
  - intros key. rewrite Hclosed, List.filter_In. unfold initialUnmutes. split.
    + intros [Hin Hmute]. split.
      * apply list_elem_of_In, list_elem_of_fmap in Hin as (node & [= -> ] & Hnode).
        apply list_elem_of_In, list_elem_of_fmap. exists node. split; [reflexivity|].
        exact Hnode.
      * intros m Hm. apply negb_true_iff in Hmute.
        assert (covers m [key; team_id team] = false) as Hcov.
        { destruct (covers m [key; team_id team]) eqn:Hc; [|reflexivity].
          rewrite <- Hmute. symmetry. apply existsb_exists. exists m. split; assumption. }
        unfold covers in Hcov.
        apply forallb_false in Hcov as (value & Hv & Hinc).
        exists value. split; [exact Hv|].
        unfold includes in Hinc. cbn [existsb] in Hinc.
        rewrite orb_false_r in Hinc. apply orb_false_iff in Hinc as [Hk Ht].
        apply String.eqb_neq in Hk, Ht. split; assumption.
    + intros [Hkey Hmute]. split.
      * apply list_elem_of_In, list_elem_of_fmap in Hkey as (node & -> & Hnode).
        apply list_elem_of_In, list_elem_of_fmap. exists node. split; [reflexivity|].
        exact Hnode.
      * apply negb_true_iff. destruct (existsb _ (muteList collected team)) eqn:Hex; [|reflexivity].
        apply existsb_exists in Hex as (m & Hm & Hcov).
        destruct (Hmute m Hm) as (value & Hv & Hk & Ht).
        unfold covers in Hcov. rewrite forallb_forall in Hcov.
        specialize (Hcov value Hv). unfold includes in Hcov. cbn [existsb] in Hcov.
        rewrite orb_false_r in Hcov. apply orb_true_iff in Hcov as [Hc|Hc];
          apply String.eqb_eq in Hc; congruence.
  - intros Hempty. rewrite Hclosed. clear Hclosed.
    induction (initialUnmutes nodes team) as [|um ums IH]; [reflexivity|].
    cbn [List.filter].
    assert (existsb (fun m => covers m um) (muteList collected team) = true) as ->.
    { apply existsb_exists. exists []. split; [exact Hempty|reflexivity]. }
    exact IH.
Qed.

End InvokeMoreProps.

(** ** Properties of [updateToolCalls] *)

Module ToolCallUpdateProps.
Import ToolCallUpdate.

(** The argument record that the update leaves for a call. *)
Definition mergedArgs (toolCalls : list TToolCall) (toolCall : TToolCall)
    : gmap string Json :=
  spread (args toolCall)
         (List.find (fun call => bool_decide (id call = id toolCall)) toolCalls ≫= args).

(** X21. An update of the tool calls never changes which calls the last
    message makes. When a message is written, it keeps the id and the
    content of the last message, it holds as many tool calls as before, in
    the same order, with the same ids, names and types, and the arguments of
    each call are its old ones overridden, key by key, by those of the first
    call of the command that has the same id; the calls of the command whose
    id matches no call of the message are ignored. Nothing is written when
    the last message has no id. *)
Theorem updateToolCalls_keeps_calls (messages : list Message) (lastMessage : Message)
    (toolCalls : list TToolCall) :
  last messages = Some lastMessage ->
  (truthy_str (m_id lastMessage) = false ->
   updateToolCalls (Some messages) (Some toolCalls) = Ok None)
  /\ (truthy_str (m_id lastMessage) = true ->
      forall calls : list TToolCall, m_tool_calls lastMessage = Some calls ->
      exists newMessage : NewMessage,
        updateToolCalls (Some messages) (Some toolCalls) = Ok (Some newMessage)
        /\ new_id newMessage = m_id lastMessage
        /\ content newMessage = m_content lastMessage
        /\ id <$> tool_calls newMessage = id <$> calls
        /\ name <$> tool_calls newMessage = name <$> calls
        /\ type <$> tool_calls newMessage = type <$> calls
        /\ (forall (i : nat) (toolCall : TToolCall),
              calls !! i = Some toolCall ->
              exists updated : TToolCall,
                tool_calls newMessage !! i = Some updated
                /\ args updated = Some (mergedArgs toolCalls toolCall)
                /\ forall k,
                     mergedArgs toolCalls toolCall !! k
                     = match (List.find (fun call => bool_decide (id call = id toolCall))
                                        toolCalls ≫= args)
                             ≫= (fun new : gmap string Json => new !! k) with
                       | Some v => Some v
                       | None => args toolCall ≫= (fun old : gmap string Json => old !! k)
                       end)).
Proof.
  intros Hlast. unfold updateToolCalls. rewrite Hlast. split; [intros ->; reflexivity|].
  intros -> calls ->.
  eexists. split; [destruct calls; reflexivity|].
  cbn [new_id content tool_calls default from_option id].
  split; [reflexivity|]. split; [reflexivity|].
  rewrite <- !list_fmap_compose.
  split; [reflexivity|]. split; [reflexivity|]. split; [reflexivity|].
  intros i toolCall Hi. eexists. rewrite list_lookup_fmap, Hi.
  split; [reflexivity|]. split; [reflexivity|].
  intros k. unfold mergedArgs, spread.
  destruct (List.find _ toolCalls ≫= args) as [new|], (args toolCall) as [old|]; cbn;
    rewrite lookup_union, ?lookup_empty;
    repeat (match goal with
            | |- context [?m !! k] => is_var m; destruct (m !! k)
            end); reflexivity.
Qed.

(** The call "t1" to "add" with a = 2 and b = 3, and an update of b. *)
Definition example_message : Message :=
  mkMessage (Some "m1") (JStr EmptyString)
            (Some [mkTToolCall (Some "t1") "add" None
                               (Some {[ "a" := JNum 2; "b" := JNum 3 ]})]).

Definition example_update : TToolCall :=
  mkTToolCall (Some "t1") "add" None (Some {[ "b" := JNum 5 ]}).

Lemma updateToolCalls_keeps_calls_witness :
  exists newMessage : NewMessage,
    updateToolCalls (Some [example_message]) (Some [example_update]) = Ok (Some newMessage)
    /\ id <$> tool_calls newMessage = [Some "t1"]
    /\ name <$> tool_calls newMessage = ["add"].
Proof.
  destruct (proj2 (updateToolCalls_keeps_calls [example_message] example_message
                     [example_update] eq_refl) eq_refl _ eq_refl)
    as (newMessage & Hupdate & _ & _ & Hid & Hname & _).
  exists newMessage. split; [exact Hupdate|]. split; [exact Hid|exact Hname].
Defined.

End ToolCallUpdateProps.

(** ** Properties of the search for swarm partners *)

Module SwarmProps.
Import Swarm.

(** The keys that can still be pushed: the distinct sources of the
    connections that are not among the partners. *)
Definition candidates (connections : list Connection) (partners : list string)
    : list string :=
  filter (fun key => key ∉ partners) (remove_dups (c_from <$> connections)).

(** [key] is a partner of [agentKey]: agent connections go both ways. *)
Definition mutual (connections : list Connection) (agentKey key : string) : Prop :=
  existsb (agentConnection key agentKey) connections = true
  /\ existsb (agentConnection agentKey key) connections = true.

Lemma includes_iff (x : string) (xs : list string) : includes x xs = true <-> x ∈ xs.
Proof.
  unfold includes. rewrite existsb_exists. split.
  - intros (y & Hy & Hxy). apply String.eqb_eq in Hxy. subst y.
    apply list_elem_of_In. exact Hy.
  - intros Hx. exists x. split; [apply list_elem_of_In; exact Hx|apply String.eqb_refl].
Qed.

Lemma candidates_mono connections (p1 p2 : list string) :
  (forall k, k ∈ p1 -> k ∈ p2) ->
  length (candidates connections p2) <= length (candidates connections p1).
Proof.
  intros Hsub. apply submseteq_length, NoDup_submseteq.
  - apply NoDup_filter, NoDup_remove_dups.
  - intros k Hk. apply list_elem_of_filter in Hk as [Hk Hin].
    apply list_elem_of_filter. split; [|exact Hin]. intros Hp. apply Hk, Hsub, Hp.
Qed.

Lemma candidates_push connections (partners : list string) conn :
  conn ∈ connections -> c_from conn ∉ partners ->
  length (candidates connections (partners ++ [c_from conn]))
  < length (candidates connections partners).
Proof.
  intros Hconn Hnew.
  enough (length (c_from conn :: candidates connections (partners ++ [c_from conn]))
          <= length (candidates connections partners)) by (cbn [length] in *; lia).
  apply submseteq_length, NoDup_submseteq.
  - apply NoDup_cons. split; [|apply NoDup_filter, NoDup_remove_dups].
    intros Hk. apply list_elem_of_filter in Hk as [Hk _]. apply Hk.
    apply elem_of_app. right. apply list_elem_of_here.
  - intros k Hk. apply list_elem_of_filter. apply elem_of_cons in Hk as [->|Hk].
    + split; [exact Hnew|]. apply elem_of_remove_dups, list_elem_of_fmap.
      exists conn. split; [reflexivity|exact Hconn].
    + apply list_elem_of_filter in Hk as [Hk Hin]. split; [|exact Hin].
      intros Hp. apply Hk, elem_of_app. left. exact Hp.
Qed.

Lemma partnerConnection_mutual connections agentKey leaderKey conn :
  conn ∈ connections ->
  partnerConnection connections agentKey leaderKey conn = true ->
  mutual connections agentKey (c_from conn).
Proof.
  unfold partnerConnection. intros Hconn Hp.
  apply andb_true_iff in Hp as [Hp Hback]. apply andb_true_iff in Hp as [Hp _].
  split; [|exact Hback]. apply existsb_exists. exists conn.
  split; [apply list_elem_of_In; exact Hconn|].
  unfold agentConnection. rewrite Hp. apply String.eqb_refl.
Qed.

(** What one call adds to the partners: new keys, without repetition, each a
    partner of the agent or of a key added by the same call. *)
Definition extension (connections : list Connection) (agentKey : string)
    (partners ext : list string) : Prop :=
  NoDup ext
  /\ (forall k, k ∈ ext -> k ∉ partners)
  /\ (forall k, k ∈ ext ->
                exists a, (a = agentKey \/ a ∈ ext) /\ mutual connections a k).

Lemma extension_nil connections agentKey partners :
  extension connections agentKey partners [].
Proof.
  split; [constructor|]. split; intros k Hk; apply elem_of_nil in Hk; contradiction.
Qed.

(** The extension of a recursive call, seen from the call that made it. *)
Lemma extension_step connections agentKey partners ext key ext' :
  extension connections agentKey partners ext ->
  key ∉ partners ++ ext ->
  mutual connections agentKey key ->
  extension connections key (partners ++ ext ++ [key]) ext' ->
  extension connections agentKey partners (ext ++ [key] ++ ext').
Proof.
  intros (Hnd & Hnew & Hmut) Hkey Hkm (Hnd' & Hnew' & Hmut').
  assert (forall k, k ∈ ext' -> (k ∉ partners) /\ (k ∉ ext) /\ k <> key) as Hfresh.
  { intros k Hk. specialize (Hnew' k Hk). repeat split.
    - intros Hp. apply Hnew'. apply elem_of_app. left. exact Hp.
    - intros Hp. apply Hnew'. apply elem_of_app. right. apply elem_of_app. left. exact Hp.
    - intros ->. apply Hnew'. apply elem_of_app. right. apply elem_of_app. right.
      apply list_elem_of_here. }
  split; [|split].
  - apply NoDup_app. split; [exact Hnd|]. split.
    + intros k Hk Hk'. apply elem_of_app in Hk' as [Hk'|Hk'].
      * apply list_elem_of_singleton in Hk'. subst k. apply Hkey, elem_of_app. right. exact Hk.
      * destruct (Hfresh k Hk') as (_ & Hne & _). contradiction.
    + apply NoDup_app. split; [apply NoDup_singleton|]. split; [|exact Hnd'].
      intros k Hk Hk'. apply list_elem_of_singleton in Hk. subst k.
      destruct (Hfresh key Hk') as (_ & _ & Hne). congruence.
  - intros k Hk. apply elem_of_app in Hk as [Hk|Hk]; [apply Hnew; exact Hk|].
    apply elem_of_app in Hk as [Hk|Hk].
    + apply list_elem_of_singleton in Hk. subst k. intros Hp. apply Hkey, elem_of_app.
      left. exact Hp.
    + apply (Hfresh k Hk).
  - intros k Hk. apply elem_of_app in Hk as [Hk|Hk].
    + destruct (Hmut k Hk) as (a & [->|Ha] & Hm).
      * exists agentKey. split; [left; reflexivity|exact Hm].
      * exists a. split; [right; apply elem_of_app; left; exact Ha|exact Hm].
    + apply elem_of_app in Hk as [Hk|Hk].
      * apply list_elem_of_singleton in Hk. subst k. exists agentKey.
        split; [left; reflexivity|exact Hkm].
      * destruct (Hmut' k Hk) as (a & [->|Ha] & Hm).
        -- exists key. split; [|exact Hm]. right. apply elem_of_app. right.
           apply elem_of_app. left. apply list_elem_of_here.
        -- exists a. split; [|exact Hm]. right. apply elem_of_app. right.
           apply elem_of_app. right. exact Ha.
Qed.

Lemma getSwarmPartners_extends connections fuel :
  forall agentKey partners leaderKey,
    length (candidates connections partners) < fuel ->
    exists ext,
      getSwarmPartners fuel connections agentKey partners leaderKey = Some (partners ++ ext)
      /\ extension connections agentKey partners ext.
Proof.
  induction fuel as [|fuel IH]; intros agentKey partners leaderKey Hfuel; [lia|].
  cbn [getSwarmPartners].
  assert (Forall (fun conn => conn ∈ connections
                              /\ partnerConnection connections agentKey leaderKey conn = true)
                 (List.filter (partnerConnection connections agentKey leaderKey)
                              connections)) as Hconns.
  { apply Forall_forall. intros conn Hconn.
    apply list_elem_of_In, List.filter_In in Hconn as [Hin Hp].
    split; [apply list_elem_of_In; exact Hin|exact Hp]. }
  revert Hconns. generalize (List.filter (partnerConnection connections agentKey leaderKey)
                                         connections) as conns.
  intros conns Hconns.
  enough (forall ext,
            extension connections agentKey partners ext ->
            exists ext',
              fold_left
                (fun acc conn =>
                   partners ← acc;
                   let key := c_from conn in
                   if negb (includes key partners)
                   then getSwarmPartners fuel connections key (partners ++ [key]) None
                   else Some partners)
                conns (Some (partners ++ ext))
              = Some (partners ++ ext')
              /\ extension connections agentKey partners ext') as Hfold.
  { specialize (Hfold [] (extension_nil _ _ _)). rewrite app_nil_r in Hfold. exact Hfold. }
  induction Hconns as [|conn conns [Hin Hp] _ IHconns]; intros ext Hext.
  - exists ext. split; [reflexivity|exact Hext].
  - cbn [fold_left mbind option_bind].
    destruct (includes (c_from conn) (partners ++ ext)) eqn:Hseen; cbn [negb].
    + apply IHconns. exact Hext.
    + assert (c_from conn ∉ partners ++ ext) as Hnew.
      { intros Hk. apply includes_iff in Hk. congruence. }
      destruct (IH (c_from conn) ((partners ++ ext) ++ [c_from conn]) None)
        as (ext2 & Hcall & Hext2).
      { pose proof (candidates_push connections (partners ++ ext) conn Hin Hnew).
        pose proof (candidates_mono connections partners (partners ++ ext)
                      (fun k Hk => proj2 (elem_of_app _ _ _) (or_introl Hk))).
        lia. }
      rewrite Hcall, <- !app_assoc. apply IHconns.
      apply extension_step; try assumption.
      * apply (partnerConnection_mutual _ _ _ _ Hin Hp).
      * rewrite <- !app_assoc in Hext2. exact Hext2.
Qed.

Lemma candidates_length connections partners :
  length (candidates connections partners) <= length connections.
Proof.
  rewrite <- (length_fmap c_from connections).
  apply submseteq_length, NoDup_submseteq.
  - apply NoDup_filter, NoDup_remove_dups.
  - intros k Hk. apply list_elem_of_filter in Hk as [_ Hk].
    rewrite elem_of_remove_dups in Hk. exact Hk.
Qed.

Lemma fold_left_None {A B} (f : option A -> B -> option A) (l : list B) :
  (forall b, f None b = None) -> fold_left f l None = None.
Proof.
  intros Hf. induction l as [|b l IH]; [reflexivity|]. cbn [fold_left]. rewrite Hf. exact IH.
Qed.

(** More fuel does not change the result of a call that had enough. *)
Lemma getSwarmPartners_more_fuel connections fuel :
  forall agentKey partners leaderKey result,
    getSwarmPartners fuel connections agentKey partners leaderKey = Some result ->
    getSwarmPartners (S fuel) connections agentKey partners leaderKey = Some result.
Proof.
  induction fuel as [|fuel IH]; intros agentKey partners leaderKey result; [discriminate|].
  intros Hfold. cbn [getSwarmPartners] in Hfold.
  change (getSwarmPartners (S (S fuel)) connections agentKey partners leaderKey)
    with (fold_left
            (fun acc conn =>
               partners ← acc;
               let key := c_from conn in
               if negb (includes key partners)
               then getSwarmPartners (S fuel) connections key (partners ++ [key]) None
               else Some partners)
            (List.filter (partnerConnection connections agentKey leaderKey) connections)
            (Some partners)).
  revert Hfold.
  generalize (List.filter (partnerConnection connections agentKey leaderKey) connections)
    as conns.
  generalize (Some partners) as acc.
  intros acc conns. revert acc.
  induction conns as [|conn conns IHconns]; intros acc Hfold; [exact Hfold|].
  cbn [fold_left] in *. destruct acc as [p|]; cbn [mbind option_bind] in *.
  - destruct (negb (includes (c_from conn) p)); [|apply IHconns; exact Hfold].
    destruct (getSwarmPartners fuel connections (c_from conn) (p ++ [c_from conn]) None)
      as [p'|] eqn:Hcall.
    + rewrite (IH _ _ _ _ Hcall). apply IHconns. exact Hfold.
    + rewrite fold_left_None in Hfold by reflexivity. discriminate.
  - rewrite fold_left_None in Hfold by reflexivity. discriminate.
Qed.

(** X22. The search for the swarm partners terminates and only extends the
    shared array. With a recursion depth above the number of connections,
    the call returns the partners it was given followed by new keys; the new
    keys are distinct, none was among the given partners, and each is joined
    by agent connections in both directions to the agent or to another new
    key. A greater depth gives the same result. *)
Theorem getSwarmPartners_terminates connections agentKey partners leaderKey fuel :
  length connections < fuel ->
  exists ext,
    getSwarmPartners fuel connections agentKey partners leaderKey = Some (partners ++ ext)
    /\ getSwarmPartners (S fuel) connections agentKey partners leaderKey
       = Some (partners ++ ext)
    /\ NoDup ext
    /\ (forall k, k ∈ ext -> k ∉ partners)
    /\ (forall k, k ∈ ext ->
                  exists a, (a = agentKey \/ a ∈ ext) /\ mutual connections a k).
Proof.
  intros Hfuel.
  destruct (getSwarmPartners_extends connections fuel agentKey partners leaderKey)
    as (ext & Hcall & Hnd & Hnew & Hmut).
  { pose proof (candidates_length connections partners). lia. }
  exists ext. split; [exact Hcall|].
  split; [apply getSwarmPartners_more_fuel; exact Hcall|].
  split; [exact Hnd|]. split; [exact Hnew|exact Hmut].
Qed.

(** Two agents that hand over to each other: the partners of "a" are "b" and
    "a" itself. *)
Definition pair_connections : list Connection :=
  [mkConnection "agent" "a" "b"; mkConnection "agent" "b" "a"].

Lemma getSwarmPartners_terminates_witness :
  getSwarmPartners 3 pair_connections "a" [] None = Some ["b"; "a"]
  /\ exists ext,
       getSwarmPartners 3 pair_connections "a" [] None = Some ([] ++ ext)
       /\ NoDup ext.
Proof.
  split; [reflexivity|].
  destruct (getSwarmPartners_terminates pair_connections "a" [] None 3)
    as (ext & Hcall & _ & Hnd & _).
  - cbn [length pair_connections]. lia.
  - exists ext. split; [exact Hcall|exact Hnd].
Defined.

(** One turn of the [forEach] loop, for the calls of depth [fuel]. *)
Definition pushPartner (fuel : nat) (connections : list Connection)
    (acc : option (list string)) (conn : Connection) : option (list string) :=
  partners ← acc;
  let key := c_from conn in
  if negb (includes key partners)
  then getSwarmPartners fuel connections key (partners ++ [key]) None
  else Some partners.

Lemma getSwarmPartners_unfold fuel connections agentKey partners leaderKey :
  getSwarmPartners (S fuel) connections agentKey partners leaderKey
  = fold_left (pushPartner fuel connections)
              (List.filter (partnerConnection connections agentKey leaderKey) connections)
              (Some partners).
Proof. reflexivity. Qed.

(** The loop only pushes, and leaves every key it meets in the array. *)
Lemma pushPartner_loop connections fuel conns :
  (forall agentKey partners leaderKey result,
     getSwarmPartners fuel connections agentKey partners leaderKey = Some result ->
     exists ext, result = partners ++ ext) ->
  forall partners result,
    fold_left (pushPartner fuel connections) conns (Some partners) = Some result ->
    (exists ext, result = partners ++ ext)
    /\ (forall conn, conn ∈ conns -> c_from conn ∈ result)
    /\ (forall conn rest inner,
          conns = conn :: rest ->
          includes (c_from conn) partners = false ->
          getSwarmPartners fuel connections (c_from conn) (partners ++ [c_from conn]) None
          = Some inner ->
          exists ext, result = inner ++ ext).
Proof.
  intros Hprefix. induction conns as [|c conns IHconns]; intros partners result Hfold.
  - injection Hfold as <-. split; [exists []; rewrite app_nil_r; reflexivity|].
    split; [intros conn Hc; apply elem_of_nil in Hc; contradiction|discriminate].
  - cbn [fold_left] in Hfold. unfold pushPartner at 2 in Hfold.
    cbn [mbind option_bind] in Hfold.
    destruct (includes (c_from c) partners) eqn:Hseen; cbn [negb] in Hfold.
    + destruct (IHconns _ _ Hfold) as ((ext & ->) & Hrest & _).
      split; [exists ext; reflexivity|]. split; [|intros conn rest inner [= -> ->]; congruence].
      intros conn Hc. apply elem_of_cons in Hc as [->|Hc]; [|apply Hrest; exact Hc].
      apply elem_of_app. left. apply includes_iff. exact Hseen.
    + destruct (getSwarmPartners fuel connections (c_from c) (partners ++ [c_from c]) None)
        as [p|] eqn:Hcall.
      2:{ rewrite fold_left_None in Hfold by reflexivity. discriminate. }
      destruct (Hprefix _ _ _ _ Hcall) as (e1 & ->).
      destruct (IHconns _ _ Hfold) as ((e2 & ->) & Hrest & _).
      split; [exists ([c_from c] ++ e1 ++ e2); rewrite <- !app_assoc; reflexivity|]. split.
      * intros conn Hc. apply elem_of_cons in Hc as [->|Hc]; [|apply Hrest; exact Hc].
        rewrite <- !app_assoc. apply elem_of_app. right. apply list_elem_of_here.
      * intros conn rest inner [= -> ->] _ Hinner. rewrite Hcall in Hinner.
        injection Hinner as <-. exists e2. reflexivity.
Qed.

(** A call that returns has only pushed to the array. *)
Lemma getSwarmPartners_prefix connections fuel :
  forall agentKey partners leaderKey result,
    getSwarmPartners fuel connections agentKey partners leaderKey = Some result ->
    exists ext, result = partners ++ ext.
Proof.
  induction fuel as [|fuel IH]; intros agentKey partners leaderKey result; [discriminate|].
  rewrite getSwarmPartners_unfold. intros Hfold.
  apply (pushPartner_loop connections fuel _ IH _ _ Hfold).
Qed.

(** A call that returns has pushed, or found, every partner of its agent. *)
Lemma getSwarmPartners_direct connections fuel agentKey partners leaderKey result :
  getSwarmPartners fuel connections agentKey partners leaderKey = Some result ->
  forall conn,
    conn ∈ connections ->
    partnerConnection connections agentKey leaderKey conn = true ->
    c_from conn ∈ result.
Proof.
  destruct fuel as [|fuel]; [discriminate|]. rewrite getSwarmPartners_unfold.
  intros Hfold conn Hin Hp.
  apply (pushPartner_loop connections fuel _ (getSwarmPartners_prefix connections fuel)
           _ _ Hfold).
  apply list_elem_of_In, List.filter_In. split; [apply list_elem_of_In; exact Hin|exact Hp].
Qed.

(** X27. The search misses no direct partner, and counts the agent itself.
    With a recursion depth above the number of connections, the result
    holds the source of every agent connection that arrives at the agent,
    is answered in the other direction and does not come from the leader.
    When the search starts from an empty array and finds such a connection,
    the agent is among its own partners. *)
Theorem getSwarmPartners_direct_partners connections agentKey partners leaderKey fuel :
  length connections < fuel ->
  exists result,
    getSwarmPartners fuel connections agentKey partners leaderKey = Some result
    /\ (forall conn,
          conn ∈ connections ->
          partnerConnection connections agentKey leaderKey conn = true ->
          c_from conn ∈ result)
    /\ (partners = [] ->
        (exists conn, conn ∈ connections
                      /\ partnerConnection connections agentKey leaderKey conn = true) ->
        agentKey ∈ result).
Proof.
  intros Hfuel.
  destruct (getSwarmPartners_extends connections fuel agentKey partners leaderKey)
    as (ext & Hcall & _).
  { pose proof (candidates_length connections partners). lia. }
  exists (partners ++ ext). split; [exact Hcall|].
  split; [apply (getSwarmPartners_direct _ _ _ _ _ _ Hcall)|].
  intros -> (conn0 & Hin0 & Hp0).
  destruct fuel as [|fuel]; [lia|]. rewrite getSwarmPartners_unfold in Hcall.
  assert (Forall (fun conn => conn ∈ connections
                              /\ partnerConnection connections agentKey leaderKey conn = true)
                 (List.filter (partnerConnection connections agentKey leaderKey)
                              connections)) as Hconns.
  { apply Forall_forall. intros conn Hconn.
    apply list_elem_of_In, List.filter_In in Hconn as [Hin Hp].
    split; [apply list_elem_of_In; exact Hin|exact Hp]. }
  assert (In conn0 (List.filter (partnerConnection connections agentKey leaderKey)
                                connections)) as Hc0.
  { apply List.filter_In. split; [apply list_elem_of_In; exact Hin0|exact Hp0]. }
  destruct (List.filter (partnerConnection connections agentKey leaderKey) connections)
    as [|conn conns]; [contradiction|]. clear Hc0.
  apply Forall_cons in Hconns as [[Hin Hp] _].
  destruct (getSwarmPartners fuel connections (c_from conn) ([] ++ [c_from conn]) None)
    as [inner|] eqn:Hinner.
  2:{ cbn [fold_left] in Hcall. unfold pushPartner at 2 in Hcall.
      cbn [mbind option_bind includes existsb negb] in Hcall. rewrite Hinner in Hcall.
      rewrite fold_left_None in Hcall by reflexivity. discriminate. }
  destruct (pushPartner_loop connections fuel _ (getSwarmPartners_prefix connections fuel)
              _ _ Hcall) as (_ & _ & Hfirst).
  destruct (Hfirst conn conns inner eq_refl eq_refl Hinner) as (e & ->).
  apply elem_of_app. left.
  pose proof (partnerConnection_mutual _ _ _ _ Hin Hp) as [Hto Hback].
  apply existsb_exists in Hback as (back & Hback & Hagent).
  unfold agentConnection in Hagent.
  apply andb_true_iff in Hagent as [Hagent Hfrom].
  apply andb_true_iff in Hagent as [Htype Htarget].
  apply String.eqb_eq in Hfrom. rewrite <- Hfrom.
  apply (getSwarmPartners_direct _ _ _ _ _ _ Hinner back);
    [apply list_elem_of_In; exact Hback|].
  unfold partnerConnection. rewrite Htype, Htarget. cbn [truthy_str andb].
  rewrite Hfrom. exact Hto.
Qed.

Lemma getSwarmPartners_direct_partners_witness :
  exists result,
    getSwarmPartners 3 pair_connections "a" [] None = Some result
    /\ "b" ∈ result /\ "a" ∈ result.
Proof.
  destruct (getSwarmPartners_direct_partners pair_connections "a" [] None 3)
    as (result & Hcall & Hdirect & Hself).
  - cbn [length pair_connections]. lia.
  - exists result. split; [exact Hcall|]. split.
    + apply (Hdirect (mkConnection "agent" "b" "a")); [|reflexivity].
      apply list_elem_of_further, list_elem_of_here.
    + apply Hself; [reflexivity|].
      exists (mkConnection "agent" "b" "a").
      split; [apply list_elem_of_further, list_elem_of_here|reflexivity].
Defined.

End SwarmProps.

(** ** The variable assigners of the tool node *)

Module VariablesProps.
Import ToolNode ToolNodeProps JsProps.



Section WithStringify.
Context `{Stringify}.




End WithStringify.




End VariablesProps.

(** ** Properties of the navigator after the afterAgent hooks *)

Module NavigatorAfterProps.
Import ToolNode Navigator NavigatorAfter NavigatorProps.

Section WithChannelState.
Variable getChannelState : State -> string -> option SubState.

Lemma nexts_state summarize summarizeTitle (messages : list BaseMessage) (error : bool)
    nextNodes state x :
  x ∈ match nextNodes with
      | Some next =>
          if negb error then
            match next with
            | NextArray names =>
                summarySends summarize summarizeTitle messages state
                ++ ((fun name => mkSend name state)
                      <$> filter (fun name => truthy_str (Some name) = true) names)
            | NextFun f =>
                summarySends summarize summarizeTitle messages state
                ++ [mkSend (f state) state]
            end
          else summarySends summarize summarizeTitle messages state
      | None => summarySends summarize summarizeTitle messages state
      end ->
  send_state x = state.
Proof.
  assert (forall y, y ∈ summarySends summarize summarizeTitle messages state ->
                    send_state y = state) as Hsum.
  { intros y Hy. unfold summarySends in Hy.
    repeat (match type of Hy with
            | context [if ?b then _ else _] => destruct b
            end);
      try (apply list_elem_of_singleton in Hy; subst y; reflexivity);
      apply elem_of_nil in Hy; contradiction. }
  destruct nextNodes as [[names|f]|]; [| |apply Hsum].
  - destruct (negb error); [|apply Hsum].
    intros Hx. apply elem_of_app in Hx as [Hx|Hx]; [apply Hsum; exact Hx|].
    apply list_elem_of_fmap in Hx as (n & -> & _). reflexivity.
  - destruct (negb error); [|apply Hsum].
    intros Hx. apply elem_of_app in Hx as [Hx|Hx]; [apply Hsum; exact Hx|].
    apply list_elem_of_singleton in Hx. subst x. reflexivity.
Qed.

(** X24. The navigator placed after the afterAgent hooks never routes to a
    tool: every [Send] it returns carries the state as it is, without tool
    call. On an AI message without tool calls it answers what the agent's
    navigator, without exit node, answers. On any other last message the two
    agree, except that, where the agent's navigator ends the graph, this one
    goes to the fail node when an error is recorded. *)
Theorem afterAgentNavigator_routes agentChannel summarize summarizeTitle nextNodes fail
    state :
  (forall ai,
     last (channelMessages getChannelState state agentChannel) = Some (MsgAI ai) ->
     (ai_tool_calls ai = None \/ ai_tool_calls ai = Some []) ->
     createAfterAgentNavigator getChannelState agentChannel summarize summarizeTitle
       nextNodes fail state
     = createAgentNavigator getChannelState agentChannel summarize summarizeTitle nextNodes
         fail None state)
  /\ (forall route s,
        createAfterAgentNavigator getChannelState agentChannel summarize summarizeTitle
          nextNodes fail state = Ok route ->
        (route = RouteSend s \/ exists sends, route = RouteSends sends /\ s ∈ sends) ->
        send_state s = state)
  /\ ((forall ai,
         last (channelMessages getChannelState state agentChannel) <> Some (MsgAI ai)) ->
      createAfterAgentNavigator getChannelState agentChannel summarize summarizeTitle
        nextNodes fail state
      = match createAgentNavigator getChannelState agentChannel summarize summarizeTitle
                nextNodes fail None state with
        | Ok (RouteNode node) =>
            if channelError getChannelState state agentChannel && truthy_str fail
            then Ok (RouteNode (default EmptyString fail))
            else Ok (RouteNode node)
        | other => other
        end).
Proof.
  unfold channelMessages, channelError, createAfterAgentNavigator, createAgentNavigator.
  split; [|split].
  - intros ai -> [-> | ->]; reflexivity.
  - intros route s Hroute Hs.
    pose proof (fun x => nexts_state summarize summarizeTitle
                           (default [] (getChannelState state agentChannel ≫= sub_messages))
                           (truthy_opt (getChannelState state agentChannel ≫= sub_error))
                           nextNodes state x) as Hnexts.
    assert (forall r,
              match
                match nextNodes with
                | Some (NextArray names) =>
                    if negb (length names =? 0)%nat
                    then Some (RouteSends ((fun name => mkSend name state) <$> names))
                    else None
                | Some (NextFun f) => Some (RouteSend (mkSend (f state) state))
                | None => None
                end
              with
              | Some route => Ok route
              | None =>
                  if truthy_opt (getChannelState state agentChannel ≫= sub_error)
                     && truthy_str fail
                  then Ok (RouteNode (default EmptyString fail))
                  else Ok (RouteNode END)
              end = Ok r ->
              (r = RouteSend s \/ exists sends, r = RouteSends sends /\ s ∈ sends) ->
              send_state s = state) as Hother.
    { intros r Hr Hrs. destruct nextNodes as [[names|f]|].
      - destruct (negb (length names =? 0)%nat).
        + injection Hr as <-. destruct Hrs as [Hrs|(sends & [= <-] & Hrs)]; [discriminate|].
          apply list_elem_of_fmap in Hrs as (n & -> & _). reflexivity.
        + destruct (_ && _); injection Hr as <-;
            destruct Hrs as [Hrs|(sends & Hrs & _)]; discriminate.
      - injection Hr as <-. destruct Hrs as [[= <-]|(sends & Hrs & _)];
          [reflexivity|discriminate].
      - destruct (_ && _); injection Hr as <-;
          destruct Hrs as [Hrs|(sends & Hrs & _)]; discriminate. }
    destruct (last (default [] (getChannelState state agentChannel ≫= sub_messages)))
      as [[ai| | |]|]; try (apply (Hother route Hroute Hs)).
    destruct (negb (length _ =? 0)%nat).
    + injection Hroute as <-. destruct Hs as [Hs|(sends & [= <-] & Hs)]; [discriminate|].
      destruct (_ && _); [|apply Hnexts; exact Hs].
      apply elem_of_app in Hs as [Hs|Hs]; [apply Hnexts; exact Hs|].
      apply list_elem_of_singleton in Hs. subst s. reflexivity.
    + destruct (_ && _); injection Hroute as <-;
        destruct Hs as [Hs|(sends & Hs & _)]; discriminate.
  - intros Hlast.
    destruct (last (default [] (getChannelState state agentChannel ≫= sub_messages)))
      as [[ai| | |]|]; try (exfalso; apply (Hlast ai); reflexivity);
      cbn [truthy_str];
      destruct nextNodes as [[[|n names]|f]|]; cbn [length Nat.eqb negb];
      try reflexivity;
      destruct (_ && _); reflexivity.
Qed.

End WithChannelState.
End NavigatorAfterProps.

(** ** Properties of the position files *)

Module PositionsProps.
Import Positions JsProps.

Lemma reduce_from_lookup (positions : list string) :
  forall (index : nat) (acc : gmap string nat) (name : string) (i : nat),
    reduce_from (fun acc name index => js_set name index acc) index positions acc !! name
    = Some i
    <-> (name <> "__proto__"
         /\ exists j, i = index + j /\ positions !! j = Some name
                      /\ forall j', j < j' -> positions !! j' <> Some name)
        \/ (acc !! name = Some i /\ (name ∉ positions \/ name = "__proto__")).
Proof.
  induction positions as [|p positions IH]; intros index acc name i; cbn [reduce_from].
  - split.
    + intros Hacc. right. split; [exact Hacc|]. left. apply not_elem_of_nil.
    + intros [(_ & j & _ & Hj & _)|[Hacc _]]; [discriminate|exact Hacc].
  - rewrite IH, js_set_lookup.
    destruct (String.eqb_spec name "__proto__") as [->|Hproto].
    { split.
      - intros [(Hne & _)|[Hacc _]]; [contradiction|]. right. split; [exact Hacc|].
        right. reflexivity.
      - intros [(Hne & _)|[Hacc _]]; [contradiction|]. right. split; [exact Hacc|].
        right. reflexivity. }
    destruct (String.eqb_spec p name) as [->|Hne].
    + split.
      * intros [(_ & j & -> & Hj & Hlast)|[Hacc Hnot]].
        -- left. split; [exact Hproto|]. exists (S j). split; [lia|]. split; [exact Hj|].
           intros [|j'] Hlt; [lia|]. apply Hlast. lia.
        -- injection Hacc as <-. destruct Hnot as [Hnot|Hnot]; [|contradiction].
           left. split; [exact Hproto|]. exists 0. split; [lia|]. split; [reflexivity|].
           intros [|j'] Hlt Hj'; [lia|]. apply Hnot.
           apply (list_elem_of_lookup_2 _ j'). exact Hj'.
      * intros [(_ & j & -> & Hj & Hlast)|[_ [Hnot|Hnot]]].
        -- destruct j as [|j].
           ++ right. split; [f_equal; lia|]. left.
              intros Hin. apply list_elem_of_lookup_1 in Hin as [j' Hj'].
              apply (Hlast (S j')); [lia|exact Hj'].
           ++ left. split; [exact Hproto|]. exists j. split; [lia|]. split; [exact Hj|].
              intros j' Hlt. apply (Hlast (S j')). lia.
        -- exfalso. apply Hnot. apply list_elem_of_here.
        -- contradiction.
    + split.
      * intros [(_ & j & -> & Hj & Hlast)|[Hacc Hnot]].
        -- left. split; [exact Hproto|]. exists (S j). split; [lia|]. split; [exact Hj|].
           intros [|j'] Hlt; [lia|]. apply Hlast. lia.
        -- right. split; [exact Hacc|]. destruct Hnot as [Hnot|Hnot]; [|contradiction].
           left. intros Hin.
           apply elem_of_cons in Hin as [Heq|Hin]; [congruence|contradiction].
      * intros [(_ & j & -> & Hj & Hlast)|[Hacc Hnot]].
        -- destruct j as [|j]; [injection Hj as ->; contradiction|].
           left. split; [exact Hproto|]. exists j. split; [lia|]. split; [exact Hj|].
           intros j' Hlt. apply (Hlast (S j')). lia.
        -- right. split; [exact Hacc|]. destruct Hnot as [Hnot|Hnot]; [|contradiction].
           left. apply not_elem_of_cons in Hnot as [_ Hnot]. exact Hnot.
Qed.

Lemma last_occurrence (positions : list string) (name : string) :
  name ∈ positions ->
  exists i, positions !! i = Some name /\ forall j, i < j -> positions !! j <> Some name.
Proof.
  induction positions as [|p positions IH]; intros Hin;
    [apply elem_of_nil in Hin; contradiction|].
  destruct (decide (name ∈ positions)) as [Hrest|Hrest].
  - destruct (IH Hrest) as (i & Hi & Hlast). exists (S i). split; [exact Hi|].
    intros [|j] Hlt; [lia|]. apply Hlast. lia.
  - apply elem_of_cons in Hin as [->|Hin]; [|contradiction].
    exists 0. split; [reflexivity|]. intros [|j] Hlt Hj; [lia|].
    apply Hrest. apply (list_elem_of_lookup_2 _ j). exact Hj.
Qed.

Section WithTrim.
Variable trim : string -> string.

(** X25. The position list and the position map of a file. When the file
    cannot be read or parsed, or holds a falsy value, both are empty. When
    it holds a truthy value that is not a list, both throw a TypeError. When
    it holds a list, every name of the position list is the trimmed form of
    a string item of the file, and is not empty; the map sends each name of
    the list, except the name "__proto__", to the index of its last
    occurrence, and holds no other key: looking up the index of a name in
    the list gives the name back. The position list is never undefined. *)
Theorem getPositionMap_inverts positionFilePath file :
  (forall items,
     file = Parsed (JArr items) ->
     exists positions map,
       getPositionList trim positionFilePath file = Ok (Some positions)
       /\ getPositionMap trim positionFilePath file = Ok map
       /\ (forall name i,
             map !! name = Some i
             <-> name <> "__proto__"
                 /\ positions !! i = Some name
                 /\ forall j, i < j -> positions !! j <> Some name)
       /\ (forall name,
             is_Some (map !! name) <-> name ∈ positions /\ name <> "__proto__")
       /\ (forall name,
             name ∈ positions ->
             name <> EmptyString /\ exists s, JStr s ∈ items /\ name = trim s))
  /\ ((forall yamlContent, file = Parsed yamlContent -> truthy yamlContent = false) ->
      getPositionList trim positionFilePath file = Ok (Some [])
      /\ getPositionMap trim positionFilePath file = Ok ∅)
  /\ (forall yamlContent,
        file = Parsed yamlContent -> truthy yamlContent = true ->
        (forall items, yamlContent <> JArr items) ->
        getPositionList trim positionFilePath file = Throw not_a_function
        /\ getPositionMap trim positionFilePath file = Throw not_a_function)
  /\ getPositionList trim positionFilePath file <> Ok None.
Proof.
  split; [|split; [|split]].
  - intros items ->. unfold getPositionMap, getPositionList, loadYamlFile.
    cbn [truthy bind].
    set (positions := omap _ items).
    exists positions. eexists. split; [reflexivity|]. split; [reflexivity|].
    assert (forall name i,
              reduce_from (fun acc name index => js_set name index acc) 0 positions
                          (∅ : gmap string nat) !! name
              = Some i
              <-> name <> "__proto__"
                  /\ positions !! i = Some name
                  /\ forall j, i < j -> positions !! j <> Some name) as Hmap.
    { intros name i. rewrite reduce_from_lookup. split.
      - intros [(Hne & j & -> & Hj & Hlast)|[Hempty _]];
          [|rewrite lookup_empty in Hempty; discriminate].
        repeat split; assumption.
      - intros (Hne & Hi & Hlast). left. split; [exact Hne|].
        exists i. repeat split; assumption. }
    split; [exact Hmap|]. split.
    + intros name. split.
      * intros [i Hi]. apply Hmap in Hi as (Hne & Hi & _).
        split; [|exact Hne]. apply (list_elem_of_lookup_2 _ i). exact Hi.
      * intros [Hin Hne]. destruct (last_occurrence positions name Hin) as (i & Hi & Hlast).
        exists i. apply Hmap. repeat split; assumption.
    + intros name Hin. unfold positions in Hin.
      apply list_elem_of_omap in Hin as (item & Hitem & Hname).
      destruct item as [| | |s| |]; try discriminate.
      match type of Hname with
      | context [if ?b then _ else _] => destruct b eqn:Htruthy
      end; [|discriminate].
      injection Hname as <-. split.
      * apply andb_true_iff in Htruthy as [_ Ht]. cbn [truthy] in Ht.
        intros Hempty. rewrite Hempty in Ht. discriminate.
      * exists s. split; [exact Hitem|reflexivity].
  - intros Hfalsy. unfold getPositionMap, getPositionList, loadYamlFile.
    destruct file as [e|e|yamlContent]; cbn [bind]; try (split; reflexivity).
    rewrite (Hfalsy yamlContent eq_refl). split; reflexivity.
  - intros yamlContent -> Htruthy Hlist. unfold getPositionMap, getPositionList, loadYamlFile.
    rewrite Htruthy. cbn [bind].
    destruct yamlContent as [| | | |items|]; try discriminate; try (split; reflexivity).
    exfalso. apply (Hlist items). reflexivity.
  - unfold getPositionList, loadYamlFile.
    destruct file as [e|e|yamlContent]; cbn [bind]; try discriminate.
    destruct yamlContent as [|[|]|z|s|items|fields]; cbn [truthy]; try discriminate.
    + destruct (negb (z =? 0)%Z); discriminate.
    + destruct (negb (String.eqb s EmptyString)); discriminate.
Qed.

End WithTrim.

(** A file that lists "b", an empty item, "a", "__proto__" and "b" again. *)
Lemma getPositionMap_inverts_witness :
  exists map,
    getPositionMap (fun s => s) "tools/_position.yaml"
      (Parsed (JArr [JStr "b"; JNull; JStr "a"; JStr "__proto__"; JStr "b"])) = Ok map
    /\ map !! "b" = Some 3
    /\ map !! "__proto__" = None.
Proof.
  destruct (proj1 (getPositionMap_inverts (fun s => s) "tools/_position.yaml"
                     (Parsed (JArr [JStr "b"; JNull; JStr "a"; JStr "__proto__";
                                    JStr "b"])))
              _ eq_refl) as (positions & map & Hlist & Hmap & Hlookup & Hkeys & _).
  exists map. split; [exact Hmap|].
  injection Hlist as <-. split.
  - apply Hlookup. split; [discriminate|]. split; [reflexivity|].
    intros [|[|[|[|j]]]] Hlt; try lia; discriminate.
  - destruct (map !! "__proto__") as [i|] eqn:Hp; [|reflexivity].
    assert (is_Some (map !! "__proto__")) as Hsome by (rewrite Hp; eexists; reflexivity).
    apply Hkeys in Hsome as [_ Hne]. contradiction.
Defined.

End PositionsProps.
